(** * PasswordDetector: a shallow embedding of the NZBGet queue script

    The development follows [PasswordDetector.py] function by function.

    Text is modelled as [string], a sequence of characters with code
    points below 256, under the rules Python 3 applies to such
    characters ([str.lower], [str.strip], [str.splitlines], [re]).
    Python integers are [Z] (or [N] where the source only produces
    naturals).  Everything the script reaches outside its own process
    (environment variables, the job directory, the unrar tool, the NZBGet
    server) is gathered in the record [host]; what the script changes
    (the temp folder) and what it emits (log lines, tool launches, server
    calls, removals) is the [world] threaded through the [script] monad. *)

From Stdlib Require Import Bool Arith Lia List ZArith NArith Ascii String.
From Stdlib Require Import Permutation DecimalString.
Import ListNotations.

Local Open Scope string_scope.
Local Open Scope list_scope.

(** Python's [+] on strings; [++] is kept for lists. *)
Infix "+++" := String.append (right associativity, at level 60).

(** ** Python string primitives *)

Module Py.

Definition code (c : ascii) : N := N_of_ascii c.

Definition between (lo hi : N) (c : ascii) : bool :=
  ((lo <=? code c) && (code c <=? hi))%N.

(** [str.lower] on one character: A-Z, and the Latin-1 capitals
    U+00C0..U+00DE except the multiplication sign U+00D7. *)
Definition lower_char (c : ascii) : ascii :=
  if between 65 90 c
     || (between 192 222 c && negb (code c =? 215)%N)
  then ascii_of_N (code c + 32)
  else c.

Fixpoint lower (s : string) : string :=
  match s with
  | EmptyString => EmptyString
  | String c s' => String (lower_char c) (lower s')
  end.

(** The characters [str.strip] removes: tab, LF, VT, FF, CR, the
    separators U+001C..U+001F, space, NEL and the no-break space. *)
Definition is_space (c : ascii) : bool :=
  between 9 13 c || between 28 32 c
  || (code c =? 133)%N || (code c =? 160)%N.

Fixpoint lstrip (s : string) : string :=
  match s with
  | EmptyString => EmptyString
  | String c s' => if is_space c then lstrip s' else s
  end.

Fixpoint rstrip (s : string) : string :=
  match s with
  | EmptyString => EmptyString
  | String c s' =>
      match rstrip s' with
      | EmptyString => if is_space c then EmptyString else String c EmptyString
      | r => String c r
      end
  end.

Definition strip (s : string) : string := rstrip (lstrip s).

(** [s.split(sep)] for a one-character separator: never the empty list. *)
Fixpoint split (sep : ascii) (s : string) : list string :=
  match s with
  | EmptyString => [EmptyString]
  | String c s' =>
      if Ascii.eqb c sep then EmptyString :: split sep s'
      else match split sep s' with
           | [] => [String c EmptyString]
           | w :: ws => String c w :: ws
           end
  end.

(** Line boundaries of [str.splitlines]; CR followed by LF is one. *)
Definition is_linebreak (c : ascii) : bool :=
  between 10 13 c || between 28 30 c || (code c =? 133)%N.

Definition CR : ascii := ascii_of_N 13.
Definition LF : ascii := ascii_of_N 10.

Fixpoint splitlines (s : string) : list string :=
  match s with
  | EmptyString => []
  | String c s' =>
      if is_linebreak c then
        EmptyString ::
          (if Ascii.eqb c CR then
             match s' with
             | String d s'' => if Ascii.eqb d LF then splitlines s'' else splitlines s'
             | EmptyString => []
             end
           else splitlines s')
      else match splitlines s' with
           | [] => [String c EmptyString]
           | l :: ls => String c l :: ls
           end
  end.

(** [sub in s] *)
Fixpoint contains (sub s : string) : bool :=
  String.prefix sub s ||
  match s with
  | EmptyString => false
  | String _ s' => contains sub s'
  end.

Definition startswith (s pre : string) : bool := String.prefix pre s.

(** [x in l] for a list of strings *)
Definition mem (x : string) (l : list string) : bool :=
  existsb (String.eqb x) l.

(** [a == b] for two lists of strings *)
Definition list_eqb (a b : list string) : bool :=
  if list_eq_dec string_dec a b then true else false.

(** [s[n:]] *)
Fixpoint drop (n : nat) (s : string) : string :=
  match n, s with
  | O, _ => s
  | S n', String _ s' => drop n' s'
  | S _, EmptyString => EmptyString
  end.

(** [s[:len(s)-n]] for a string that is not shorter than the prefix
    already cut off (the slice is empty when fewer than [n] characters
    are left). *)
Definition drop_last (n : nat) (s : string) : string :=
  String.substring 0 (String.length s - n) s.

(** [str(i)] for an integer *)
Definition str_of_int (z : Z) : string := NilZero.string_of_int (Z.to_int z).

Definition is_digit (c : ascii) : bool := between 48 57 c.

Definition digit_value (c : ascii) : N := (code c - 48)%N.

(** The value of a run of decimal digits, most significant first. *)
Fixpoint digits_value (acc : N) (s : string) : N :=
  match s with
  | EmptyString => acc
  | String c s' => digits_value (10 * acc + digit_value c)%N s'
  end.

End Py.

Import Py.

(** [int(s)] for a string: surrounding white space, an optional sign,
    decimal digits with single underscores between them.  [None] stands
    for [ValueError]. *)
Definition int_space (c : ascii) : bool :=
  between 9 13 c || (code c =? 32)%N || (code c =? 133)%N || (code c =? 160)%N.

Fixpoint int_lstrip (s : string) : string :=
  match s with
  | EmptyString => EmptyString
  | String c s' => if int_space c then int_lstrip s' else s
  end.

Fixpoint int_rstrip (s : string) : string :=
  match s with
  | EmptyString => EmptyString
  | String c s' =>
      match int_rstrip s' with
      | EmptyString => if int_space c then EmptyString else String c EmptyString
      | r => String c r
      end
  end.

(** [int_digits after_digit acc s]: [after_digit] tells whether the
    character before [s] was a digit (an underscore needs a digit on
    both sides). *)
Fixpoint int_digits (after_digit : bool) (acc : N) (s : string) : option N :=
  match s with
  | EmptyString => if after_digit then Some acc else None
  | String c s' =>
      if is_digit c then int_digits true (10 * acc + digit_value c)%N s'
      else if (code c =? 95)%N && after_digit then int_digits false acc s'
      else None
  end.

Definition int_of_str (s : string) : option Z :=
  match int_rstrip (int_lstrip s) with
  | String "-" body => option_map (fun n => (- Z.of_N n)%Z) (int_digits false 0%N body)
  | String "+" body => option_map Z.of_N (int_digits false 0%N body)
  | body => option_map Z.of_N (int_digits false 0%N body)
  end.

(** ** The two regular expressions of [sort_inner_files]

    Only what [regex1] and [regex2] use: literals compared without
    regard to case, a greedy [.*] (any character but LF) and the one
    capture group [(\d+)].  [re_run] is the backtracking search of
    [re.match]: it tries the longest repetition first and returns the
    text of the group for the first way the whole pattern fits a prefix
    of the subject. *)
Inductive atom : Type :=
| AnyStar
| Lit (c : ascii)
| Digits.

Definition regex : Type := list atom.

Fixpoint re_run (p : regex) (group : string) (s : string) {struct p} : option string :=
  match p with
  | [] => Some group
  | Lit c :: p' =>
      match s with
      | String d s' =>
          if Ascii.eqb (lower_char d) (lower_char c) then re_run p' group s' else None
      | EmptyString => None
      end
  | AnyStar :: p' =>
      (fix star (s : string) : option string :=
         match s with
         | String d s' =>
             if Ascii.eqb d LF then re_run p' group s
             else match star s' with
                  | Some g => Some g
                  | None => re_run p' group s
                  end
         | EmptyString => re_run p' group s
         end) s
  | Digits :: p' =>
      (fix more (taken : string) (s : string) : option string :=
         match s with
         | String d s' =>
             if is_digit d then
               let taken' := taken +++ String d EmptyString in
               match more taken' s' with
               | Some g => Some g
               | None => re_run p' taken' s'
               end
             else None
         | EmptyString => None
         end) EmptyString s
  end.

Definition re_match (p : regex) (s : string) : option string :=
  re_run p EmptyString s.

Definition lits (s : string) : regex := map Lit (list_ascii_of_string s).

(** [r'.*\.part(\d+)\.rar'] and [r'.*\.r(\d+)'], both [re.IGNORECASE] *)
Definition regex1 : regex := AnyStar :: lits ".part" ++ Digits :: lits ".rar".
Definition regex2 : regex := AnyStar :: lits ".r" ++ [Digits].

(** [regex1.match(cur_name) or regex2.match(cur_name)], then
    [int(match.group(1))] *)
Definition rar_number (cur_name : string) : option N :=
  match re_match regex1 cur_name with
  | Some g => Some (digits_value 0%N g)
  | None =>
      match re_match regex2 cur_name with
      | Some g => Some (digits_value 0%N g)
      | None => None
      end
  end.

(** ** The surroundings of one invocation *)

(** What a launch of [unrar l -p- -c- path] gives back to
    [contains_password]: an exception anywhere in the [try] block (the
    executable cannot be started, the output does not decode), or the two
    captured texts.  The exit status is part of the answer although the
    script never reads [proc.returncode]. *)
Inductive probe_result : Type :=
| ProbeRaised (e : string)
| ProbeOutput (out err : string) (returncode : Z).

(** The bytes of an answer to NZBGet's JSON-RPC, as [ensure_str] reads
    them: [bytes.decode('utf-8', 'strict')] gives their text, or raises
    [UnicodeDecodeError] when they are no UTF-8. *)
Inductive decoded : Type :=
| Text (content : string)
| Undecodable.

Record host : Type := {
  environ : string -> option string;
  (** [os.path.exists] outside the temp folder *)
  path_exists : string -> bool;
  (** [os.listdir] of a job directory; [None] is [OSError] *)
  listdir : string -> option (list string);
  unrar_list : string -> probe_result;
  (** [response.content] of an answer to [requests.get]; [None] when
      the request raises [RequestException] or the answer is not [ok] *)
  jsonrpc : string -> option decoded;
  (** [nzbget.editqueue(command, 0, '', ids)]; [Some e] when it raises *)
  editqueue : string -> list Z -> option string
}.

(** The order in which Python enumerates a set is not fixed by the
    language: the model takes it as given, knowing only that nothing is
    lost or added. *)
Record set_order : Type := {
  list_of_set : list string -> list string;
  list_of_set_perm : forall l, Permutation l (list_of_set l)
}.

Definition listing_order : set_order :=
  {| list_of_set := fun l => l; list_of_set_perm := @Permutation_refl string |}.

Inductive event : Type :=
| Print (line : string)
| Probe (path : string)
| HostGet (url_command : string)
| EditQueue (command : string) (ids : list Z)
| Remove (temp_file : string).

(** [store] is the folder [NZBOP_TEMPDIR/PasswordDetector]: [None] while
    it does not exist, else its files by name (a job id, taken to be a
    plain file name) with their contents, in [os.listdir] order.  The
    folder can always be made and written to, and [os.remove] fails only
    for a file that is not there. *)
Record world : Type := {
  store : option (list (string * string));
  trace : list event
}.

Inductive outcome (A : Type) : Type :=
| Done (a : A)
| Exit (code : Z)
| Raise (e : string).

Arguments Done {A} a.
Arguments Exit {A} code.
Arguments Raise {A} e.

Definition script (A : Type) : Type := world -> outcome A * world.

Definition ret {A} (a : A) : script A := fun w => (Done a, w).

Definition bind {A B} (m : script A) (k : A -> script B) : script B :=
  fun w =>
    match m w with
    | (Done a, w') => k a w'
    | (Exit c, w') => (Exit c, w')
    | (Raise e, w') => (Raise e, w')
    end.

Notation "x <- m ;; k" := (bind m (fun x => k))
  (at level 61, m at next level, right associativity).
Notation "m ;;; k" := (bind m (fun _ => k))
  (at level 61, right associativity).

Definition sys_exit {A} (code : Z) : script A := fun w => (Exit code, w).
Definition raise {A} (e : string) : script A := fun w => (Raise e, w).

Definition emit (e : event) : script unit :=
  fun w => (Done tt, {| store := store w; trace := trace w ++ [e] |}).

Definition print (line : string) : script unit := emit (Print line).

Definition get_store : script (option (list (string * string))) :=
  fun w => (Done (store w), w).

Definition set_store (s : option (list (string * string))) : script unit :=
  fun w => (Done tt, {| store := s; trace := trace w |}).

Definition when (b : bool) (m : script unit) : script unit :=
  if b then m else ret tt.

(** [os.environ[key]] *)
Definition env_item (h : host) (key : string) : script string :=
  match environ h key with
  | Some v => ret v
  | None => raise ("KeyError: " +++ key)
  end.

(** ['KEY' in os.environ] and [os.environ.get(key) == value] *)
Definition env_has (h : host) (key : string) : bool :=
  match environ h key with Some _ => true | None => false end.

Definition env_is (h : host) (key value : string) : bool :=
  match environ h key with Some v => String.eqb v value | None => false end.

(** [os.environ.get(key) + suffix] *)
Definition env_plus (h : host) (key suffix : string) : script string :=
  match environ h key with
  | Some v => ret (v +++ suffix)
  | None => raise "TypeError"
  end.

(** Exit codes used by NZBGet *)
Definition POSTPROCESS_SUCCESS : Z := 93.
Definition POSTPROCESS_NONE : Z := 95.
Definition POSTPROCESS_ERROR : Z := 94.

Definition PasswordStrings : string :=
  "*,wrong password,The specified password is incorrect,encrypted headers,Incorrect password for".

(** ** [check_passwordstrings] *)

(** The loop over the entries of the list. *)
Fixpoint any_marker (entries : list string) (outtext errtext : string) : bool :=
  match entries with
  | [] => false
  | m_string :: rest =>
      let m_string := lower (strip m_string) in
      if negb (String.eqb m_string EmptyString) then
        if contains m_string (lower outtext) then true
        else if contains m_string (lower errtext) then true
        else any_marker rest outtext errtext
      else any_marker rest outtext errtext
  end.

(** [check_passwordstrings] with the list it reads from the global
    [PasswordStrings] as a parameter ([verbose] is [False]: nothing is
    printed). *)
Definition check_passwordstrings_of (markers outtext errtext : string) : bool :=
  let PasswordString := split "," markers in
  if list_eqb PasswordString [] || list_eqb PasswordString [EmptyString]
  then false
  else any_marker PasswordString outtext errtext.

Definition check_passwordstrings : string -> string -> bool :=
  check_passwordstrings_of PasswordStrings.

(** ** The temp file of tested names *)

Definition NL : string := String LF EmptyString.

(** [tmp_file_name] is [folder/name]; [name] is the key of the file in
    [store]. *)
Record tmp_file : Type := { folder : string; name : string }.

Definition tmp_file_name (t : tmp_file) : string := folder t +++ "/" +++ name t.

Fixpoint lookup (n : string) (files : list (string * string)) : option string :=
  match files with
  | [] => None
  | (k, content) :: rest => if String.eqb k n then Some content else lookup n rest
  end.

(** [open(.., "w").write(content)]: replaces the file or adds it. *)
Fixpoint write_file (n content : string) (files : list (string * string))
  : list (string * string) :=
  match files with
  | [] => [(n, content)]
  | (k, c) :: rest =>
      if String.eqb k n then (k, content) :: rest
      else (k, c) :: write_file n content rest
  end.

Fixpoint remove_file (n : string) (files : list (string * string))
  : list (string * string) :=
  match files with
  | [] => []
  | (k, c) :: rest =>
      if String.eqb k n then rest else (k, c) :: remove_file n rest
  end.

(** [set(files) - set(tested)], before Python picks an order for it *)
Definition set_minus (files tested : list string) : list string :=
  filter (fun f => negb (mem f tested)) (nodup string_dec files).

Section Invocation.

Variable order : set_order.
Variable h : host.

(** The [except] branch of [get_latest_file] *)
Definition create_tmp_file (t : tmp_file) (dir_name : string) : script (list string) :=
  st <- get_store ;;
  match st with
  | None =>
      set_store (Some []) ;;;
      print ("[DETAIL] Created folder " +++ folder t)
  | Some _ => ret tt
  end ;;;
  st <- get_store ;;
  set_store (option_map (write_file (name t) EmptyString) st) ;;;
  print ("[DETAIL] Created temp file " +++ tmp_file_name t) ;;;
  match listdir h dir_name with
  | Some files => ret files
  | None => raise "OSError"
  end.

Definition get_latest_file (t : tmp_file) (dir_name : string) : script (list string) :=
  st <- get_store ;;
  match st with
  | Some entries =>
      match lookup (name t) entries with
      | Some content =>
          let tested := splitlines content in
          match listdir h dir_name with
          | Some files => ret (list_of_set order (set_minus files tested))
          | None => create_tmp_file t dir_name
          end
      | None => create_tmp_file t dir_name
      end
  | None => create_tmp_file t dir_name
  end.

(** [open(tmp_file_name, "a")] creates a missing file but not a missing
    folder. *)
Definition save_tested (t : tmp_file) (data : string) : script unit :=
  st <- get_store ;;
  match st with
  | Some entries =>
      let old := match lookup (name t) entries with
                 | Some content => content
                 | None => EmptyString
                 end in
      set_store (Some (write_file (name t) (old +++ data) entries))
  | None => raise "IOError"
  end.

(** ** [contains_password] *)

(** The [for] loop with what follows it; [true] is Python's [True] and
    [false] the [None] of a function that ends without [return]. *)
Fixpoint scan_files (t : tmp_file) (dir_name : string) (files : list string)
  (tested : string) : script bool :=
  match files with
  | [] => save_tested t tested ;;; ret false
  | file :: rest =>
      if negb (contains "tmp" file) then
        emit (Probe (dir_name +++ "/" +++ file)) ;;;
        match unrar_list h (dir_name +++ "/" +++ file) with
        | ProbeOutput out err _ =>
            if check_passwordstrings out err then ret true
            else scan_files t dir_name rest (tested +++ file +++ NL)
        | ProbeRaised e =>
            print ("[ERROR] Failed " +++ file +++ ": " +++ e) ;;;
            scan_files t dir_name rest (tested +++ file +++ NL)
        end
      else scan_files t dir_name rest (tested +++ file +++ NL)
  end.

Definition contains_password (t : tmp_file) (dir_name : string) : script bool :=
  files <- get_latest_file t dir_name ;;
  scan_files t dir_name files EmptyString.

(** ** Talking to NZBGet *)

Definition connection_info : script unit :=
  env_item h "NZBOP_CONTROLIP" ;;;
  env_item h "NZBOP_CONTROLPORT" ;;;
  env_item h "NZBOP_CONTROLUSERNAME" ;;;
  env_item h "NZBOP_CONTROLPASSWORD" ;;;
  ret tt.

(** [ensure_str] on the [bytes] of an answer (the script runs under
    Python 3): the strict decoding, with its error. *)
Definition ensure_str (s : decoded) : script string :=
  match s with
  | Text content => ret content
  | Undecodable => raise "UnicodeDecodeError"
  end.

Definition call_nzbget_direct (url_command : string) : script string :=
  connection_info ;;;
  emit (HostGet url_command) ;;;
  match jsonrpc h url_command with
  | Some content => ensure_str content
  | None => ret EmptyString
  end.

Definition nzbget_editqueue (command : string) (ids : list Z) : script unit :=
  emit (EditQueue command ids) ;;;
  match editqueue h command ids with
  | None => ret tt
  | Some e => raise e
  end.

Definition value_or_raise {A} (v : option A) : script A :=
  match v with
  | Some a => ret a
  | None => raise "ValueError"
  end.

Definition py_int (s : string) : script Z := value_or_raise (int_of_str s).

Definition pause_nzb (NZBID : string) : script unit :=
  connection_info ;;;
  id <- py_int NZBID ;;
  nzbget_editqueue "GroupPause" [id].

(** ** [sort_inner_files] *)

Definition DQ : string := String (ascii_of_N 34) EmptyString.

(** The two kinds of line the loop reacts to, with the text it cuts
    out of them. *)
Inductive listing_line : Type :=
| LineID (id : Z)
| LineFilename (cur_name : string)
| LineOther.

(** A line that starts with the quoted key ID, a space, a colon and a
    space gives [int(line[7:len(line)-1])]; one that starts with the
    quoted key Filename, the same separator and a quote gives
    [line[14:len(line)-2]].  [None] stands for the [ValueError] of
    [int]. *)
Definition scan_line (line : string) : option listing_line :=
  if startswith line (DQ +++ "ID" +++ DQ +++ " : ") then
    option_map LineID (int_of_str (drop_last 1 (drop 7 line)))
  else if startswith line (DQ +++ "Filename" +++ DQ +++ " : " +++ DQ) then
    Some (LineFilename (drop_last 2 (drop 14 line)))
  else Some LineOther.

(** The local variables of the loop; [cur_id] is unbound until the first
    ID line. *)
Record rar_state : Type := {
  cur_id : option Z;
  file_num : option N;
  file_id : option Z;
  file_name : option string
}.

Definition rar_init : rar_state :=
  {| cur_id := None; file_num := None; file_id := None; file_name := None |}.

(** [not file_num or cur_num > file_num]: [None] and [0] are both false
    in a condition. *)
Definition takes_over (file_num : option N) (cur_num : N) : bool :=
  match file_num with
  | None => true
  | Some n => (n =? 0)%N || (n <? cur_num)%N
  end.

(** One turn of the loop on a line already cut; [None] stands for the
    [UnboundLocalError] of reading [cur_id] before any ID line. *)
Definition rar_step (st : rar_state) (l : listing_line) : option rar_state :=
  match l with
  | LineID id =>
      Some {| cur_id := Some id; file_num := file_num st;
              file_id := file_id st; file_name := file_name st |}
  | LineFilename cur_name =>
      match rar_number cur_name with
      | Some cur_num =>
          if takes_over (file_num st) cur_num then
            match cur_id st with
            | Some id =>
                Some {| cur_id := cur_id st; file_num := Some cur_num;
                        file_id := Some id; file_name := Some cur_name |}
            | None => None
            end
          else Some st
      | None => Some st
      end
  | LineOther => Some st
  end.

Fixpoint rar_loop (st : rar_state) (lines : list string) : script rar_state :=
  match lines with
  | [] => ret st
  | line :: rest =>
      l <- value_or_raise (scan_line line) ;;
      st' <- match rar_step st l with
             | Some st' => ret st'
             | None => raise "UnboundLocalError"
             end ;;
      rar_loop st' rest
  end.

(** [if file_id:] is false for [None] and for [0]. *)
Definition chosen (st : rar_state) : option Z :=
  match file_id st with
  | Some id => if (id =? 0)%Z then None else Some id
  | None => None
  end.

Definition sort_inner_files : script unit :=
  nzb_id <- match environ h "NZBNA_NZBID" with
            | Some v => py_int v
            | None => raise "TypeError"
            end ;;
  data <- call_nzbget_direct ("listfiles?1=0&2=0&3=" +++ str_of_int nzb_id) ;;
  st <- rar_loop rar_init (splitlines data) ;;
  match chosen st with
  | Some id =>
      print ("[INFO] Moving last rar-file to the top: "
             +++ match file_name st with Some n => n | None => "None" end) ;;;
      connection_info ;;;
      nzbget_editqueue "FileMoveTop" [id]
  | None =>
      print "[INFO] Skipping sorting since could not find any rar-files"
  end.

(** ** [clean_up] *)

(** The ids of the lines that start with the quoted key NZBID, each
    through [int] and back through [str]; [None] stands for
    [ValueError]. *)
Fixpoint active_ids (lines : list string) : option (list string) :=
  match lines with
  | [] => Some []
  | line :: rest =>
      if startswith line (DQ +++ "NZBID" +++ DQ +++ " : ") then
        match int_of_str (drop_last 1 (drop 10 line)) with
        | Some cur_id => option_map (cons (str_of_int cur_id)) (active_ids rest)
        | None => None
        end
      else active_ids rest
  end.

Fixpoint remove_all (temp_folder : string) (old_temp_files : list string) : script unit :=
  match old_temp_files with
  | [] => ret tt
  | temp_id :: rest =>
      let temp_file := temp_folder +++ "/" +++ temp_id in
      print ("[DETAIL] Removing temp file " +++ temp_file) ;;;
      st <- get_store ;;
      match st with
      | Some entries =>
          if mem temp_id (map fst entries) then
            emit (Remove temp_file) ;;;
            set_store (Some (remove_file temp_id entries))
          else print ("[ERROR] Could not remove temp file " +++ temp_file)
      | None => print ("[ERROR] Could not remove temp file " +++ temp_file)
      end ;;;
      remove_all temp_folder rest
  end.

(** [nzb_id in l] where [nzb_id] may be [None] *)
Definition opt_mem (x : option string) (l : list string) : bool :=
  match x with Some v => mem v l | None => false end.

(** The list the removal loop goes through: the files that are not
    among the ids NZBGet gave, then the file of the current job if it
    is there and not yet in the list. *)
Definition old_temp_files (nzb_id : option string) (files nzbids : list string)
  : list string :=
  let old_temp_files := list_of_set order (set_minus files nzbids) in
  if opt_mem nzb_id files && negb (opt_mem nzb_id old_temp_files)
  then old_temp_files ++ match nzb_id with Some v => [v] | None => [] end
  else old_temp_files.

Definition clean_up : script unit :=
  let nzb_id := environ h "NZBPP_NZBID" in
  temp_folder <- env_plus h "NZBOP_TEMPDIR" "/PasswordDetector" ;;
  st <- get_store ;;
  match st with
  | Some entries =>
      let files := map fst entries in
      nzbids <- (if (1 <? List.length files)%nat then
                   data <- call_nzbget_direct "listgroups?1=0" ;;
                   value_or_raise (active_ids (splitlines data))
                 else ret []) ;;
      remove_all temp_folder (old_temp_files nzb_id files nzbids)
  | None => ret tt
  end.

(** ** [start_check] *)

Definition flag : string := "NZBPR_PASSWORDDETECTOR_HASPASSWORD".

Definition known_event : bool :=
  match environ h "NZBNA_EVENT" with
  | Some e => mem e ["NZB_ADDED"; "FILE_DOWNLOADED"; "NZB_DOWNLOADED"]
  | None => true
  end.

Definition directory_missing : bool :=
  match environ h "NZBPP_DIRECTORY" with
  | Some d => negb (path_exists h d)
  | None => false
  end.

Definition start_check : script unit :=
  (if negb (env_has h "NZBNA_EVENT" || env_has h "NZBPP_DIRECTORY")
      || negb (env_has h "NZBOP_ARTICLECACHE")
   then
     print "*** NZBGet queue script ***" ;;;
     print "This script is supposed to be called from nzbget (14.0 or later)." ;;;
     sys_exit 1%Z
   else ret tt) ;;;
  (if negb known_event then sys_exit 0%Z else ret tt) ;;;
  (if env_is h "NZBPP_STATUS" "FAILURE/BAD" then
     when (env_is h flag "yes") (print "[WARNING] Download is password protected") ;;;
     clean_up ;;;
     sys_exit POSTPROCESS_SUCCESS
   else ret tt) ;;;
  (if env_is h flag "yes" then
     print "[DETAIL] Password previously found, skipping detection" ;;;
     when (env_has h "NZBPP_DIRECTORY") clean_up ;;;
     sys_exit POSTPROCESS_SUCCESS
   else ret tt) ;;;
  (if env_has h "NZBPR_*Unpack:Password" then
     print "[DETAIL] Password previously defined, skipping detection" ;;;
     when (env_has h "NZBPP_DIRECTORY") clean_up ;;;
     sys_exit POSTPROCESS_SUCCESS
   else ret tt) ;;;
  (if directory_missing then
     print "Destination directory doesn't exist, exiting" ;;;
     clean_up ;;;
     sys_exit POSTPROCESS_NONE
   else ret tt) ;;;
  (if env_is h "NZBPP_TOTALSTATUS" "FAILURE" then
     clean_up ;;;
     sys_exit POSTPROCESS_NONE
   else ret tt) ;;;
  (if negb (env_has h "NZBPO_PASSACTION") then
     print "[ERROR] Option PASSACTION is missing in configuration file. Please check script settings" ;;;
     sys_exit POSTPROCESS_ERROR
   else ret tt).

(** ** [main] *)

(** What follows a positive answer of [contains_password] *)
Definition password_found (Prefix NzbName : string) : script unit :=
  print ("[WARNING] Password found in " +++ NzbName) ;;;
  print "[NZB] NZBPR_PASSWORDDETECTOR_HASPASSWORD=yes" ;;;
  action <- env_item h "NZBPO_PASSACTION" ;;
  (if String.eqb action "Pause" then
     match environ h (Prefix +++ "NZBID") with
     | Some id => pause_nzb id
     | None => raise "TypeError"
     end ;;;
     print ("[DETAIL] Paused " +++ NzbName)
   else ret tt) ;;;
  action <- env_item h "NZBPO_PASSACTION" ;;
  (if String.eqb action "Mark Bad" then
     print "[NZB] MARK=BAD" ;;;
     print ("[DETAIL] Marked bad " +++ NzbName)
   else ret tt).

Definition main : script unit :=
  start_check ;;;
  let Prefix := if env_has h "NZBNA_EVENT" then "NZBNA_" else "NZBPP_" in
  env_item h (Prefix +++ "CATEGORY") ;;;
  Directory <- env_item h (Prefix +++ "DIRECTORY") ;;
  NzbName <- env_item h (Prefix +++ "NZBNAME") ;;
  temp_folder <- env_plus h "NZBOP_TEMPDIR" "/PasswordDetector" ;;
  nzbid <- match environ h (Prefix +++ "NZBID") with
           | Some id => ret id
           | None => raise "TypeError"
           end ;;
  let t := {| folder := temp_folder; name := nzbid |} in
  (if env_is h "NZBNA_EVENT" "NZB_ADDED"
      || (env_is h "NZBNA_EVENT" "FILE_DOWNLOADED"
          && negb (env_is h "NZBPR_FAKEDETECTOR_SORTED" "yes"))
   then
     (if negb (env_is h "NZBPR_FAKEDETECTOR_SORTED" "yes") then
        print ("[INFO] Sorting inner files for earlier fake detection for " +++ NzbName) ;;;
        sort_inner_files ;;;
        print "[NZB] NZBPR_FAKEDETECTOR_SORTED=yes"
      else ret tt) ;;;
     (if env_is h "NZBNA_EVENT" "NZB_ADDED" then sys_exit POSTPROCESS_NONE else ret tt)
   else ret tt) ;;;
  print ("[DETAIL] Detecting password for " +++ NzbName) ;;;
  found <- contains_password t Directory ;;
  (if found then password_found Prefix NzbName
   else when (env_is h flag "yes") (print "[NZB] NZBPR_PASSWORDDETECTOR_HASPASSWORD=")) ;;;
  print ("[DETAIL] Detecting completed for " +++ NzbName) ;;;
  when (String.eqb Prefix "NZBPP_") clean_up.

(** The script: [main()] and the final [sys.exit]. *)
Definition run : script unit :=
  main ;;; sys_exit POSTPROCESS_SUCCESS.

End Invocation.

(** * Vocabulary of the statements *)

(** [m] occurs in [text] when case is ignored: some stretch of [text]
    is [m] up to the case of its letters. *)
Definition occurs_nocase (m text : string) : Prop :=
  exists pre mid post, text = pre +++ mid +++ post /\ lower mid = lower m.

(** The loop of [sort_inner_files] on lines already cut, and on a
    listing given as (fileId, filename) pairs: each pair is an ID line
    followed by a Filename line. *)
Fixpoint rar_lines (st : rar_state) (ls : list listing_line) : option rar_state :=
  match ls with
  | [] => Some st
  | l :: rest =>
      match rar_step st l with
      | Some st' => rar_lines st' rest
      | None => None
      end
  end.

Definition lines_of (listing : list (Z * string)) : list listing_line :=
  flat_map (fun p => [LineID (fst p); LineFilename (snd p)]) listing.

Definition select_top_part (listing : list (Z * string)) : option Z :=
  match rar_lines rar_init (lines_of listing) with
  | Some st => chosen st
  | None => None
  end.

(** One (fileId, filename) pair is an ID line and a Filename line. *)
Definition pair_step (st : rar_state) (id : Z) (cur_name : string) : rar_state :=
  match rar_number cur_name with
  | Some cur_num =>
      if takes_over (file_num st) cur_num
      then {| cur_id := Some id; file_num := Some cur_num;
              file_id := Some id; file_name := Some cur_name |}
      else {| cur_id := Some id; file_num := file_num st;
              file_id := file_id st; file_name := file_name st |}
  | None => {| cur_id := Some id; file_num := file_num st;
               file_id := file_id st; file_name := file_name st |}
  end.

(** The number kept so far is under [n], if there is one. *)
Definition below (n : N) (file_num : option N) : Prop :=
  match file_num with None => True | Some k => (k < n)%N end.

(** The text NZBGet sends for such a listing, reduced to the two lines
    per file that the loop reads. *)
Definition listing_text (listing : list (Z * string)) : string :=
  String.concat EmptyString
    (map (fun p => DQ +++ "ID" +++ DQ +++ " : " +++ str_of_int (fst p) +++ "," +++ NL
                   +++ DQ +++ "Filename" +++ DQ +++ " : " +++ DQ +++ snd p +++ DQ +++ "," +++ NL)
         listing).

(** What [contains_password] hands to [save_tested] for the names it
    went through: each name followed by a line feed. *)
Fixpoint tested_data (files : list string) : string :=
  match files with
  | [] => EmptyString
  | file :: rest => file +++ NL +++ tested_data rest
  end.

(** The content of the job's temp file, if there is one. *)
Definition record_of (t : tmp_file) (w : world) : option string :=
  match store w with
  | Some entries => lookup (name t) entries
  | None => None
  end.

Definition record_text (record : option string) : string :=
  match record with Some content => content | None => EmptyString end.

(** The names of the files in the temp folder. *)
Definition stored (w : world) : list string :=
  match store w with Some entries => map fst entries | None => [] end.

(** The list [get_latest_file] answers for a directory listing and the
    record it finds. *)
Definition untested (order : set_order) (listing : list string)
  (record : option string) : list string :=
  match record with
  | Some content => list_of_set order (set_minus listing (splitlines content))
  | None => listing
  end.

Definition path_of (dir_name file : string) : string := dir_name +++ "/" +++ file.

Definition not_tmp (file : string) : bool := negb (contains "tmp" file).

(** The answer of the loop body of [contains_password] for one file:
    [true] when it makes the function return [True]. *)
Definition probe_positive (h : host) (dir_name file : string) : bool :=
  not_tmp file &&
  match unrar_list h (path_of dir_name file) with
  | ProbeOutput out err _ => check_passwordstrings out err
  | ProbeRaised _ => false
  end.

(** Readings of a trace *)
Fixpoint probes_of (tr : list event) : list string :=
  match tr with
  | [] => []
  | Probe path :: rest => path :: probes_of rest
  | _ :: rest => probes_of rest
  end.

Fixpoint host_gets (tr : list event) : nat :=
  match tr with
  | [] => 0
  | HostGet _ :: rest => S (host_gets rest)
  | _ :: rest => host_gets rest
  end.

Definition clears_flag (e : event) : bool :=
  match e with
  | Print line => String.eqb line "[NZB] NZBPR_PASSWORDDETECTOR_HASPASSWORD="
  | _ => false
  end.

Definition is_probe (e : event) : bool :=
  match e with Probe _ => true | _ => false end.

(** The world after more events *)
Definition logged (w : world) (evs : list event) : world :=
  {| store := store w; trace := trace w ++ evs |}.

(** A new process: the temp folder is as the last one left it, nothing
    else is carried over. *)
Definition restart (w : world) : world := {| store := store w; trace := [] |}.

Fixpoint has_linebreak (s : string) : bool :=
  match s with
  | EmptyString => false
  | String c s' => is_linebreak c || has_linebreak s'
  end.

(** A record as the script leaves it: empty, or ending in a line feed. *)
Definition record_closed (content : string) : Prop :=
  content = EmptyString \/ exists body, content = body +++ NL.

(** The four settings [call_nzbget_direct] and [connect_to_nzbget] read *)
Definition connection_known (h : host) : bool :=
  env_has h "NZBOP_CONTROLIP" && env_has h "NZBOP_CONTROLPORT"
  && env_has h "NZBOP_CONTROLUSERNAME" && env_has h "NZBOP_CONTROLPASSWORD".

(** The text [call_nzbget_direct] makes of an answer: the decoded body,
    the empty text when the request failed, none when the body does not
    decode. *)
Definition answer_text (answer : option decoded) : option string :=
  match answer with
  | Some (Text content) => Some content
  | Some Undecodable => None
  | None => Some EmptyString
  end.

(** The text [clean_up] gets for its question about the jobs *)
Definition listgroups_text (h : host) : option string :=
  answer_text (jsonrpc h "listgroups?1=0").


(** What [remove_all] emits when every removal succeeds *)
Definition removal_events (temp_folder : string) (old_temp_files : list string) : list event :=
  flat_map (fun temp_id =>
              [Print ("[DETAIL] Removing temp file " +++ temp_folder +++ "/" +++ temp_id);
               Remove (temp_folder +++ "/" +++ temp_id)])
           old_temp_files.

(** The text NZBGet answers to listgroups for jobs with these ids,
    reduced to the line per job that [clean_up] reads. *)
Definition groups_text (ids : list Z) : string :=
  String.concat EmptyString
    (map (fun id => DQ +++ "NZBID" +++ DQ +++ " : " +++ str_of_int id +++ "," +++ NL) ids).

(** Two readings of a script: every event it adds satisfies [P], and
    it never ends with a value (it exits or raises). *)
Definition emits {A} (P : event -> bool) (m : script A) : Prop :=
  forall w, exists evs, trace (snd (m w)) = trace w ++ evs /\ forallb P evs = true.

Definition stops {A} (m : script A) : Prop :=
  forall w, match fst (m w) with Done _ => False | _ => True end.

(** Neither a launch of unrar nor the line that takes the mark back *)
Definition no_detection (e : event) : bool := negb (is_probe e) && negb (clears_flag e).

(** ** Concrete invocations, used to try the statements *)

Module Scenario.

Definition env_of (settings : list (string * string)) (key : string) : option string :=
  lookup key settings.

(** A queue-script call on a downloaded file, inner files already
    sorted. *)
Definition queue_settings : list (string * string) :=
  [("NZBNA_EVENT", "FILE_DOWNLOADED"); ("NZBOP_ARTICLECACHE", "0");
   ("NZBPO_PASSACTION", "Pause"); ("NZBPR_FAKEDETECTOR_SORTED", "yes");
   ("NZBNA_CATEGORY", "tv"); ("NZBNA_DIRECTORY", "/d");
   ("NZBNA_NZBNAME", "job"); ("NZBOP_TEMPDIR", "/tmp"); ("NZBNA_NZBID", "7");
   ("NZBOP_CONTROLIP", "127.0.0.1"); ("NZBOP_CONTROLPORT", "6789");
   ("NZBOP_CONTROLUSERNAME", "nzbget"); ("NZBOP_CONTROLPASSWORD", "secret")].

Definition the_tmp_file : tmp_file :=
  {| folder := "/tmp/PasswordDetector"; name := "7" |}.

Definition fresh : world := {| store := None; trace := [] |}.

(** The job directory holds [files]; unrar answers [answer] for a path. *)
Definition a_host (settings : list (string * string)) (files : list string)
  (answer : string -> probe_result) (groups : option string) : host :=
  {| environ := env_of settings;
     path_exists := fun _ => true;
     listdir := fun d => if String.eqb d "/d" then Some files else None;
     unrar_list := answer;
     jsonrpc := fun _ => option_map Text groups;
     editqueue := fun _ _ => None |}.

(** Two volumes, the first one asks for a password. *)
Definition first_locked : host :=
  a_host queue_settings ["a.part01.rar"; "a.part02.rar"]
    (fun path => if String.eqb path "/d/a.part01.rar"
                 then ProbeOutput EmptyString "The specified password is incorrect." 3
                 else ProbeOutput "All OK" EmptyString 0)
    None.

(** A leftover temp file ahead of a locked archive. *)
Definition tmp_then_locked : host :=
  a_host queue_settings ["x.tmp"; "a.rar"]
    (fun path => ProbeOutput EmptyString "encrypted headers" 3)
    None.


(** unrar cannot be started for the first of two files. *)
Definition tool_missing_once : host :=
  a_host queue_settings ["a.rar"; "b.rar"]
    (fun path => if String.eqb path "/d/a.rar"
                 then ProbeRaised "[Errno 2] No such file or directory"
                 else ProbeOutput "All OK" EmptyString 0)
    None.

(** The job carries the mark of an earlier run; all its files are
    clean now. *)
Definition marked_but_clean : host :=
  a_host (("NZBPR_PASSWORDDETECTOR_HASPASSWORD", "yes") :: queue_settings)
    ["a.part01.rar"; "a.part02.rar"]
    (fun path => ProbeOutput "All OK" EmptyString 0)
    None.

(** A queue-script call for a job of two archives that each have one
    volume numbered 00; NZBGet lists them with ids 1 and 2. *)
Definition two_r00 : host :=
  a_host queue_settings []
    (fun path => ProbeOutput "All OK" EmptyString 0)
    (Some (listing_text [(1%Z, "a.r00"); (2%Z, "b.r00")])).

(** A post-processing call for job [current]; the temp folder holds
    records for jobs 1 to 4 and NZBGet knows jobs 1 and 2. *)
Definition pp_settings (current : string) : list (string * string) :=
  [("NZBPP_DIRECTORY", "/d"); ("NZBOP_ARTICLECACHE", "0");
   ("NZBPO_PASSACTION", "Pause"); ("NZBPP_CATEGORY", "tv");
   ("NZBPP_NZBNAME", "job"); ("NZBOP_TEMPDIR", "/tmp"); ("NZBPP_NZBID", current);
   ("NZBOP_CONTROLIP", "127.0.0.1"); ("NZBOP_CONTROLPORT", "6789");
   ("NZBOP_CONTROLUSERNAME", "nzbget"); ("NZBOP_CONTROLPASSWORD", "secret")].

Definition two_active (current : string) : host :=
  a_host (pp_settings current) [] (fun path => ProbeOutput "All OK" EmptyString 0)
    (Some (groups_text [1%Z; 2%Z])).

Definition four_records : list (string * string) :=
  [("1", "a.rar" +++ NL); ("2", EmptyString); ("3", "b.rar" +++ NL); ("4", EmptyString)].

Definition four_stored : world := {| store := Some four_records; trace := [] |}.

(** A directory with one file whose name holds a line feed, and the
    temp folder already made. *)
Definition two_line_name : string := "a" +++ NL +++ "b.rar".

Definition odd_directory : host :=
  a_host queue_settings [two_line_name]
    (fun path => ProbeOutput "All OK" EmptyString 0) None.

Definition empty_folder : world := {| store := Some []; trace := [] |}.

(** NZBGet answers with bytes that are no UTF-8. *)
Definition garbled_answer : host :=
  {| environ := env_of (pp_settings "1");
     path_exists := fun _ => true;
     listdir := fun _ => Some [];
     unrar_list := fun _ => ProbeOutput "All OK" EmptyString 0;
     jsonrpc := fun _ => Some Undecodable;
     editqueue := fun _ _ => None |}.

End Scenario.

(** ** Vocabulary of the further statements *)

Fixpoint no_LF (s : string) : bool :=
  match s with
  | EmptyString => true
  | String c s' => negb (Ascii.eqb c LF) && no_LF s'
  end.

Fixpoint all_digits (s : string) : bool :=
  match s with
  | EmptyString => true
  | String c s' => is_digit c && all_digits s'
  end.

(** What it is for a pattern to fit a prefix of [s], read off the
    pattern and not off the search: [g] is the text of the group
    ([group] when the pattern has none). *)
Fixpoint fits (p : regex) (group : string) (s : string) (g : string) : Prop :=
  match p with
  | [] => g = group
  | Lit c :: p' =>
      exists d s', s = String d s' /\ lower_char d = lower_char c /\ fits p' group s' g
  | AnyStar :: p' =>
      exists pre s', s = pre +++ s' /\ no_LF pre = true /\ fits p' group s' g
  | Digits :: p' =>
      exists ds s', s = ds +++ s' /\ ds <> EmptyString /\ all_digits ds = true
                    /\ fits p' ds s' g
  end.

(** [name] holds, after a stretch without line feed, the text [tag] in
    any case, then the digits [ds], then the text [ext] in any case. *)
Definition holds_volume (tag ext name ds : string) : Prop :=
  exists pre lit lit' post,
    name = pre +++ lit +++ ds +++ lit' +++ post /\
    no_LF pre = true /\ lower lit = tag /\
    ds <> EmptyString /\ all_digits ds = true /\ lower lit' = ext.

(** What the loop of [sort_inner_files] knows after the pairs [seen]:
    nothing while no name matched, else the highest number met and the
    id of a file that carries it. *)
Definition selection_inv (st : rar_state) (seen : list (Z * string)) : Prop :=
  match file_num st, file_id st with
  | None, None => forall p, In p seen -> rar_number (snd p) = None
  | Some n, Some id =>
      (exists cur_name, In (id, cur_name) seen /\ rar_number cur_name = Some n) /\
      (forall p k, In p seen -> rar_number (snd p) = Some k -> (k <= n)%N)
  | _, _ => False
  end.

(** Further readings of a script: it exits, if at all, with the code
    [c]; it leaves the temp folder as it found it. *)
Definition exits_with {A} (c : Z) (m : script A) : Prop :=
  forall w code, fst (m w) = Exit code -> code = c.

Definition keeps_store {A} (m : script A) : Prop :=
  forall w, store (snd (m w)) = store w.

(** The events of the parts of the script, by kind *)
Definition detect_event (e : event) : bool :=
  match e with
  | Probe _ => true
  | Print line =>
      String.prefix "[ERROR] Failed " line || String.prefix "[DETAIL] Created " line
  | _ => false
  end.

Definition sort_event (e : event) : bool :=
  match e with
  | HostGet url_command => String.prefix "listfiles?" url_command
  | Print line => String.prefix "[INFO] " line
  | EditQueue command _ => String.eqb command "FileMoveTop"
  | _ => false
  end.

Definition clean_event (e : event) : bool :=
  match e with
  | HostGet url_command => String.eqb url_command "listgroups?1=0"
  | Print line =>
      String.prefix "[DETAIL] Removing temp file " line
      || String.prefix "[ERROR] Could not remove temp file " line
  | Remove _ => true
  | _ => false
  end.

Definition no_probe (e : event) : bool := negb (is_probe e).

Definition no_clear (e : event) : bool := negb (clears_flag e).

(** The checks of [start_check], in its order. *)
Definition called_from_nzbget (h : host) : bool :=
  (env_has h "NZBNA_EVENT" || env_has h "NZBPP_DIRECTORY")
  && env_has h "NZBOP_ARTICLECACHE".

Definition gates_pass (h : host) : bool :=
  called_from_nzbget h
  && known_event h
  && negb (env_is h "NZBPP_STATUS" "FAILURE/BAD")
  && negb (env_is h flag "yes")
  && negb (env_has h "NZBPR_*Unpack:Password")
  && negb (directory_missing h)
  && negb (env_is h "NZBPP_TOTALSTATUS" "FAILURE")
  && env_has h "NZBPO_PASSACTION".

(** ** [unrar()]: the path of the executable *)

(** [s.endswith(suffix)] *)
Definition endswith (s suffix : string) : bool :=
  (String.length suffix <=? String.length s)%nat
  && String.eqb (drop (String.length s - String.length suffix) s) suffix.

(** What [unrar()] takes from outside the script besides the
    environment: whether [os.name] is [nt], [os.path.isfile], and
    [shlex.split] ([None] for its [ValueError]). *)
Record platform : Type := {
  on_nt : bool;
  isfile : string -> bool;
  shlex_split : string -> option (list string)
}.

Definition exe_name (pf : platform) : string :=
  if on_nt pf then "unrar.exe" else "unrar".

Definition unrar (pf : platform) (h : host) : script string :=
  UnrarCmd <- env_item h "NZBOP_UNRARCMD" ;;
  if isfile pf UnrarCmd && endswith (lower UnrarCmd) (exe_name pf) then ret UnrarCmd
  else
    args <- value_or_raise (shlex_split pf UnrarCmd) ;;
    match find (fun arg => endswith (lower arg) (exe_name pf)) args with
    | Some arg => ret arg
    | None => ret (exe_name pf)
    end.

Definition is_remove (e : event) : bool :=
  match e with Remove _ => true | _ => false end.

Definition no_remove (e : event) : bool := negb (is_remove e).

Definition flag_line : string := "[NZB] NZBPR_PASSWORDDETECTOR_HASPASSWORD=yes".

(** ** Standard output *)

(** What the [print] calls of a run write: each text and a line feed. *)
Fixpoint stdout (evs : list event) : string :=
  match evs with
  | [] => EmptyString
  | Print line :: rest => line +++ NL +++ stdout rest
  | _ :: rest => stdout rest
  end.

(** The lines NZBGet reads from it: the stretches between line feeds
    (and, last, the empty stretch after the final one). *)
Definition stdout_lines (evs : list event) : list string := split LF (stdout evs).

Definition clear_line : string := "[NZB] NZBPR_PASSWORDDETECTOR_HASPASSWORD=".

(** A text printed that is one line; a failed launch whose error text
    is one line. *)
Definition plain (e : event) : bool :=
  match e with Print line => no_LF line | _ => true end.

Definition plain_error (r : probe_result) : bool :=
  match r with ProbeRaised e => no_LF e | ProbeOutput _ _ _ => true end.

(** ** Python's order of a set *)




(** ** The answer of NZBGet to listfiles *)

(** The lines the loop of [sort_inner_files] reads; it passes over all
    others. *)
Definition is_entry_line (l : listing_line) : bool :=
  match l with LineOther => false | _ => true end.

Definition json_field (key value : string) : string :=
  DQ +++ key +++ DQ +++ " : " +++ value +++ "," +++ NL.

(** An answer to listfiles as NZBGet writes it: one object per file, a
    field per line, no comma after the last field of an object and
    after the last object. *)
Definition listfiles_entry (nzb_id : Z) (p : Z * string) : string :=
  "{" +++ NL
  +++ json_field "ID" (str_of_int (fst p))
  +++ json_field "NZBID" (str_of_int nzb_id)
  +++ json_field "Subject" (DQ +++ "[1/2] " +++ snd p +++ " yEnc" +++ DQ)
  +++ json_field "Filename" (DQ +++ snd p +++ DQ)
  +++ json_field "FileSizeLo" "1048576"
  +++ DQ +++ "Paused" +++ DQ +++ " : false" +++ NL.

Definition listfiles_answer (nzb_id : Z) (listing : list (Z * string)) : string :=
  "{" +++ NL
  +++ json_field "version" (DQ +++ "1.1" +++ DQ)
  +++ DQ +++ "result" +++ DQ +++ " : [" +++ NL
  +++ match listing with
      | [] => EmptyString
      | _ => String.concat ("}," +++ NL) (map (listfiles_entry nzb_id) listing)
             +++ "}" +++ NL
      end
  +++ "]" +++ NL
  +++ "}" +++ NL.

(** A queue-script call for a job of three files, the files of the
    specification's example, listed by NZBGet in full. *)
Definition three_listed : host :=
  Scenario.a_host Scenario.queue_settings []
    (fun path => ProbeOutput "All OK" EmptyString 0)
    (Some (listfiles_answer 7
             [(2%Z, "a.part02.rar"); (5%Z, "a.part10.rar"); (9%Z, "a.r1")])).

(** * Properties *)

(** ** Strings *)

Lemma append_nil_r (s : string) : s +++ EmptyString = s.
Proof. induction s as [|c s IH]; simpl; congruence. Qed.

Lemma append_assoc (a b c : string) : (a +++ b) +++ c = a +++ b +++ c.
Proof. induction a as [|x a IH]; simpl; congruence. Qed.

Lemma lower_append (a b : string) : lower (a +++ b) = lower a +++ lower b.
Proof. induction a as [|x a IH]; simpl; congruence. Qed.

Lemma lower_empty (s : string) : lower s = EmptyString <-> s = EmptyString.
Proof. destruct s; simpl; split; congruence. Qed.

(** Splitting the lower-cased text splits the text. *)
Lemma lower_split (text a b : string) :
  lower text = a +++ b ->
  exists a' b', text = a' +++ b' /\ lower a' = a /\ lower b' = b.
Proof.
  revert text; induction a as [|x a IH]; intros text H.
  - exists EmptyString, text; auto.
  - destruct text as [|c text]; simpl in H; [discriminate|].
    injection H as Hc Ht.
    destruct (IH _ Ht) as (a' & b' & -> & Ha & Hb).
    exists (String c a'), b'; simpl; subst; auto.
Qed.

Lemma prefix_iff (pre s : string) :
  String.prefix pre s = true <-> exists post, s = pre +++ post.
Proof.
  revert s; induction pre as [|c pre IH]; intros s; simpl.
  - split; [intros _; exists s; reflexivity | destruct s; reflexivity].
  - destruct s as [|d s].
    + split; [discriminate | intros [post H]; discriminate].
    + simpl. destruct (ascii_dec c d) as [->|Hcd].
      * rewrite IH. split; intros [post H]; exists post; simpl in *; congruence.
      * split; [discriminate | intros [post H]; simpl in H; congruence].
Qed.

Lemma contains_iff (sub s : string) :
  contains sub s = true <-> exists pre post, s = pre +++ sub +++ post.
Proof.
  induction s as [|c s IH]; cbn [contains].
  - rewrite orb_false_r, prefix_iff. split.
    + intros [post H]. exists EmptyString, post; exact H.
    + intros (pre & post & H). destruct pre; [|discriminate].
      exists post; exact H.
  - rewrite orb_true_iff, IH, prefix_iff. split.
    + intros [[post H] | (pre & post & H)].
      * exists EmptyString, post; exact H.
      * exists (String c pre), post; simpl; congruence.
    + intros (pre & post & H). destruct pre as [|d pre].
      * left; exists post; exact H.
      * right; exists pre, post; simpl in H; congruence.
Qed.

Lemma contains_lower_iff (m text : string) :
  contains (lower m) (lower text) = true <-> occurs_nocase m text.
Proof.
  rewrite contains_iff. split.
  - intros (pre & post & H).
    destruct (lower_split _ _ _ H) as (pre' & rest & -> & _ & Hrest).
    destruct (lower_split _ _ _ Hrest) as (mid & post' & -> & Hmid & _).
    exists pre', mid, post'; auto.
  - intros (pre & mid & post & -> & Hmid).
    exists (lower pre), (lower post).
    now rewrite !lower_append, Hmid.
Qed.

(** [split] undoes [String.concat] and its pieces hold no separator. *)
Lemma split_not_nil (sep : ascii) (s : string) : split sep s <> [].
Proof.
  destruct s as [|c s]; simpl; [discriminate|].
  destruct (Ascii.eqb c sep); [discriminate|].
  destruct (split sep s); discriminate.
Qed.

Lemma concat_split (sep : ascii) (s : string) :
  String.concat (String sep EmptyString) (split sep s) = s.
Proof.
  induction s as [|c s IH]; [reflexivity|]. simpl.
  destruct (Ascii.eqb_spec c sep) as [->|Hc].
  - pose proof (split_not_nil sep s) as Hne.
    destruct (split sep s) as [|w ws]; [congruence|].
    change (String.concat (String sep EmptyString) (EmptyString :: w :: ws))
      with (String sep (String.concat (String sep EmptyString) (w :: ws))).
    now rewrite IH.
  - pose proof (split_not_nil sep s) as Hne.
    destruct (split sep s) as [|w ws]; [congruence|].
    destruct ws as [|w' ws]; simpl in *; congruence.
Qed.

(** ** [check_passwordstrings] *)

Lemma any_marker_iff (entries : list string) (outtext errtext : string) :
  any_marker entries outtext errtext = true <->
  exists entry, In entry entries /\ strip entry <> EmptyString /\
    (occurs_nocase (strip entry) outtext \/ occurs_nocase (strip entry) errtext).
Proof.
  induction entries as [|e entries IH]; simpl.
  - split; [discriminate | intros (? & [] & _)].
  - destruct (String.eqb_spec (lower (strip e)) EmptyString) as [He|He]; simpl.
    + rewrite IH. apply (proj1 (lower_empty _)) in He. split.
      * intros (x & Hin & Hx); exists x; auto.
      * intros (x & [<-|Hin] & Hne & Hx); [exfalso; exact (Hne He) | exists x; auto].
    + assert (Hne : strip e <> EmptyString) by (now rewrite <- lower_empty).
      destruct (contains (lower (strip e)) (lower outtext)) eqn:Ho.
      { apply contains_lower_iff in Ho. split; [|reflexivity].
        intros _; exists e; auto. }
      destruct (contains (lower (strip e)) (lower errtext)) eqn:Hr.
      { apply contains_lower_iff in Hr. split; [|reflexivity].
        intros _; exists e; auto. }
      rewrite IH. split.
      * intros (x & Hin & Hx); exists x; auto.
      * intros (x & [<-|Hin] & Hx & Hocc); [|exists x; auto].
        exfalso. destruct Hocc as [H|H]; apply contains_lower_iff in H;
          unfold strip in *; congruence.
Qed.

(** C5.  [check_passwordstrings] answers [True] exactly when some entry
    of the comma-separated list is not empty once stripped and, stripped,
    occurs in the captured output or in the captured error text when case
    is ignored.  So an empty list, or one with only blank entries, gives
    [False] for every text. *)
Theorem check_passwordstrings_iff (markers outtext errtext : string) :
  (check_passwordstrings_of markers outtext errtext = true <->
   exists entry, In entry (split "," markers) /\ strip entry <> EmptyString /\
     (occurs_nocase (strip entry) outtext \/ occurs_nocase (strip entry) errtext))
  /\ check_passwordstrings_of EmptyString outtext errtext = false
  /\ ((forall entry, In entry (split "," markers) -> strip entry = EmptyString) ->
      check_passwordstrings_of markers outtext errtext = false).
Proof.
  assert (Hiff : check_passwordstrings_of markers outtext errtext = true <->
    exists entry, In entry (split "," markers) /\ strip entry <> EmptyString /\
      (occurs_nocase (strip entry) outtext \/ occurs_nocase (strip entry) errtext)).
  { unfold check_passwordstrings_of, list_eqb.
    destruct (list_eq_dec string_dec (split "," markers) []) as [E|_].
    { now apply split_not_nil in E. }
    destruct (list_eq_dec string_dec (split "," markers) [EmptyString]) as [E|_]; simpl.
    - rewrite E. split; [discriminate|].
      intros (x & [<-|[]] & Hne & _). exfalso; now apply Hne.
    - apply any_marker_iff. }
  split; [exact Hiff|]. split; [reflexivity|].
  intros Hblank.
  destruct (check_passwordstrings_of markers outtext errtext) eqn:E; [|reflexivity].
  destruct (proj1 Hiff eq_refl) as (x & Hin & Hne & _).
  now apply Hblank in Hin.
Qed.

(** The default list finds unrar's message whatever its case, and also
    any text with a star in it: the first entry of the list is a star,
    looked for as it is written. *)
Example default_markers_example :
  check_passwordstrings "Checksum error. THE SPECIFIED PASSWORD IS INCORRECT." EmptyString = true
  /\ check_passwordstrings EmptyString "wrong Password ?" = true
  /\ check_passwordstrings "All OK" EmptyString = false
  /\ check_passwordstrings "*** archive ***" EmptyString = true.
Proof. repeat split; reflexivity. Qed.

Lemma check_passwordstrings_iff_witness :
  check_passwordstrings_of " , ," "wrong password" "*" = false.
Proof.
  apply (check_passwordstrings_iff " , ," "wrong password" "*").
  intros entry [<-|[<-|[<-|[]]]]; reflexivity.
Defined.

(** ** The temp folder and the trace *)

Lemma mem_iff (x : string) (l : list string) : mem x l = true <-> In x l.
Proof.
  unfold mem. rewrite existsb_exists. split.
  - intros (y & H & E). apply String.eqb_eq in E. now subst.
  - intros H. exists x. split; [exact H | apply String.eqb_refl].
Qed.

Lemma set_minus_iff (files ids : list string) (f : string) :
  In f (set_minus files ids) <-> In f files /\ ~ In f ids.
Proof.
  unfold set_minus. rewrite filter_In, nodup_In, negb_true_iff.
  rewrite <- (mem_iff f ids). destruct (mem f ids); intuition congruence.
Qed.

Lemma set_minus_NoDup (files ids : list string) : NoDup (set_minus files ids).
Proof.
  unfold set_minus. apply NoDup_filter. apply NoDup_nodup.
Qed.

Lemma lookup_write_file (n content : string) (entries : list (string * string)) :
  lookup n (write_file n content entries) = Some content.
Proof.
  induction entries as [|[k c] entries IH]; simpl.
  - now rewrite String.eqb_refl.
  - destruct (String.eqb k n) eqn:E; simpl; now rewrite E.
Qed.

Lemma probes_of_app (a b : list event) : probes_of (a ++ b) = probes_of a ++ probes_of b.
Proof.
  induction a as [|[] a IH]; simpl; auto. now rewrite IH.
Qed.

Lemma in_probes_of (path : string) (tr : list event) :
  In (Probe path) tr <-> In path (probes_of tr).
Proof.
  induction tr as [|e tr IH]; simpl; [tauto|].
  destruct e; simpl; rewrite <- IH;
    (split; [intros [H|H]; [try discriminate; try (injection H as ->; auto) | auto]
            | intros H; try tauto]).
  destruct H as [->|H]; auto.
Qed.

Lemma host_gets_app (a b : list event) : host_gets (a ++ b) = host_gets a + host_gets b.
Proof.
  induction a as [|[] a IH]; simpl; auto.
Qed.

(** ** The loop of [contains_password] *)

Section Scan.

Variable h : host.
Variable t : tmp_file.
Variable dir_name : string.

Lemma scan_files_tmp (file : string) (rest : list string) (tested : string) (w : world) :
  not_tmp file = false ->
  scan_files h t dir_name (file :: rest) tested w =
  scan_files h t dir_name rest (tested +++ file +++ NL) w.
Proof.
  unfold not_tmp. intros H. cbn [scan_files]. now rewrite H.
Qed.

Lemma scan_files_raised (file : string) (rest : list string) (tested : string)
  (w : world) (e : string) :
  not_tmp file = true ->
  unrar_list h (path_of dir_name file) = ProbeRaised e ->
  scan_files h t dir_name (file :: rest) tested w =
  scan_files h t dir_name rest (tested +++ file +++ NL)
    (logged w [Probe (path_of dir_name file);
               Print ("[ERROR] Failed " +++ file +++ ": " +++ e)]).
Proof.
  unfold not_tmp, path_of, logged. intros H E. cbn [scan_files]. rewrite H, E.
  unfold bind, emit, print, emit. simpl. now rewrite <- app_assoc.
Qed.

Lemma scan_files_clean (file : string) (rest : list string) (tested : string)
  (w : world) (out err : string) (returncode : Z) :
  not_tmp file = true ->
  unrar_list h (path_of dir_name file) = ProbeOutput out err returncode ->
  check_passwordstrings out err = false ->
  scan_files h t dir_name (file :: rest) tested w =
  scan_files h t dir_name rest (tested +++ file +++ NL)
    (logged w [Probe (path_of dir_name file)]).
Proof.
  unfold not_tmp, path_of, logged. intros H E C. cbn [scan_files]. rewrite H, E, C.
  reflexivity.
Qed.

Lemma scan_files_found (file : string) (rest : list string) (tested : string)
  (w : world) (out err : string) (returncode : Z) :
  not_tmp file = true ->
  unrar_list h (path_of dir_name file) = ProbeOutput out err returncode ->
  check_passwordstrings out err = true ->
  scan_files h t dir_name (file :: rest) tested w =
  (Done true, logged w [Probe (path_of dir_name file)]).
Proof.
  unfold not_tmp, path_of, logged. intros H E C. cbn [scan_files]. rewrite H, E, C.
  reflexivity.
Qed.

Lemma scan_files_end (tested : string) (w : world) (entries : list (string * string)) :
  store w = Some entries ->
  scan_files h t dir_name [] tested w =
  (Done false,
   {| store := Some (write_file (name t)
                       (record_text (lookup (name t) entries) +++ tested) entries);
      trace := trace w |}).
Proof.
  intros E. simpl. unfold bind, save_tested, get_store, bind. rewrite E.
  unfold record_text. destruct (lookup (name t) entries); reflexivity.
Qed.

(** A file that is not positive lets the loop go on; only the trace
    grows, by at most the launch and one error line. *)
Lemma scan_files_next (file : string) (rest : list string) (tested : string) (w : world) :
  probe_positive h dir_name file = false ->
  exists evs,
    probes_of evs = map (path_of dir_name) (filter not_tmp [file]) /\
    scan_files h t dir_name (file :: rest) tested w =
    scan_files h t dir_name rest (tested +++ file +++ NL) (logged w evs).
Proof.
  unfold probe_positive. intros P.
  destruct (not_tmp file) eqn:T; simpl in P.
  - destruct (unrar_list h (path_of dir_name file)) as [e|out err rc] eqn:U.
    + exists [Probe (path_of dir_name file);
              Print ("[ERROR] Failed " +++ file +++ ": " +++ e)].
      split; [cbn [filter]; now rewrite T | now apply scan_files_raised].
    + exists [Probe (path_of dir_name file)].
      split; [cbn [filter]; now rewrite T | now apply scan_files_clean with out err rc].
  - exists []. split; [cbn [filter]; now rewrite T|].
    rewrite scan_files_tmp by assumption. unfold logged.
    rewrite app_nil_r. now destruct w.
Qed.

Lemma scan_files_run (files : list string) :
  forall (tested : string) (w : world) (entries : list (string * string)),
  store w = Some entries ->
  exists evs,
    (exists before file after,
        files = before ++ file :: after /\
        probe_positive h dir_name file = true /\
        (forall f, In f before -> probe_positive h dir_name f = false) /\
        probes_of evs = map (path_of dir_name) (filter not_tmp (before ++ [file])) /\
        scan_files h t dir_name files tested w = (Done true, logged w evs))
    \/
    ((forall f, In f files -> probe_positive h dir_name f = false) /\
     probes_of evs = map (path_of dir_name) (filter not_tmp files) /\
     scan_files h t dir_name files tested w =
       (Done false,
        {| store := Some (write_file (name t)
                            (record_text (lookup (name t) entries)
                             +++ tested +++ tested_data files) entries);
           trace := trace w ++ evs |})).
Proof.
  induction files as [|file rest IH]; intros tested w entries E.
  - exists []. right. split; [intros f []|]. split; [reflexivity|].
    rewrite (scan_files_end _ _ _ E). simpl. now rewrite app_nil_r, append_nil_r.
  - destruct (probe_positive h dir_name file) eqn:P.
    + exists [Probe (path_of dir_name file)]. left.
      exists [], file, rest. split; [reflexivity|]. split; [exact P|].
      split; [intros f []|].
      unfold probe_positive in P. apply andb_prop in P as [T C].
      destruct (unrar_list h (path_of dir_name file)) as [e|out err rc] eqn:U;
        [discriminate|].
      split; [simpl; now rewrite T|].
      eapply scan_files_found; eauto.
    + destruct (scan_files_next file rest tested w P) as (evs1 & P1 & ->).
      destruct (IH (tested +++ file +++ NL) (logged w evs1) entries E)
        as (evs2 & [(before & f & after & -> & Pf & Pb & Pr & R) | (Pall & Pr & R)]).
      * exists (evs1 ++ evs2). left. exists (file :: before), f, after.
        split; [reflexivity|]. split; [exact Pf|].
        split; [intros x [<-|Hx]; auto|].
        split.
        { rewrite probes_of_app, P1, Pr. simpl.
          destruct (not_tmp file); reflexivity. }
        rewrite R. unfold logged. simpl. now rewrite app_assoc.
      * exists (evs1 ++ evs2). right.
        split; [intros x [<-|Hx]; auto|].
        split.
        { rewrite probes_of_app, P1, Pr. simpl.
          destruct (not_tmp file); reflexivity. }
        rewrite R. unfold logged. simpl.
        rewrite app_assoc. do 3 f_equal.
        now rewrite !append_assoc.
Qed.

End Scan.

(** ** [get_latest_file] and [contains_password] *)

Section Detecting.

Variable order : set_order.
Variable h : host.
Variable t : tmp_file.
Variable dir_name : string.
Variable listing : list string.
Hypothesis listed : listdir h dir_name = Some listing.

Lemma create_tmp_file_run (w : world) :
  record_of t w = None ->
  exists evs entries,
    probes_of evs = [] /\
    lookup (name t) entries = Some EmptyString /\
    create_tmp_file h t dir_name w = (Done listing, {| store := Some entries; trace := trace w ++ evs |}).
Proof.
  intros _. unfold create_tmp_file, bind, get_store, set_store, print, emit, ret.
  destruct w as [[entries|] tr]; simpl; rewrite listed.
  - exists [Print ("[DETAIL] Created temp file " +++ tmp_file_name t)],
      (write_file (name t) EmptyString entries).
    split; [reflexivity|]. split; [apply lookup_write_file|reflexivity].
  - exists [Print ("[DETAIL] Created folder " +++ folder t);
            Print ("[DETAIL] Created temp file " +++ tmp_file_name t)],
      [(name t, EmptyString)].
    split; [reflexivity|]. split; [|now rewrite <- app_assoc].
    simpl. now rewrite String.eqb_refl.
Qed.

Lemma get_latest_file_run (w : world) :
  exists evs entries,
    probes_of evs = [] /\
    lookup (name t) entries = Some (record_text (record_of t w)) /\
    (forall content, record_of t w = Some content -> evs = [] /\ store w = Some entries) /\
    get_latest_file order h t dir_name w =
      (Done (untested order listing (record_of t w)),
       {| store := Some entries; trace := trace w ++ evs |}).
Proof.
  destruct (record_of t w) as [content|] eqn:R.
  - unfold record_of in R. destruct (store w) as [entries|] eqn:E; [|discriminate].
    exists [], entries. split; [reflexivity|]. split; [exact R|].
    split; [auto|].
    unfold get_latest_file, bind, get_store. rewrite E, R, listed.
    unfold ret. rewrite app_nil_r. simpl. now destruct w; simpl in *; subst.
  - destruct (create_tmp_file_run w R) as (evs & entries & P & L & C).
    exists evs, entries. split; [exact P|]. split; [exact L|].
    split; [discriminate|].
    unfold get_latest_file, bind, get_store.
    unfold record_of in R. destruct (store w) as [es|] eqn:E.
    + rewrite R. exact C.
    + exact C.
Qed.

(** What one call of [contains_password] does, in both of its endings. *)
Lemma contains_password_run (w : world) :
  let visited := untested order listing (record_of t w) in
  let before_text := record_text (record_of t w) in
  exists evs w',
    trace w' = trace w ++ evs /\
    ((exists before file after,
         visited = before ++ file :: after /\
         probe_positive h dir_name file = true /\
         (forall f, In f before -> probe_positive h dir_name f = false) /\
         probes_of evs = map (path_of dir_name) (filter not_tmp (before ++ [file])) /\
         record_of t w' = Some before_text /\
         contains_password order h t dir_name w = (Done true, w'))
     \/
     ((forall f, In f visited -> probe_positive h dir_name f = false) /\
      probes_of evs = map (path_of dir_name) (filter not_tmp visited) /\
      record_of t w' = Some (before_text +++ tested_data visited) /\
      contains_password order h t dir_name w = (Done false, w'))).
Proof.
  intros visited before_text.
  destruct (get_latest_file_run w) as (evs0 & entries & P0 & L & _ & G).
  set (w0 := {| store := Some entries; trace := trace w ++ evs0 |}) in *.
  destruct (scan_files_run h t dir_name visited EmptyString w0 entries eq_refl)
    as (evs & [(before & file & after & V & Pf & Pb & Pr & R) | (Pall & Pr & R)]).
  - exists (evs0 ++ evs), (logged w0 evs).
    split; [simpl; now rewrite app_assoc|]. left.
    exists before, file, after.
    split; [exact V|]. split; [exact Pf|]. split; [exact Pb|].
    split; [now rewrite probes_of_app, P0|].
    split; [unfold record_of; simpl; exact L|].
    unfold contains_password, bind. rewrite G. exact R.
  - eexists (evs0 ++ evs), _.
    split; [|right; split; [exact Pall|]; split; [now rewrite probes_of_app, P0|];
             split; [|unfold contains_password, bind; rewrite G; exact R]].
    + simpl. now rewrite app_assoc.
    + unfold record_of; simpl. rewrite lookup_write_file, L. reflexivity.
Qed.

End Detecting.

(** ** Claims on the scan *)










(** The scenario of the specification: the first of two volumes is
    locked, the second one is not probed. *)
Example first_locked_example :
  contains_password listing_order Scenario.first_locked Scenario.the_tmp_file
    "/d" Scenario.fresh =
  (Done true,
   {| store := Some [("7", EmptyString)];
      trace := [Print "[DETAIL] Created folder /tmp/PasswordDetector";
                Print "[DETAIL] Created temp file /tmp/PasswordDetector/7";
                Probe "/d/a.part01.rar"] |}).
Proof. vm_compute. reflexivity. Qed.










(** ** [sort_inner_files]: which file is moved to the top *)

Section Selection.

Local Open Scope N_scope.

Lemma rar_lines_pair (st : rar_state) (id : Z) (cur_name : string)
  (rest : list (Z * string)) :
  rar_lines st (lines_of ((id, cur_name) :: rest))
  = rar_lines (pair_step st id cur_name) (lines_of rest).
Proof.
  unfold pair_step. cbn [lines_of flat_map app fst snd rar_lines rar_step].
  cbn [cur_id file_num file_id file_name].
  destruct (rar_number cur_name) as [n|]; [|reflexivity].
  destruct (takes_over (file_num st) n); reflexivity.
Qed.

(** A listing given as pairs never stops the loop. *)
Lemma rar_lines_total (listing : list (Z * string)) :
  forall st, exists st', rar_lines st (lines_of listing) = Some st'.
Proof.
  induction listing as [|[id nm] rest IH]; intros st.
  - exists st; reflexivity.
  - rewrite rar_lines_pair. apply IH.
Qed.

Lemma rar_lines_before (n : N) (rest : list (Z * string)) (before : list (Z * string)) :
  forall st,
    below n (file_num st) ->
    (forall p k, In p before -> rar_number (snd p) = Some k -> k < n) ->
    exists st', below n (file_num st') /\
      rar_lines st (lines_of (before ++ rest)) = rar_lines st' (lines_of rest).
Proof.
  induction before as [|[id nm] before IH]; intros st B H.
  - exists st; auto.
  - cbn [app]. rewrite rar_lines_pair.
    apply IH; [|intros p k Hp; apply H; now right].
    unfold pair_step.
    destruct (rar_number nm) as [k|] eqn:E; [|exact B].
    destruct (takes_over (file_num st) k); [|exact B].
    simpl. apply (H (id, nm) k); [now left | exact E].
Qed.

Lemma rar_lines_after (n : N) (after : list (Z * string)) :
  0 < n ->
  forall st,
    file_num st = Some n ->
    (forall p k, In p after -> rar_number (snd p) = Some k -> k <= n) ->
    exists st', rar_lines st (lines_of after) = Some st' /\ file_id st' = file_id st.
Proof.
  intros Hn. induction after as [|[id nm] after IH]; intros st F H.
  - exists st; auto.
  - rewrite rar_lines_pair.
    assert (S : file_num (pair_step st id nm) = Some n
                /\ file_id (pair_step st id nm) = file_id st).
    { unfold pair_step. destruct (rar_number nm) as [k|] eqn:E; [|auto].
      assert (K : k <= n) by (apply (H (id, nm) k); [now left | exact E]).
      rewrite F. unfold takes_over.
      destruct (N.eqb_spec n 0); [lia|].
      destruct (N.ltb_spec n k); [lia|]. simpl. auto. }
    destruct S as [S1 S2].
    destruct (IH (pair_step st id nm) S1) as (st' & R & I).
    { intros p k Hp. apply H. now right. }
    exists st'. split; [exact R | congruence].
Qed.

(** Where the claim C3 and the code agree: when the highest number
    among the matching names is not zero, the first file that carries
    it is the one chosen (an id of 0 apart, which [if file_id] takes for
    no file at all), and a listing without a matching name gives
    nothing. *)
Lemma select_top_part_first_max (before after : list (Z * string)) (id : Z)
  (cur_name : string) (n : N) :
  rar_number cur_name = Some n ->
  0 < n ->
  id <> 0%Z ->
  (forall p k, In p before -> rar_number (snd p) = Some k -> k < n) ->
  (forall p k, In p after -> rar_number (snd p) = Some k -> k <= n) ->
  select_top_part (before ++ (id, cur_name) :: after) = Some id.
Proof.
  intros E Hn Hid Hb Ha. unfold select_top_part.
  destruct (rar_lines_before n ((id, cur_name) :: after) before rar_init I Hb)
    as (st & B & ->).
  rewrite rar_lines_pair.
  assert (S : pair_step st id cur_name
              = {| cur_id := Some id; file_num := Some n;
                   file_id := Some id; file_name := Some cur_name |}).
  { unfold pair_step. rewrite E. unfold takes_over, below in *.
    destruct (file_num st) as [k|]; [|reflexivity].
    destruct (N.ltb_spec k n); [|lia]. now rewrite orb_true_r. }
  rewrite S.
  destruct (rar_lines_after n after Hn
              {| cur_id := Some id; file_num := Some n;
                 file_id := Some id; file_name := Some cur_name |} eq_refl Ha)
    as (st' & -> & F).
  unfold chosen. rewrite F. simpl.
  destruct (Z.eqb_spec id 0); congruence.
Qed.

Lemma select_top_part_none (listing : list (Z * string)) :
  (forall p, In p listing -> rar_number (snd p) = None) ->
  select_top_part listing = None.
Proof.
  intros H. unfold select_top_part.
  assert (G : forall st, file_id st = None ->
              exists st', rar_lines st (lines_of listing) = Some st' /\ file_id st' = None).
  { induction listing as [|[id nm] rest IH]; intros st F.
    - exists st; auto.
    - rewrite rar_lines_pair. apply IH; [intros p Hp; apply H; now right|].
      unfold pair_step. pose proof (H (id, nm) (or_introl eq_refl)) as E.
      simpl in E. rewrite E. exact F. }
  destruct (G rar_init eq_refl) as (st' & -> & F).
  unfold chosen. now rewrite F.
Qed.

End Selection.

(** The listing of the specification: number 10 beats 2 and 1. *)
Lemma select_top_part_example :
  select_top_part [(2, "a.part02.rar"); (5, "a.part10.rar"); (9, "a.r1")]%Z = Some 5%Z.
Proof. reflexivity. Qed.

(** C3 fails on the code for a tie at number 0.  Both names carry the
    number 0, the listing has [a.r00] first, and the loop ends on the
    later file: [not file_num] is true for a [file_num] of 0 as it is
    for [None], so the later file takes over.  The same is seen on the
    text NZBGet sends: the file moved to the top is the one with id 2. *)
Theorem tie_at_zero_selects_later_file :
  rar_number "a.r00" = Some 0%N /\
  rar_number "b.r00" = Some 0%N /\
  select_top_part [(1, "a.r00"); (2, "b.r00")]%Z = Some 2%Z /\
  sort_inner_files Scenario.two_r00 Scenario.fresh =
    (Done tt,
     logged Scenario.fresh
       [HostGet "listfiles?1=0&2=0&3=7";
        Print "[INFO] Moving last rar-file to the top: b.r00";
        EditQueue "FileMoveTop" [2%Z]]).
Proof.
  repeat split; vm_compute; reflexivity.
Qed.

(** ** What a script emits, and whether it returns *)

Lemma emits_ret {A} (P : event -> bool) (a : A) : emits P (ret a).
Proof. intros w. exists []. simpl. now rewrite app_nil_r. Qed.

Lemma emits_raise {A} (P : event -> bool) (e : string) : emits P (@raise A e).
Proof. intros w. exists []. simpl. now rewrite app_nil_r. Qed.

Lemma emits_exit {A} (P : event -> bool) (code : Z) : emits P (@sys_exit A code).
Proof. intros w. exists []. simpl. now rewrite app_nil_r. Qed.

Lemma emits_emit (P : event -> bool) (e : event) : P e = true -> emits P (emit e).
Proof. intros H w. exists [e]. simpl. now rewrite H. Qed.

Lemma emits_get_store (P : event -> bool) : emits P get_store.
Proof. intros w. exists []. simpl. now rewrite app_nil_r. Qed.

Lemma emits_set_store (P : event -> bool) s : emits P (set_store s).
Proof. intros w. exists []. simpl. now rewrite app_nil_r. Qed.

Lemma emits_bind {A B} (P : event -> bool) (m : script A) (k : A -> script B) :
  emits P m -> (forall a, emits P (k a)) -> emits P (bind m k).
Proof.
  intros Hm Hk w. unfold bind. destruct (Hm w) as (evs & T & F).
  destruct (m w) as [[a|c|e] w1]; simpl in *.
  - destruct (Hk a w1) as (evs' & T' & F'). exists (evs ++ evs').
    rewrite T', T, app_assoc, forallb_app, F, F'. auto.
  - exists evs; auto.
  - exists evs; auto.
Qed.

Lemma stops_exit {A} (code : Z) : stops (@sys_exit A code).
Proof. intros w; exact I. Qed.

Lemma stops_bind_l {A B} (m : script A) (k : A -> script B) :
  stops m -> stops (bind m k).
Proof.
  intros H w. specialize (H w). unfold bind.
  destruct (m w) as [[a|c|e] w1]; simpl in *; auto. contradiction.
Qed.

Lemma stops_bind_r {A B} (m : script A) (k : A -> script B) :
  (forall a, stops (k a)) -> stops (bind m k).
Proof.
  intros H w. unfold bind.
  destruct (m w) as [[a|c|e] w1]; simpl; auto. apply H.
Qed.

Lemma bind_done {A B} (m : script A) (k : A -> script B) (w : world) (a : A) (w' : world) :
  m w = (Done a, w') -> bind m k w = k a w'.
Proof. intros H. unfold bind. now rewrite H. Qed.

(** A script that stops decides alone how [bind] ends. *)
Lemma bind_stops {A B} (m : script A) (k : A -> script B) (w : world) :
  stops m ->
  (exists code, m w = (Exit code, snd (m w)) /\ bind m k w = (Exit code, snd (m w))) \/
  (exists e, m w = (Raise e, snd (m w)) /\ bind m k w = (Raise e, snd (m w))).
Proof.
  intros H. specialize (H w). unfold bind.
  destruct (m w) as [[a|c|e] w1]; simpl in *; [contradiction | left | right]; eauto.
Qed.

Ltac emits_step :=
  first
    [ apply emits_bind; [|intros ?]
    | apply emits_ret
    | apply emits_raise
    | apply emits_exit
    | apply emits_get_store
    | apply emits_set_store
    | apply emits_emit; reflexivity
    | match goal with
      | |- emits _ (match ?x with _ => _ end) => destruct x
      end ].

Ltac emits_auto := repeat emits_step.

Section Quiet.

Variable order : set_order.
Variable h : host.

Lemma emits_remove_all (temp_folder : string) (old : list string) :
  emits no_detection (remove_all temp_folder old).
Proof.
  induction old as [|temp_id old IH]; cbn [remove_all]; [apply emits_ret|].
  unfold print. emits_auto; exact IH.
Qed.

Lemma emits_call_nzbget_direct (url_command : string) :
  emits no_detection (call_nzbget_direct h url_command).
Proof.
  unfold call_nzbget_direct, ensure_str, connection_info, env_item. emits_auto.
Qed.

Lemma emits_clean_up : emits no_detection (clean_up order h).
Proof.
  unfold clean_up, env_plus, value_or_raise, call_nzbget_direct, ensure_str,
    connection_info, env_item.
  emits_auto; apply emits_remove_all.
Qed.

Lemma emits_start_check : emits no_detection (start_check order h).
Proof.
  unfold start_check, when, print.
  repeat first [apply emits_clean_up | emits_step].
Qed.

Lemma stops_start_check :
  environ h flag = Some "yes" -> stops (start_check order h).
Proof.
  intros F. unfold start_check.
  do 3 (apply stops_bind_r; intros _).
  apply stops_bind_l. unfold env_is. rewrite F. cbn [String.eqb Ascii.eqb Bool.eqb].
  do 2 (apply stops_bind_r; intros _). apply stops_exit.
Qed.

End Quiet.

(** What the code does with a job that carries the mark of an earlier
    run, whatever its files hold: the call ends inside [start_check],
    [main] exits (or fails) where [start_check] does, no file is probed
    and the line that would take the mark back is not printed.  For a
    queue-script call that passes the earlier checks this is the line
    about the password found earlier and the exit code of success,
    nothing else.  The branch of [main] that is written to take the mark
    back is behind this check and cannot be reached with the mark set. *)
Theorem marked_job_skips_detection (order : set_order) (h : host) (w : world) :
  environ h flag = Some "yes" ->
  (exists w' evs,
     trace w' = trace w ++ evs /\
     forallb no_detection evs = true /\
     ((exists code, start_check order h w = (Exit code, w')
                    /\ main order h w = (Exit code, w')) \/
      (exists e, start_check order h w = (Raise e, w')
                 /\ main order h w = (Raise e, w'))))
  /\
  (env_has h "NZBNA_EVENT" = true ->
   env_has h "NZBOP_ARTICLECACHE" = true ->
   known_event h = true ->
   env_is h "NZBPP_STATUS" "FAILURE/BAD" = false ->
   env_has h "NZBPP_DIRECTORY" = false ->
   main order h w =
     (Exit POSTPROCESS_SUCCESS,
      logged w [Print "[DETAIL] Password previously found, skipping detection"])).
Proof.
  intros F. split.
  - destruct (emits_start_check order h w) as (evs & T & Q).
    exists (snd (start_check order h w)), evs.
    split; [exact T|]. split; [exact Q|].
    unfold main.
    exact (bind_stops (start_check order h) _ w (stops_start_check order h F)).
  - intros E A K S D. unfold main, start_check, bind, env_is in *.
    rewrite E, A, K, D, F. simpl.
    destruct (environ h "NZBPP_STATUS") as [s|]; [rewrite S|]; reflexivity.
Qed.

Lemma marked_job_skips_detection_witness :
  main listing_order Scenario.marked_but_clean Scenario.fresh =
    (Exit POSTPROCESS_SUCCESS,
     logged Scenario.fresh
       [Print "[DETAIL] Password previously found, skipping detection"]).
Proof.
  exact (proj2 (marked_job_skips_detection listing_order Scenario.marked_but_clean
                  Scenario.fresh eq_refl)
           eq_refl eq_refl eq_refl eq_refl eq_refl).
Defined.

(** C2 fails on the code.  [main] is written to take the mark back
    when a download marked earlier is found clean, and says so in the
    comment before that branch; but [start_check], which [main] calls
    first, ends the run for every download that carries the mark.  Here
    the job is marked and all its files are clean: the call probes none
    of them and does not print the line that takes the mark back; it
    exits with the code of success after one line. *)
Lemma marked_job_is_not_rescanned :
  (forall path, exists out err,
      unrar_list Scenario.marked_but_clean path = ProbeOutput out err 0
      /\ check_passwordstrings out err = false) /\
  exists w',
    run listing_order Scenario.marked_but_clean Scenario.fresh
      = (Exit POSTPROCESS_SUCCESS, w') /\
    trace w' = [Print "[DETAIL] Password previously found, skipping detection"] /\
    probes_of (trace w') = [] /\
    existsb clears_flag (trace w') = false.
Proof.
  split.
  - intros path. exists "All OK", EmptyString. split; reflexivity.
  - eexists. split; [vm_compute; reflexivity|]. repeat split; reflexivity.
Qed.

(** ** [clean_up] *)

Lemma remove_file_names (n : string) (entries : list (string * string)) :
  NoDup (map fst entries) ->
  NoDup (map fst (remove_file n entries)) /\
  forall f, In f (map fst (remove_file n entries)) <-> In f (map fst entries) /\ f <> n.
Proof.
  induction entries as [|[k c] entries IH]; simpl; intros N.
  - split; [constructor | intros f; tauto].
  - inversion N as [|? ? Hk N']; subst.
    destruct (String.eqb_spec k n) as [->|Hkn].
    + split; [exact N'|]. intros f. split.
      * intros H. split; [now right | intros ->; contradiction].
      * intros [[->|H] Hf]; [contradiction | exact H].
    + destruct (IH N') as [IH1 IH2]. simpl. split.
      * constructor; [|exact IH1]. rewrite IH2. tauto.
      * intros f. rewrite IH2. split.
        -- intros [->|[H Hf]]; auto.
        -- intros [[->|H] Hf]; auto.
Qed.

Lemma in_removal_events (temp_folder f : string) (old : list string) :
  In f old -> In (Remove (temp_folder +++ "/" +++ f)) (removal_events temp_folder old).
Proof.
  intros H. unfold removal_events. apply in_flat_map. exists f.
  split; [exact H | right; now left].
Qed.

Lemma host_gets_removal_events (temp_folder : string) (old : list string) :
  host_gets (removal_events temp_folder old) = 0.
Proof.
  induction old as [|f old IH]; simpl; auto.
Qed.

Lemma remove_all_run (temp_folder : string) (old : list string) :
  forall (entries : list (string * string)) (tr : list event),
  NoDup (map fst entries) ->
  NoDup old ->
  incl old (map fst entries) ->
  exists entries',
    remove_all temp_folder old {| store := Some entries; trace := tr |} =
      (Done tt, {| store := Some entries';
                   trace := tr ++ removal_events temp_folder old |}) /\
    NoDup (map fst entries') /\
    forall f, In f (map fst entries') <-> In f (map fst entries) /\ ~ In f old.
Proof.
  induction old as [|temp_id old IH]; intros entries tr N D I.
  - exists entries. simpl. rewrite app_nil_r.
    split; [reflexivity|]. split; [exact N | intros f; tauto].
  - inversion D as [|? ? Hid D']; subst.
    destruct (remove_file_names temp_id entries N) as [N1 R1].
    destruct (IH (remove_file temp_id entries)
                 (tr ++ [Print ("[DETAIL] Removing temp file " +++ temp_folder +++ "/" +++ temp_id);
                         Remove (temp_folder +++ "/" +++ temp_id)]) N1 D')
      as (entries' & E & N' & R').
    { intros f Hf. apply R1. split; [apply I; now right | intros ->; contradiction]. }
    exists entries'. split; [|split; [exact N'|]].
    + cbn [remove_all]. unfold bind, print, emit, get_store, set_store. simpl.
      assert (M : mem temp_id (map fst entries) = true)
        by (apply mem_iff, I; now left).
      rewrite M. simpl. rewrite <- !app_assoc in *. simpl in *. exact E.
    + intros f. rewrite R', R1. simpl. split.
      * intros [[H1 H2] H3]. split; [exact H1 | intros [->|H]; auto].
      * intros [H1 H2]. split; [split; [exact H1|]|]; intros H; apply H2; auto.
Qed.

(** C10.  With one file in the temp folder, [clean_up] removes it and
    asks NZBGet nothing, whatever job the file belongs to, whatever the
    current job is and whatever NZBGet would have answered. *)
Theorem single_record_removed_unasked (order : set_order) (h : host)
  (job content temp_dir : string) (tr : list event) :
  environ h "NZBOP_TEMPDIR" = Some temp_dir ->
  exists evs,
    clean_up order h {| store := Some [(job, content)]; trace := tr |} =
      (Done tt, {| store := Some []; trace := tr ++ evs |}) /\
    evs = removal_events (temp_dir +++ "/PasswordDetector") [job] /\
    host_gets evs = 0.
Proof.
  intros T. eexists. split; [|split; [reflexivity | reflexivity]].
  unfold clean_up, env_plus, bind. rewrite T. simpl.
  assert (S : set_minus [job] [] = [job]) by reflexivity.
  pose proof (list_of_set_perm order [job]) as P.
  apply Permutation_length_1_inv in P.
  assert (O : opt_mem (environ h "NZBPP_NZBID") [job]
              && negb (opt_mem (environ h "NZBPP_NZBID") [job]) = false)
    by (destruct (opt_mem _ _); reflexivity).
  unfold old_temp_files. rewrite S, P, O.
  cbn [remove_all]. unfold bind, print, emit, get_store, set_store, ret.
  simpl. rewrite String.eqb_refl. simpl. now rewrite <- app_assoc.
Qed.

Lemma single_record_removed_unasked_witness :
  exists evs,
    clean_up listing_order (Scenario.two_active "9")
      {| store := Some [("2", "a.rar")]; trace := [] |} =
      (Done tt, {| store := Some []; trace := [] ++ evs |}) /\
    evs = removal_events ("/tmp" +++ "/PasswordDetector") ["2"] /\
    host_gets evs = 0.
Proof.
  exact (single_record_removed_unasked listing_order (Scenario.two_active "9")
           "2" "a.rar" "/tmp" [] eq_refl).
Defined.

Lemma old_temp_files_spec (order : set_order) (nzb_id : option string)
  (files nzbids : list string) :
  NoDup (old_temp_files order nzb_id files nzbids) /\
  forall f, In f (old_temp_files order nzb_id files nzbids) <->
            In f files /\ (~ In f nzbids \/ nzb_id = Some f).
Proof.
  unfold old_temp_files.
  pose proof (list_of_set_perm order (set_minus files nzbids)) as P.
  set (old := list_of_set order (set_minus files nzbids)) in *.
  assert (N : NoDup old) by (eapply Permutation_NoDup; [exact P | apply set_minus_NoDup]).
  assert (M : forall f, In f old <-> In f files /\ ~ In f nzbids).
  { intros f. rewrite <- set_minus_iff. split; apply Permutation_in; [symmetry|]; exact P. }
  destruct nzb_id as [v|]; simpl.
  - destruct (mem v files) eqn:Vf; simpl.
    + destruct (mem v old) eqn:Vo; simpl.
      * split; [exact N|]. intros f. rewrite M. split; [tauto|].
        intros [Hf [H|H]]; [tauto|]. injection H as ->.
        apply M. now apply mem_iff.
      * apply mem_iff in Vf.
        assert (Vn : ~ In v old) by (rewrite <- mem_iff; congruence).
        split.
        -- apply NoDup_app; [exact N | repeat constructor; intros [] |].
           intros a Ha [<-|[]]. contradiction.
        -- intros f. rewrite in_app_iff, M. simpl. split.
           ++ intros [[H1 H2]|[<-|[]]]; auto.
           ++ intros [Hf [H|H]]; [auto|]. injection H as ->. auto.
    + split; [exact N|]. intros f. rewrite M. split; [tauto|].
      intros [Hf [H|H]]; [tauto|]. injection H as ->.
      apply mem_iff in Hf. congruence.
  - split; [exact N|]. intros f. rewrite M. split; [tauto|].
    intros [Hf [H|H]]; [tauto | discriminate].
Qed.

Lemma call_nzbget_direct_sends (h : host) (url_command : string) (w : world) :
  connection_known h = true ->
  call_nzbget_direct h url_command w =
    match jsonrpc h url_command with
    | Some content => ensure_str content (logged w [HostGet url_command])
    | None => (Done EmptyString, logged w [HostGet url_command])
    end.
Proof.
  unfold connection_known, env_has. intros C.
  unfold call_nzbget_direct, ensure_str, connection_info, env_item, bind, emit, logged.
  destruct (environ h "NZBOP_CONTROLIP"); [|discriminate].
  destruct (environ h "NZBOP_CONTROLPORT"); [|discriminate].
  destruct (environ h "NZBOP_CONTROLUSERNAME"); [|discriminate].
  destruct (environ h "NZBOP_CONTROLPASSWORD"); [|discriminate].
  simpl. destruct (jsonrpc h url_command); reflexivity.
Qed.

Lemma call_nzbget_direct_run (h : host) (url_command data : string) (w : world) :
  connection_known h = true ->
  answer_text (jsonrpc h url_command) = Some data ->
  call_nzbget_direct h url_command w = (Done data, logged w [HostGet url_command]).
Proof.
  intros C A. rewrite call_nzbget_direct_sends by exact C.
  destruct (jsonrpc h url_command) as [[content|]|]; simpl in A;
    try discriminate; injection A as <-; reflexivity.
Qed.

Lemma call_nzbget_direct_undecodable (h : host) (url_command : string) (w : world) :
  connection_known h = true ->
  answer_text (jsonrpc h url_command) = None ->
  call_nzbget_direct h url_command w =
    (Raise "UnicodeDecodeError", logged w [HostGet url_command]).
Proof.
  intros C A. rewrite call_nzbget_direct_sends by exact C.
  destruct (jsonrpc h url_command) as [[content|]|]; simpl in A;
    try discriminate; reflexivity.
Qed.

(** C6, as the code has it.  [clean_up] asks NZBGet for its jobs once
    when the temp folder holds more than one file and not at all
    otherwise.  Every file whose name is not among the ids NZBGet gave
    is removed.  The files that stay are those of the jobs NZBGet gave,
    the current job apart: its file is removed as well. *)
Theorem clean_up_keeps_active (order : set_order) (h : host)
  (entries : list (string * string)) (temp_dir data : string) (nzbids : list string)
  (tr : list event) :
  environ h "NZBOP_TEMPDIR" = Some temp_dir ->
  connection_known h = true ->
  NoDup (map fst entries) ->
  listgroups_text h = Some data ->
  active_ids (splitlines data) = Some nzbids ->
  exists evs w',
    clean_up order h {| store := Some entries; trace := tr |} = (Done tt, w') /\
    trace w' = tr ++ evs /\
    host_gets evs = (if (1 <? List.length entries)%nat then 1 else 0) /\
    (forall f, In f (map fst entries) -> ~ In f nzbids ->
               In (Remove ((temp_dir +++ "/PasswordDetector") +++ "/" +++ f)) evs
               /\ ~ In f (stored w')) /\
    (forall f, In f (stored w') <->
               In f (map fst entries) /\ (1 < List.length entries)%nat /\
               In f nzbids /\ environ h "NZBPP_NZBID" <> Some f).
Proof.
  intros T C N G A.
  set (folder := temp_dir +++ "/PasswordDetector").
  set (nzb_id := environ h "NZBPP_NZBID").
  set (files := map fst entries).
  set (used := if (1 <? List.length entries)%nat then nzbids else []).
  set (evs0 := if (1 <? List.length entries)%nat then [HostGet "listgroups?1=0"] else []).
  destruct (old_temp_files_spec order nzb_id files used) as [ON OI].
  destruct (remove_all_run folder (old_temp_files order nzb_id files used)
              entries (tr ++ evs0) N ON) as (entries' & R & N' & K).
  { intros f Hf. now apply OI in Hf. }
  exists (evs0 ++ removal_events folder (old_temp_files order nzb_id files used)),
         {| store := Some entries';
            trace := (tr ++ evs0)
                     ++ removal_events folder (old_temp_files order nzb_id files used) |}.
  split; [|split; [simpl; now rewrite app_assoc|split; [|split]]].
  - unfold clean_up, env_plus, bind, get_store. rewrite T.
    unfold ret at 1. cbn beta iota. cbn [store].
    rewrite length_map. fold folder nzb_id files.
    subst used evs0.
    destruct (1 <? List.length entries)%nat.
    + rewrite (call_nzbget_direct_run h _ data _ C G).
      rewrite A. unfold value_or_raise, ret, logged.
      cbn [store trace]. exact R.
    + unfold ret. rewrite (app_nil_r tr) in R at 1. exact R.
  - rewrite host_gets_app, host_gets_removal_events. subst evs0.
    destruct (1 <? List.length entries)%nat; reflexivity.
  - intros f Hf Hn.
    assert (O : In f (old_temp_files order nzb_id files used)).
    { apply OI. split; [exact Hf|]. left. subst used.
      destruct (1 <? List.length entries)%nat; [exact Hn | intros []]. }
    split.
    + apply in_or_app. right. now apply in_removal_events.
    + unfold stored. cbn [store]. rewrite K. tauto.
  - intros f. unfold stored. cbn [store]. rewrite K, OI. subst used. fold files.
    destruct (Nat.ltb_spec 1 (List.length entries)) as [L|L].
    + split.
      * intros [Hf Hn]. split; [exact Hf|]. split; [exact L|]. split.
        -- destruct (in_dec string_dec f nzbids); [assumption|]. exfalso; apply Hn; tauto.
        -- intros E. apply Hn. split; [exact Hf | now right].
      * intros (Hf & _ & Ha & Hc). split; [exact Hf|].
        intros [_ [H|H]]; contradiction.
    + split.
      * intros [Hf Hn]. exfalso. apply Hn. split; [exact Hf | left; intros []].
      * intros (_ & L' & _). lia.
Qed.

Lemma four_records_distinct : NoDup (map fst Scenario.four_records).
Proof.
  repeat constructor; simpl; intuition discriminate.
Defined.

Lemma clean_up_keeps_active_witness :
  exists evs w',
    clean_up listing_order (Scenario.two_active "3") Scenario.four_stored = (Done tt, w') /\
    trace w' = [] ++ evs /\
    host_gets evs = 1 /\
    (forall f, In f ["1"; "2"; "3"; "4"] -> ~ In f ["1"; "2"] ->
               In (Remove (("/tmp" +++ "/PasswordDetector") +++ "/" +++ f)) evs
               /\ ~ In f (stored w')) /\
    (forall f, In f (stored w') <->
               In f ["1"; "2"; "3"; "4"] /\ (1 < 4)%nat /\
               In f ["1"; "2"] /\ Some "3" <> Some f).
Proof.
  exact (clean_up_keeps_active listing_order (Scenario.two_active "3")
           Scenario.four_records "/tmp" (groups_text [1%Z; 2%Z]) ["1"; "2"] []
           eq_refl eq_refl four_records_distinct eq_refl eq_refl).
Defined.

(** The example of the specification, run for a current job that NZBGet
    no longer lists: one question to NZBGet, the files of jobs 3 and 4
    removed, those of jobs 1 and 2 kept. *)
Lemma clean_up_example :
  clean_up listing_order (Scenario.two_active "3") Scenario.four_stored =
    (Done tt,
     {| store := Some [("1", "a.rar" +++ NL); ("2", EmptyString)];
        trace := [HostGet "listgroups?1=0";
                  Print "[DETAIL] Removing temp file /tmp/PasswordDetector/3";
                  Remove "/tmp/PasswordDetector/3";
                  Print "[DETAIL] Removing temp file /tmp/PasswordDetector/4";
                  Remove "/tmp/PasswordDetector/4"] |}).
Proof. vm_compute. reflexivity. Qed.

(** C6, as the claim has it, fails: with the files of jobs 1 to 4 in
    the temp folder and jobs 1 and 2 known to NZBGet, a call for job 1
    removes the file of job 1 too; only that of job 2 stays. *)
Lemma current_job_record_is_removed :
  listgroups_text (Scenario.two_active "1") = Some (groups_text [1%Z; 2%Z]) /\
  active_ids (splitlines (groups_text [1%Z; 2%Z])) = Some ["1"; "2"] /\
  exists w',
    clean_up listing_order (Scenario.two_active "1") Scenario.four_stored = (Done tt, w') /\
    stored w' = ["2"] /\
    In (Remove "/tmp/PasswordDetector/1") (trace w') /\
    host_gets (trace w') = 1.
Proof.
  split; [reflexivity|]. split; [reflexivity|].
  eexists. split; [vm_compute; reflexivity|].
  split; [reflexivity|]. split; [simpl; tauto | reflexivity].
Qed.

(** ** The record and its lines *)

Lemma splitlines_not_nil (c : ascii) (s : string) : splitlines (String c s) <> [].
Proof.
  cbn [splitlines]. destruct (is_linebreak c); [discriminate|].
  destruct (splitlines s); discriminate.
Qed.

Lemma is_linebreak_LF : is_linebreak LF = true.
Proof. reflexivity. Qed.

(** Text after a line feed starts a line of its own. *)
Lemma splitlines_after_LF (n : nat) :
  forall body s, String.length body <= n ->
    splitlines (body +++ String LF s)
    = splitlines (body +++ String LF EmptyString) ++ splitlines s.
Proof.
  induction n as [|n IH]; intros body s L.
  - destruct body; [reflexivity | simpl in L; lia].
  - destruct body as [|c body]; [reflexivity|].
    simpl in L. apply le_S_n in L.
    cbn [append splitlines].
    destruct (is_linebreak c).
    + destruct (Ascii.eqb c CR).
      * destruct body as [|d body]; [reflexivity|].
        cbn [append]. destruct (Ascii.eqb d LF).
        -- simpl in L. rewrite (IH body s) by lia. reflexivity.
        -- change (String d (body +++ String LF s)) with (String d body +++ String LF s).
           change (String d (body +++ String LF EmptyString))
             with (String d body +++ String LF EmptyString).
           rewrite (IH (String d body) s) by exact L. reflexivity.
      * rewrite (IH body s) by exact L. reflexivity.
    + rewrite (IH body s) by exact L.
      destruct (splitlines (body +++ String LF EmptyString)) as [|l ls] eqn:E.
      * destruct body; simpl in E; [discriminate|].
        now apply splitlines_not_nil in E.
      * reflexivity.
Qed.

Lemma splitlines_closed (content s : string) :
  record_closed content ->
  splitlines (content +++ s) = splitlines content ++ splitlines s.
Proof.
  intros [->|[body ->]]; [reflexivity|].
  rewrite append_assoc. apply (splitlines_after_LF (String.length body)). lia.
Qed.

Lemma splitlines_line (f s : string) :
  has_linebreak f = false ->
  splitlines (f +++ NL +++ s) = f :: splitlines s.
Proof.
  induction f as [|c f IH]; intros H.
  - reflexivity.
  - simpl in H. apply orb_false_elim in H as [Hc Hf].
    cbn [append splitlines]. rewrite Hc. now rewrite (IH Hf).
Qed.

Lemma splitlines_tested_data (names : list string) :
  (forall f, In f names -> has_linebreak f = false) ->
  splitlines (tested_data names) = names.
Proof.
  induction names as [|f names IH]; intros H; [reflexivity|].
  cbn [tested_data]. rewrite splitlines_line by (apply H; now left).
  rewrite IH; [reflexivity | intros g Hg; apply H; now right].
Qed.

(** The script keeps its records closed. *)
Lemma tested_data_closed (content : string) (names : list string) :
  record_closed content -> record_closed (content +++ tested_data names).
Proof.
  intros C. induction names as [|f names IH] using rev_ind.
  - simpl. now rewrite append_nil_r.
  - right. exists (content +++ tested_data names +++ f).
    assert (E : forall a b, tested_data (a ++ b) = tested_data a +++ tested_data b).
    { intros a b. induction a as [|x a IHa]; [reflexivity|].
      simpl. rewrite IHa. now rewrite !append_assoc. }
    rewrite E. cbn [tested_data]. rewrite !append_assoc. reflexivity.
Qed.

Lemma set_minus_all (files tested : list string) :
  (forall f, In f files -> In f tested) -> set_minus files tested = [].
Proof.
  intros H. destruct (set_minus files tested) as [|f l] eqn:E; [reflexivity|].
  assert (I : In f (set_minus files tested)) by (rewrite E; now left).
  apply set_minus_iff in I as [I1 I2]. now apply H in I1.
Qed.

(** C7, as the code has it.  Let the temp folder exist, the record of
    the job be closed (as the script leaves it) and no name of [names]
    hold a line break.  Once [save_tested] has appended the names, a
    call of [get_latest_file] on a directory that lists exactly these
    names answers the empty list; so it does in a new process, for which
    only the temp folder is left of the first one. *)
Theorem recorded_names_are_not_untested (order : set_order) (h : host) (t : tmp_file)
  (dir_name : string) (names : list string) (w : world)
  (entries : list (string * string)) :
  store w = Some entries ->
  (forall content, lookup (name t) entries = Some content -> record_closed content) ->
  (forall f, In f names -> has_linebreak f = false) ->
  listdir h dir_name = Some names ->
  exists w1,
    save_tested t (tested_data names) w = (Done tt, w1) /\
    get_latest_file order h t dir_name w1 = (Done [], w1) /\
    get_latest_file order h t dir_name (restart w1) = (Done [], restart w1).
Proof.
  intros S C B L.
  set (old := match lookup (name t) entries with
              | Some content => content
              | None => EmptyString
              end).
  assert (Cold : record_closed old).
  { subst old. destruct (lookup (name t) entries) as [c|] eqn:E; [now apply C | now left]. }
  set (entries1 := write_file (name t) (old +++ tested_data names) entries).
  exists {| store := Some entries1; trace := trace w |}.
  assert (G : forall w2, store w2 = Some entries1 ->
                get_latest_file order h t dir_name w2 = (Done [], w2)).
  { intros w2 S2. unfold get_latest_file, bind, get_store. rewrite S2.
    subst entries1. rewrite lookup_write_file, L.
    rewrite splitlines_closed by exact Cold.
    rewrite splitlines_tested_data by exact B.
    rewrite set_minus_all by (intros f Hf; apply in_or_app; now right).
    pose proof (list_of_set_perm order []) as P.
    apply Permutation_nil in P. now rewrite P. }
  split; [|split; apply G; reflexivity].
  unfold save_tested, bind, get_store. rewrite S. reflexivity.
Qed.

Lemma recorded_names_are_not_untested_witness :
  exists w1,
    save_tested Scenario.the_tmp_file (tested_data ["a.part01.rar"; "a.part02.rar"])
      Scenario.empty_folder = (Done tt, w1) /\
    get_latest_file listing_order Scenario.first_locked Scenario.the_tmp_file "/d" w1
      = (Done [], w1) /\
    get_latest_file listing_order Scenario.first_locked Scenario.the_tmp_file "/d"
      (restart w1) = (Done [], restart w1).
Proof.
  apply (recorded_names_are_not_untested listing_order Scenario.first_locked
           Scenario.the_tmp_file "/d" ["a.part01.rar"; "a.part02.rar"]
           Scenario.empty_folder []).
  - reflexivity.
  - simpl. discriminate.
  - simpl. intros f [<-|[<-|[]]]; reflexivity.
  - reflexivity.
Defined.

(** C7, as the claim has it, fails for a name that holds a line feed:
    it is written as two lines, neither of which is the name, and the
    next call answers it as untested again. *)
Lemma name_with_line_feed_stays_untested :
  exists w1,
    save_tested Scenario.the_tmp_file (tested_data [Scenario.two_line_name])
      Scenario.empty_folder = (Done tt, w1) /\
    record_of Scenario.the_tmp_file w1 = Some (Scenario.two_line_name +++ NL) /\
    get_latest_file listing_order Scenario.odd_directory Scenario.the_tmp_file "/d"
      (restart w1) = (Done [Scenario.two_line_name], restart w1).
Proof.
  eexists. split; [vm_compute; reflexivity|]. split; reflexivity.
Qed.

(** ** [sort_inner_files] on the text of NZBGet *)

(** The loop on the text is the loop on the lines it is cut into. *)
Lemma rar_loop_lines (lines : list string) :
  forall (ls : list listing_line) (st : rar_state) (w : world),
  map scan_line lines = map Some ls ->
  rar_loop st lines w =
    (match rar_lines st ls with
     | Some st' => Done st'
     | None => Raise "UnboundLocalError"
     end, w).
Proof.
  induction lines as [|line lines IH]; intros [|l ls] st w E; try discriminate.
  - reflexivity.
  - injection E as El E. cbn [rar_loop rar_lines]. unfold bind.
    rewrite El. cbn [value_or_raise ret].
    destruct (rar_step st l) as [st'|]; [|reflexivity].
    cbn [ret]. now apply IH.
Qed.

(** The lines the loop passes over change nothing. *)
Lemma rar_lines_entries (ls : list listing_line) :
  forall st, rar_lines st ls = rar_lines st (filter is_entry_line ls).
Proof.
  induction ls as [|l ls IH]; intros st; [reflexivity|].
  destruct l; cbn [filter is_entry_line rar_lines].
  - destruct (rar_step st (LineID id)); [apply IH | reflexivity].
  - destruct (rar_step st (LineFilename cur_name)); [apply IH | reflexivity].
  - cbn [rar_step]. apply IH.
Qed.

(** The name the loop keeps is that of the file whose id it keeps. *)
Lemma rar_lines_named (rest : list (Z * string)) :
  forall (st : rar_state) (seen : list (Z * string)),
    (forall id, file_id st = Some id ->
       exists n, file_name st = Some n /\ In (id, n) seen) ->
    forall st', rar_lines st (lines_of rest) = Some st' ->
    forall id, file_id st' = Some id ->
      exists n, file_name st' = Some n /\ In (id, n) (seen ++ rest).
Proof.
  induction rest as [|[i nm] rest IH]; intros st seen H st' R id F.
  - injection R as <-. rewrite app_nil_r. now apply H.
  - rewrite rar_lines_pair in R.
    change (seen ++ (i, nm) :: rest) with (seen ++ [(i, nm)] ++ rest).
    rewrite app_assoc.
    apply (IH (pair_step st i nm) (seen ++ [(i, nm)])); [|exact R | exact F].
    intros j Fj. unfold pair_step in *.
    destruct (rar_number nm) as [k|].
    + destruct (takes_over (file_num st) k); cbn [file_id file_name] in *.
      * injection Fj as <-. exists nm. split; [reflexivity|].
        apply in_or_app. right. now left.
      * destruct (H j Fj) as (n & Hn & Hi). exists n. split; [exact Hn|].
        apply in_or_app. now left.
    + cbn [file_id file_name] in *.
      destruct (H j Fj) as (n & Hn & Hi). exists n. split; [exact Hn|].
      apply in_or_app. now left.
Qed.

(** X1.  What [sort_inner_files] does with an answer of NZBGet in which
    each file has a line with its id and, after it, a line with its
    name, among any number of other lines: the file that
    [select_top_part] names for these files is moved to the top, its
    name being printed, and nothing is moved when it names none. *)
Lemma sort_inner_files_run (h : host) (w : world) (v data : string) (nzb_id : Z)
  (ls : list listing_line) (listing : list (Z * string)) :
  environ h "NZBNA_NZBID" = Some v ->
  int_of_str v = Some nzb_id ->
  connection_known h = true ->
  jsonrpc h ("listfiles?1=0&2=0&3=" +++ str_of_int nzb_id) = Some (Text data) ->
  map scan_line (splitlines data) = map Some ls ->
  filter is_entry_line ls = lines_of listing ->
  (forall ids, editqueue h "FileMoveTop" ids = None) ->
  match select_top_part listing with
  | Some id =>
      exists moved,
        In (id, moved) listing /\
        sort_inner_files h w =
          (Done tt,
           logged w [HostGet ("listfiles?1=0&2=0&3=" +++ str_of_int nzb_id);
                     Print ("[INFO] Moving last rar-file to the top: " +++ moved);
                     EditQueue "FileMoveTop" [id]])
  | None =>
      sort_inner_files h w =
        (Done tt,
         logged w [HostGet ("listfiles?1=0&2=0&3=" +++ str_of_int nzb_id);
                   Print "[INFO] Skipping sorting since could not find any rar-files"])
  end.
Proof.
  intros V I C J S E Q.
  unfold select_top_part, sort_inner_files.
  destruct (rar_lines_total listing rar_init) as (st & R). rewrite R.
  rewrite V. unfold py_int, value_or_raise. rewrite I.
  rewrite (bind_done _ _ w nzb_id w) by reflexivity.
  set (url := "listfiles?1=0&2=0&3=" +++ str_of_int nzb_id) in *.
  rewrite (bind_done _ _ w data (logged w [HostGet url]))
    by (apply call_nzbget_direct_run; [exact C | now rewrite J]).
  rewrite (bind_done _ _ _ st (logged w [HostGet url]))
    by (rewrite (rar_loop_lines _ _ _ _ S), rar_lines_entries, E; now rewrite R).
  destruct (chosen st) as [id|] eqn:Ch.
  - assert (N : exists n, file_name st = Some n /\ In (id, n) listing).
    { unfold chosen in Ch. destruct (file_id st) as [i|] eqn:Fi; [|discriminate].
      destruct (i =? 0)%Z; [discriminate|]. injection Ch as <-.
      apply (rar_lines_named listing rar_init [] (fun j Fj => ltac:(discriminate)) st R).
      exact Fi. }
    destruct N as (n & Fn & Hin).
    exists (match file_name st with Some n => n | None => "None" end).
    split; [now rewrite Fn|].
    set (line := Print ("[INFO] Moving last rar-file to the top: "
                        +++ match file_name st with Some n => n | None => "None" end)).
    rewrite (bind_done _ _ _ tt (logged w [HostGet url; line])).
    2:{ unfold print, emit, logged. cbn [store trace]. now rewrite <- app_assoc. }
    rewrite (bind_done _ _ _ tt (logged w [HostGet url; line])).
    2:{ unfold connection_known, env_has in C.
        unfold connection_info, env_item, bind.
        destruct (environ h "NZBOP_CONTROLIP"); [|discriminate].
        destruct (environ h "NZBOP_CONTROLPORT"); [|discriminate].
        destruct (environ h "NZBOP_CONTROLUSERNAME"); [|discriminate].
        destruct (environ h "NZBOP_CONTROLPASSWORD"); [|discriminate].
        reflexivity. }
    unfold nzbget_editqueue, bind, emit, logged. rewrite Q.
    cbn [store trace ret]. now rewrite <- app_assoc.
  - unfold print, emit, logged. cbn [store trace]. now rewrite <- app_assoc.
Qed.

(** * Further properties of the script *)

(** ** What the two patterns accept *)

Section Patterns.

(** The search finds only what fits. *)
Lemma re_run_fits (p : regex) :
  forall group s g, re_run p group s = Some g -> fits p group s g.
Proof.
  induction p as [|a p IH]; intros group s g H.
  - simpl in *. congruence.
  - destruct a as [|c|].
    + (* AnyStar *)
      cbn [re_run] in H. cbn [fits].
      induction s as [|d s IHs].
      * exists EmptyString, EmptyString. auto.
      * destruct (Ascii.eqb d LF) eqn:E.
        -- exists EmptyString, (String d s). auto.
        -- match type of H with
           | match ?x with _ => _ end = _ => destruct x as [g0|] eqn:S
           end.
           ++ injection H as ->.
              destruct (IHs eq_refl) as (pre & s' & -> & N & F).
              exists (String d pre), s'. simpl. rewrite E, N. auto.
           ++ exists EmptyString, (String d s). auto.
    + (* Lit *)
      cbn [re_run] in H. cbn [fits].
      destruct s as [|d s]; [discriminate|].
      destruct (Ascii.eqb_spec (lower_char d) (lower_char c)) as [E|E]; [|discriminate].
      exists d, s. auto.
    + (* Digits *)
      cbn [re_run] in H. cbn [fits].
      assert (G : forall s taken,
        (fix more (taken s : string) {struct s} : option string :=
           match s with
           | EmptyString => None
           | String d s' =>
               if is_digit d
               then match more (taken +++ String d EmptyString) s' with
                    | Some g => Some g
                    | None => re_run p (taken +++ String d EmptyString) s'
                    end
               else None
           end) taken s = Some g ->
        exists ds s', s = ds +++ s' /\ ds <> EmptyString /\ all_digits ds = true
                      /\ fits p (taken +++ ds) s' g).
      { clear H s. induction s as [|d s IHs]; intros taken H; [discriminate|].
        destruct (is_digit d) eqn:D; [|discriminate].
        match type of H with
        | match ?x with _ => _ end = _ => destruct x as [g0|] eqn:S
        end.
        - injection H as ->.
          destruct (IHs _ S) as (ds & s' & -> & _ & A & F).
          exists (String d ds), s'. simpl. rewrite D, A.
          repeat split; [discriminate|].
          now rewrite append_assoc in F.
        - exists (String d EmptyString), s. simpl. rewrite D.
          repeat split; [discriminate|]. now apply IH. }
      exact (G s EmptyString H).
Qed.

(** The search finds something whenever something fits. *)
Lemma fits_re_run (p : regex) :
  forall group s g, fits p group s g -> exists g', re_run p group s = Some g'.
Proof.
  induction p as [|a p IH]; intros group s g F.
  - exists group. reflexivity.
  - destruct a as [|c|]; cbn [fits] in F; cbn [re_run].
    + destruct F as (pre & s' & -> & N & F).
      destruct (IH _ _ _ F) as (g1 & R). clear F.
      induction pre as [|d pre IHpre].
      * simpl. destruct s' as [|d s']; [eauto|].
        destruct (Ascii.eqb d LF); [eauto|].
        match goal with
        | |- exists _, match ?x with _ => _ end = _ => destruct x; eauto
        end.
      * simpl in N. apply andb_prop in N as [Nd N].
        apply negb_true_iff in Nd.
        destruct (IHpre N) as (g2 & S).
        cbn [append]. rewrite Nd. rewrite S. eauto.
    + destruct F as (d & s' & -> & E & F).
      rewrite E, Ascii.eqb_refl. eauto.
    + destruct F as (ds & s' & -> & Hne & A & F).
      assert (G : forall ds taken,
        ds <> EmptyString -> all_digits ds = true ->
        (exists g, fits p (taken +++ ds) s' g) ->
        exists g',
          (fix more (taken s : string) {struct s} : option string :=
             match s with
             | EmptyString => None
             | String d s' =>
                 if is_digit d
                 then match more (taken +++ String d EmptyString) s' with
                      | Some g => Some g
                      | None => re_run p (taken +++ String d EmptyString) s'
                      end
                 else None
             end) taken (ds +++ s') = Some g').
      { clear ds Hne A F. induction ds as [|d ds IHds]; intros taken Hne A [g0 F];
          [congruence|].
        simpl in A. apply andb_prop in A as [D A].
        cbn [append]. rewrite D.
        destruct ds as [|d' ds].
        - cbn [append].
          match goal with
          | |- exists _, match ?x with _ => _ end = _ => destruct x; [eauto|]
          end.
          apply (IH _ _ _ F).
        - destruct (IHds (taken +++ String d EmptyString)) as (g2 & S);
            [discriminate | exact A | |].
          + exists g0. now rewrite append_assoc.
          + rewrite S. eauto. }
      apply (G ds EmptyString Hne A). eauto.
Qed.

(** A run of literals fits a text of the same letters, whatever their
    case. *)
Lemma fits_lits (l : string) (p : regex) (group s g : string) :
  fits (lits l ++ p) group s g <->
  exists lit s', s = lit +++ s' /\ lower lit = lower l /\ fits p group s' g.
Proof.
  revert s. induction l as [|c l IH]; intros s.
  - cbn. split.
    + intros F. exists EmptyString, s. auto.
    + intros (lit & s' & -> & E & F). apply (proj1 (lower_empty _)) in E. now subst.
  - change (lits (String c l) ++ p) with (Lit c :: (lits l ++ p)).
    cbn [fits]. split.
    + intros (d & s' & -> & E & F). apply IH in F as (lit & s'' & -> & El & F).
      exists (String d lit), s''. simpl. rewrite E, El. auto.
    + intros (lit & s' & -> & E & F).
      destruct lit as [|d lit]; [discriminate|].
      simpl in E. injection E as Ed El.
      exists d, (lit +++ s'). repeat split; [exact Ed|].
      apply IH. exists lit, s'. auto.
Qed.

Lemma fits_regex1 (name g : string) :
  fits regex1 EmptyString name g <-> holds_volume ".part" ".rar" name g.
Proof.
  unfold regex1, holds_volume. cbn [fits]. split.
  - intros (pre & s1 & -> & N & F).
    apply fits_lits in F as (lit & s2 & -> & L & F).
    cbn [fits app] in F. destruct F as (ds & s3 & -> & Hne & A & F).
    apply (fits_lits ".rar" []) in F as (lit' & post & -> & L' & F).
    cbn in F. subst g.
    exists pre, lit, lit', post. auto 10.
  - intros (pre & lit & lit' & post & -> & N & L & Hne & A & L').
    exists pre, (lit +++ g +++ lit' +++ post). repeat split; [exact N|].
    apply fits_lits. exists lit, (g +++ lit' +++ post). repeat split; [exact L|].
    cbn [fits app]. exists g, (lit' +++ post). repeat split; auto.
    apply (fits_lits ".rar" []). exists lit', post. repeat split; auto.
Qed.

Lemma fits_regex2 (name g : string) :
  fits regex2 EmptyString name g <-> holds_volume ".r" EmptyString name g.
Proof.
  unfold regex2, holds_volume. cbn [fits]. split.
  - intros (pre & s1 & -> & N & F).
    apply fits_lits in F as (lit & s2 & -> & L & F).
    cbn [fits app] in F. destruct F as (ds & s3 & -> & Hne & A & F).
    subst g. exists pre, lit, EmptyString, s3. auto 10.
  - intros (pre & lit & lit' & post & -> & N & L & Hne & A & L').
    apply (proj1 (lower_empty _)) in L'. subst lit'.
    exists pre, (lit +++ g +++ post). repeat split; [exact N|].
    apply fits_lits. exists lit, (g +++ post). repeat split; [exact L|].
    cbn [fits app]. exists g, post. repeat split; auto.
Qed.

End Patterns.

(** X2.  [rar_number] gives a number exactly when the name holds, after a
    start without line feed, [.part], digits and [.rar], or [.r] and
    digits, in any case and not only at its end.  The number is the
    value of such a run of digits, and the first form is the one that
    counts when the name holds it. *)
Theorem rar_number_accepts (cur_name : string) :
  ((exists n, rar_number cur_name = Some n) <->
   (exists ds, holds_volume ".part" ".rar" cur_name ds)
   \/ (exists ds, holds_volume ".r" EmptyString cur_name ds))
  /\
  (forall n, rar_number cur_name = Some n ->
     exists ds, n = digits_value 0%N ds /\
       (holds_volume ".part" ".rar" cur_name ds
        \/ holds_volume ".r" EmptyString cur_name ds))
  /\
  (forall n, rar_number cur_name = Some n ->
     (exists ds, holds_volume ".part" ".rar" cur_name ds) ->
     exists ds, n = digits_value 0%N ds /\ holds_volume ".part" ".rar" cur_name ds).
Proof.
  assert (V : forall n, rar_number cur_name = Some n ->
     exists ds, n = digits_value 0%N ds /\
       (holds_volume ".part" ".rar" cur_name ds
        \/ (re_match regex1 cur_name = None
            /\ holds_volume ".r" EmptyString cur_name ds))).
  { intros n H. unfold rar_number, re_match in *.
    destruct (re_run regex1 EmptyString cur_name) as [g|] eqn:R1.
    - injection H as <-. exists g. split; [reflexivity|]. left.
      now apply fits_regex1, re_run_fits.
    - destruct (re_run regex2 EmptyString cur_name) as [g|] eqn:R2; [|discriminate].
      injection H as <-. exists g. split; [reflexivity|]. right.
      split; [reflexivity|]. now apply fits_regex2, re_run_fits. }
  split; [split|split].
  - intros [n H]. destruct (V n H) as (ds & _ & [A|[_ B]]); eauto.
  - intros [[ds A]|[ds B]]; unfold rar_number, re_match.
    + apply fits_regex1, fits_re_run in A as [g ->]. eauto.
    + apply fits_regex2, fits_re_run in B as [g ->].
      destruct (re_run regex1 EmptyString cur_name); eauto.
  - intros n H. destruct (V n H) as (ds & E & [A|[_ B]]); eauto.
  - intros n H [ds0 A0]. destruct (V n H) as (ds & E & [A|[N _]]); [eauto|].
    apply fits_regex1, fits_re_run in A0 as [g R].
    unfold re_match in N. congruence.
Qed.

Lemma rar_number_accepts_witness :
  exists ds, 10%N = digits_value 0%N ds /\
    (holds_volume ".part" ".rar" "a.PART10.RAR.bak" ds
     \/ holds_volume ".r" EmptyString "a.PART10.RAR.bak" ds).
Proof.
  exact (proj1 (proj2 (rar_number_accepts "a.PART10.RAR.bak")) 10%N eq_refl).
Defined.

(** ** The file [sort_inner_files] chooses *)

Section Choice.

Local Open Scope N_scope.

Lemma selection_inv_step (st : rar_state) (seen : list (Z * string)) (id : Z)
  (cur_name : string) :
  selection_inv st seen ->
  selection_inv (pair_step st id cur_name) (seen ++ [(id, cur_name)]).
Proof.
  unfold selection_inv, pair_step. intros I.
  destruct (rar_number cur_name) as [k|] eqn:E.
  - destruct (file_num st) as [n|] eqn:Fn; destruct (file_id st) as [i|] eqn:Fi;
      try contradiction.
    + destruct I as [(nm & Hin & Hn) Hmax]. unfold takes_over.
      destruct (N.eqb_spec n 0) as [Z0|Z0]; [|destruct (N.ltb_spec n k) as [L|L]]; simpl.
      * split; [exists cur_name; split; [apply in_or_app; right; now left | exact E]|].
        intros p j Hp Hj. apply in_app_or in Hp as [Hp|[<-|[]]].
        -- specialize (Hmax p j Hp Hj). lia.
        -- simpl in Hj. assert (j = k) by congruence. lia.
      * split; [exists cur_name; split; [apply in_or_app; right; now left | exact E]|].
        intros p j Hp Hj. apply in_app_or in Hp as [Hp|[<-|[]]].
        -- specialize (Hmax p j Hp Hj). lia.
        -- simpl in Hj. assert (j = k) by congruence. lia.
      * split; [exists nm; split; [apply in_or_app; now left | exact Hn]|].
        intros p j Hp Hj. apply in_app_or in Hp as [Hp|[<-|[]]].
        -- exact (Hmax p j Hp Hj).
        -- simpl in Hj. assert (j = k) by congruence. lia.
    + simpl.
      split; [exists cur_name; split; [apply in_or_app; right; now left | exact E]|].
      intros p j Hp Hj. apply in_app_or in Hp as [Hp|[<-|[]]].
      * rewrite (I p Hp) in Hj. discriminate.
      * simpl in Hj. assert (j = k) by congruence. lia.
  - simpl. destruct (file_num st) as [n|]; destruct (file_id st) as [i|];
      try contradiction.
    + destruct I as [(nm & Hin & Hn) Hmax].
      split; [exists nm; split; [apply in_or_app; now left | exact Hn]|].
      intros p j Hp Hj. apply in_app_or in Hp as [Hp|[<-|[]]].
      * exact (Hmax p j Hp Hj).
      * simpl in Hj. congruence.
    + intros p Hp. apply in_app_or in Hp as [Hp|[<-|[]]]; [now apply I | exact E].
Qed.

Lemma selection_inv_run (rest : list (Z * string)) :
  forall st seen,
    selection_inv st seen ->
    exists st', rar_lines st (lines_of rest) = Some st'
                /\ selection_inv st' (seen ++ rest).
Proof.
  induction rest as [|[id nm] rest IH]; intros st seen I.
  - exists st. rewrite app_nil_r. auto.
  - rewrite rar_lines_pair.
    destruct (IH _ _ (selection_inv_step st seen id nm I)) as (st' & R & I').
    exists st'. split; [exact R|]. now rewrite <- app_assoc in I'.
Qed.

End Choice.

(** X3.  The file [sort_inner_files] chooses carries the highest number
    of all matching names of the listing. *)
Theorem selected_file_has_highest_number (listing : list (Z * string)) (id : Z) :
  select_top_part listing = Some id ->
  exists cur_name n,
    In (id, cur_name) listing /\ rar_number cur_name = Some n /\
    forall p k, In p listing -> rar_number (snd p) = Some k -> (k <= n)%N.
Proof.
  unfold select_top_part. intros H.
  destruct (selection_inv_run listing rar_init [] (fun _ F => match F with end))
    as (st & R & I).
  rewrite R in H. unfold chosen in H. unfold selection_inv in I. simpl in I.
  destruct (file_id st) as [i|]; [|discriminate].
  destruct (Z.eqb i 0); [discriminate|]. injection H as ->.
  destruct (file_num st) as [n|]; [|contradiction].
  destruct I as [(nm & Hin & Hn) Hmax]. exists nm, n. auto.
Qed.

Lemma selected_file_has_highest_number_witness :
  exists cur_name n,
    In (5%Z, cur_name) [(2, "a.part02.rar"); (5, "a.part10.rar"); (9, "a.r1")]%Z /\
    rar_number cur_name = Some n /\
    forall p k, In p [(2, "a.part02.rar"); (5, "a.part10.rar"); (9, "a.r1")]%Z ->
                rar_number (snd p) = Some k -> (k <= n)%N.
Proof.
  exact (selected_file_has_highest_number
           [(2, "a.part02.rar"); (5, "a.part10.rar"); (9, "a.r1")]%Z 5%Z eq_refl).
Defined.

(** X4.  When no file id of the listing is 0, [sort_inner_files] chooses
    no file exactly when no name of the listing matches. *)
Theorem nothing_selected_iff_nothing_matches (listing : list (Z * string)) :
  (forall p, In p listing -> fst p <> 0%Z) ->
  (select_top_part listing = None <->
   forall p, In p listing -> rar_number (snd p) = None).
Proof.
  intros Hid. split; [|apply select_top_part_none].
  unfold select_top_part.
  destruct (selection_inv_run listing rar_init [] (fun _ F => match F with end))
    as (st & R & I).
  rewrite R. unfold chosen, selection_inv in *. simpl in I.
  destruct (file_num st) as [n|]; destruct (file_id st) as [i|];
    try contradiction; [|intros _; exact I].
  destruct I as [(nm & Hin & _) _].
  destruct (Z.eqb_spec i 0) as [->|]; [|discriminate].
  now apply Hid in Hin.
Qed.

Lemma nothing_selected_iff_nothing_matches_witness :
  select_top_part [(3, "readme.txt"); (4, "a.rar")]%Z = None <->
  forall p, In p [(3, "readme.txt"); (4, "a.rar")]%Z -> rar_number (snd p) = None.
Proof.
  apply (nothing_selected_iff_nothing_matches [(3, "readme.txt"); (4, "a.rar")]%Z).
  intros p [<-|[<-|[]]]; discriminate.
Defined.

(** ** More on what scripts emit, how they exit, what they leave *)

Lemma emits_weaken {A} (P Q : event -> bool) (m : script A) :
  (forall e, P e = true -> Q e = true) -> emits P m -> emits Q m.
Proof.
  intros H E w. destruct (E w) as (evs & T & F). exists evs. split; [exact T|].
  rewrite forallb_forall in *. auto.
Qed.

Lemma emits_bind_stops {A B} (P : event -> bool) (m : script A) (k : A -> script B) :
  stops m -> emits P m -> emits P (bind m k).
Proof.
  intros S E w. specialize (S w). destruct (E w) as (evs & T & F).
  exists evs. split; [|exact F]. unfold bind.
  destruct (m w) as [[a|c|e] w1]; simpl in *; [contradiction | exact T | exact T].
Qed.

Lemma stops_raise {A} (e : string) : stops (@raise A e).
Proof. intros w; exact I. Qed.

Lemma exits_with_ret {A} (c : Z) (a : A) : exits_with c (ret a).
Proof. intros w code H; discriminate. Qed.

Lemma exits_with_raise {A} (c : Z) (e : string) : exits_with c (@raise A e).
Proof. intros w code H; discriminate. Qed.

Lemma exits_with_exit {A} (c : Z) : exits_with c (@sys_exit A c).
Proof. intros w code H. simpl in H. congruence. Qed.

Lemma exits_with_emit (c : Z) (e : event) : exits_with c (emit e).
Proof. intros w code H; discriminate. Qed.

Lemma exits_with_get_store (c : Z) : exits_with c get_store.
Proof. intros w code H; discriminate. Qed.

Lemma exits_with_set_store (c : Z) s : exits_with c (set_store s).
Proof. intros w code H; discriminate. Qed.

Lemma exits_with_bind {A B} (c : Z) (m : script A) (k : A -> script B) :
  exits_with c m -> (forall a, exits_with c (k a)) -> exits_with c (bind m k).
Proof.
  intros Hm Hk w code. unfold bind. specialize (Hm w).
  destruct (m w) as [[a|c'|e] w1]; simpl in *.
  - apply Hk.
  - intros H. apply Hm. injection H as ->. reflexivity.
  - discriminate.
Qed.

Lemma keeps_store_ret {A} (a : A) : keeps_store (ret a).
Proof. intros w; reflexivity. Qed.

Lemma keeps_store_raise {A} (e : string) : keeps_store (@raise A e).
Proof. intros w; reflexivity. Qed.

Lemma keeps_store_exit {A} (c : Z) : keeps_store (@sys_exit A c).
Proof. intros w; reflexivity. Qed.

Lemma keeps_store_emit (e : event) : keeps_store (emit e).
Proof. intros w; reflexivity. Qed.

Lemma keeps_store_get_store : keeps_store get_store.
Proof. intros w; reflexivity. Qed.

Lemma keeps_store_bind {A B} (m : script A) (k : A -> script B) :
  keeps_store m -> (forall a, keeps_store (k a)) -> keeps_store (bind m k).
Proof.
  intros Hm Hk w. unfold bind. specialize (Hm w).
  destruct (m w) as [[a|c|e] w1]; simpl in *; [|exact Hm|exact Hm].
  now rewrite Hk.
Qed.

Ltac exits_step :=
  first
    [ apply exits_with_bind; [|intros ?]
    | apply exits_with_ret
    | apply exits_with_raise
    | apply exits_with_exit
    | apply exits_with_emit
    | apply exits_with_get_store
    | apply exits_with_set_store
    | match goal with
      | |- exits_with _ (match ?x with _ => _ end) => destruct x
      end ].

Ltac keeps_step :=
  first
    [ apply keeps_store_bind; [|intros ?]
    | apply keeps_store_ret
    | apply keeps_store_raise
    | apply keeps_store_exit
    | apply keeps_store_emit
    | apply keeps_store_get_store
    | match goal with
      | |- keeps_store (match ?x with _ => _ end) => destruct x
      end ].

Lemma prefix_empty (s : string) : String.prefix EmptyString s = true.
Proof. destruct s; reflexivity. Qed.

Ltac emit_ok :=
  first [ reflexivity | cbn; rewrite ?prefix_empty; reflexivity ].

Ltac emits_step2 :=
  first
    [ apply emits_bind; [|intros ?]
    | apply emits_ret
    | apply emits_raise
    | apply emits_exit
    | apply emits_get_store
    | apply emits_set_store
    | apply emits_emit; emit_ok
    | match goal with
      | |- emits _ (match ?x with _ => _ end) => destruct x
      end ].

Section Footprints.

Variable order : set_order.
Variable h : host.

Lemma emits_rar_loop (P : event -> bool) (lines : list string) :
  forall st, emits P (rar_loop st lines).
Proof.
  induction lines as [|line lines IH]; intros st; cbn [rar_loop]; [apply emits_ret|].
  unfold value_or_raise. repeat first [apply IH | emits_step2].
Qed.

Lemma exits_with_rar_loop (c : Z) (lines : list string) :
  forall st, exits_with c (rar_loop st lines).
Proof.
  induction lines as [|line lines IH]; intros st; cbn [rar_loop]; [apply exits_with_ret|].
  unfold value_or_raise. repeat first [apply IH | exits_step].
Qed.

Lemma keeps_store_rar_loop (lines : list string) :
  forall st, keeps_store (rar_loop st lines).
Proof.
  induction lines as [|line lines IH]; intros st; cbn [rar_loop]; [apply keeps_store_ret|].
  unfold value_or_raise. repeat first [apply IH | keeps_step].
Qed.

Lemma emits_sort_inner_files : emits sort_event (sort_inner_files h).
Proof.
  unfold sort_inner_files, py_int, value_or_raise, call_nzbget_direct, ensure_str, connection_info,
    env_item, nzbget_editqueue, print.
  repeat first [apply emits_rar_loop | emits_step2].
Qed.

Lemma exits_with_sort_inner_files (c : Z) : exits_with c (sort_inner_files h).
Proof.
  unfold sort_inner_files, py_int, value_or_raise, call_nzbget_direct, ensure_str, connection_info,
    env_item, nzbget_editqueue, print.
  repeat first [apply exits_with_rar_loop | exits_step].
Qed.

Lemma keeps_store_sort_inner_files : keeps_store (sort_inner_files h).
Proof.
  unfold sort_inner_files, py_int, value_or_raise, call_nzbget_direct, ensure_str, connection_info,
    env_item, nzbget_editqueue, print.
  repeat first [apply keeps_store_rar_loop | keeps_step].
Qed.

Lemma emits_scan_files (t : tmp_file) (dir_name : string) (files : list string) :
  forall tested, emits detect_event (scan_files h t dir_name files tested).
Proof.
  induction files as [|file files IH]; intros tested; cbn [scan_files].
  - unfold save_tested. repeat emits_step2.
  - unfold print. repeat first [apply IH | emits_step2].
Qed.

Lemma emits_contains_password (t : tmp_file) (dir_name : string) :
  emits detect_event (contains_password order h t dir_name).
Proof.
  unfold contains_password, get_latest_file, create_tmp_file, print.
  repeat first [apply emits_scan_files | emits_step2].
Qed.

Lemma exits_with_scan_files (c : Z) (t : tmp_file) (dir_name : string)
  (files : list string) :
  forall tested, exits_with c (scan_files h t dir_name files tested).
Proof.
  induction files as [|file files IH]; intros tested; cbn [scan_files].
  - unfold save_tested. repeat exits_step.
  - unfold print. repeat first [apply IH | exits_step].
Qed.

Lemma emits_clean_event_remove_all (temp_folder : string) (old : list string) :
  emits clean_event (remove_all temp_folder old).
Proof.
  induction old as [|temp_id old IH]; cbn [remove_all]; [apply emits_ret|].
  unfold print. repeat first [exact IH | emits_step2].
Qed.

Lemma emits_clean_event_clean_up : emits clean_event (clean_up order h).
Proof.
  unfold clean_up, env_plus, value_or_raise, call_nzbget_direct, ensure_str,
    connection_info, env_item.
  repeat first [apply emits_clean_event_remove_all | emits_step2].
Qed.

Lemma exits_with_remove_all (c : Z) (temp_folder : string) (old : list string) :
  exits_with c (remove_all temp_folder old).
Proof.
  induction old as [|temp_id old IH]; cbn [remove_all]; [apply exits_with_ret|].
  unfold print. repeat first [exact IH | exits_step].
Qed.

Lemma exits_with_clean_up (c : Z) : exits_with c (clean_up order h).
Proof.
  unfold clean_up, env_plus, value_or_raise, call_nzbget_direct, ensure_str,
    connection_info, env_item.
  repeat first [apply exits_with_remove_all | exits_step].
Qed.

End Footprints.

(** ** [start_check]: the checks before detection *)

Ltac stops_inner :=
  first [ apply stops_exit | apply stops_bind_r; intros _; stops_inner ].

Section Gates.

Variable order : set_order.
Variable h : host.

Lemma start_check_passes (w : world) :
  gates_pass h = true -> start_check order h w = (Done tt, w).
Proof.
  unfold gates_pass, called_from_nzbget. intros G.
  repeat (apply andb_prop in G as [G ?]).
  unfold start_check, bind.
  repeat match goal with
         | H : negb _ = true |- _ => apply negb_true_iff in H
         end.
  repeat match goal with
         | H : _ = _ |- _ => rewrite H
         end.
  reflexivity.
Qed.

Lemma start_check_blocked :
  gates_pass h = false -> stops (start_check order h).
Proof.
  unfold gates_pass, called_from_nzbget. intros G. unfold start_check.
  destruct (env_has h "NZBNA_EVENT" || env_has h "NZBPP_DIRECTORY");
    [|apply stops_bind_l; cbn [negb orb]; stops_inner].
  destruct (env_has h "NZBOP_ARTICLECACHE");
    [|apply stops_bind_l; cbn [negb orb]; stops_inner].
  apply stops_bind_r; intros _.
  destruct (known_event h); [|apply stops_bind_l; cbn [negb]; stops_inner].
  apply stops_bind_r; intros _.
  destruct (env_is h "NZBPP_STATUS" "FAILURE/BAD"); [apply stops_bind_l; stops_inner|].
  apply stops_bind_r; intros _.
  destruct (env_is h flag "yes"); [apply stops_bind_l; stops_inner|].
  apply stops_bind_r; intros _.
  destruct (env_has h "NZBPR_*Unpack:Password"); [apply stops_bind_l; stops_inner|].
  apply stops_bind_r; intros _.
  destruct (directory_missing h); [apply stops_bind_l; stops_inner|].
  apply stops_bind_r; intros _.
  destruct (env_is h "NZBPP_TOTALSTATUS" "FAILURE"); [apply stops_bind_l; stops_inner|].
  apply stops_bind_r; intros _.
  destruct (env_has h "NZBPO_PASSACTION"); [discriminate|].
  cbn [negb]. stops_inner.
Qed.

End Gates.

(** X5.  [start_check] lets the run go on exactly when all its checks
    pass: the call comes from NZBGet, the event is one it knows, the
    download is not marked bad, no password was found or defined before,
    the destination directory is there, the download has not failed and
    the option PassAction is set.  It has then printed nothing and
    changed nothing. *)
Theorem start_check_gates (order : set_order) (h : host) (w : world) :
  (gates_pass h = true -> start_check order h w = (Done tt, w)) /\
  (gates_pass h = false -> forall a w', start_check order h w <> (Done a, w')).
Proof.
  split.
  - apply start_check_passes.
  - intros G a w' E. pose proof (start_check_blocked order h G w) as S.
    rewrite E in S. exact S.
Qed.

Lemma start_check_gates_witness :
  start_check listing_order Scenario.first_locked Scenario.fresh
    = (Done tt, Scenario.fresh) /\
  forall a w',
    start_check listing_order Scenario.marked_but_clean Scenario.fresh <> (Done a, w').
Proof.
  split.
  - exact (proj1 (start_check_gates listing_order Scenario.first_locked Scenario.fresh)
             eq_refl).
  - exact (proj2 (start_check_gates listing_order Scenario.marked_but_clean
                    Scenario.fresh) eq_refl).
Defined.

(** X6.  The exits of [start_check] that touch nothing.  A call from
    outside NZBGet ends with code 1 after two lines; an event the script
    does not know ends with code 0 and not a line; a missing option
    PassAction, when all else is in order, ends with the error code after
    one error line.  The temp folder is not looked at in any of them. *)
Theorem start_check_plain_exits (order : set_order) (h : host) (w : world) :
  (called_from_nzbget h = false ->
   start_check order h w =
     (Exit 1,
      logged w [Print "*** NZBGet queue script ***";
                Print "This script is supposed to be called from nzbget (14.0 or later)."]))
  /\
  (called_from_nzbget h = true -> known_event h = false ->
   start_check order h w = (Exit 0, w))
  /\
  (called_from_nzbget h = true -> known_event h = true ->
   env_is h "NZBPP_STATUS" "FAILURE/BAD" = false ->
   env_is h flag "yes" = false ->
   env_has h "NZBPR_*Unpack:Password" = false ->
   directory_missing h = false ->
   env_is h "NZBPP_TOTALSTATUS" "FAILURE" = false ->
   env_has h "NZBPO_PASSACTION" = false ->
   start_check order h w =
     (Exit POSTPROCESS_ERROR,
      logged w [Print "[ERROR] Option PASSACTION is missing in configuration file. Please check script settings"])).
Proof.
  unfold called_from_nzbget. repeat split.
  - intros C. unfold start_check, bind.
    apply andb_false_iff in C.
    assert (E : negb (env_has h "NZBNA_EVENT" || env_has h "NZBPP_DIRECTORY")
                || negb (env_has h "NZBOP_ARTICLECACHE") = true)
      by (destruct C as [-> | ->]; [reflexivity | apply orb_true_r]).
    rewrite E. unfold print, emit, sys_exit, logged. cbn [store trace].
    now rewrite <- app_assoc.
  - intros C K. apply andb_prop in C as [C1 C2].
    unfold start_check, bind. rewrite C1, C2, K. reflexivity.
  - intros C K S F U D T A. apply andb_prop in C as [C1 C2].
    unfold start_check, bind. rewrite C1, C2, K, S, F, U, D, T, A. reflexivity.
Qed.

Lemma start_check_plain_exits_witness :
  start_check listing_order
    (Scenario.a_host [("NZBNA_EVENT", "URL_COMPLETED"); ("NZBOP_ARTICLECACHE", "0")]
       [] (fun _ => ProbeRaised EmptyString) None)
    Scenario.four_stored
  = (Exit 0, Scenario.four_stored).
Proof.
  exact (proj1 (proj2 (start_check_plain_exits listing_order
           (Scenario.a_host [("NZBNA_EVENT", "URL_COMPLETED"); ("NZBOP_ARTICLECACHE", "0")]
              [] (fun _ => ProbeRaised EmptyString) None)
           Scenario.four_stored)) eq_refl eq_refl).
Defined.

(** ** [main]: runs that do not reach detection *)

Lemma no_detection_no_probe (e : event) : no_detection e = true -> no_probe e = true.
Proof. unfold no_detection, no_probe. intros H. now apply andb_prop in H. Qed.

Lemma no_detection_no_clear (e : event) : no_detection e = true -> no_clear e = true.
Proof. unfold no_detection, no_clear. intros H. now apply andb_prop in H. Qed.

Lemma sort_event_no_probe (e : event) : sort_event e = true -> no_probe e = true.
Proof. destruct e; simpl; auto; discriminate. Qed.

Lemma sort_event_no_clear (e : event) : sort_event e = true -> no_clear e = true.
Proof.
  destruct e as [line| | | |]; simpl; auto. intros H. unfold no_clear. simpl.
  destruct (String.eqb_spec line "[NZB] NZBPR_PASSWORDDETECTOR_HASPASSWORD=") as [->|];
    [vm_compute in H; discriminate | reflexivity].
Qed.

Lemma detect_event_no_clear (e : event) : detect_event e = true -> no_clear e = true.
Proof.
  destruct e as [line| | | |]; simpl; auto. intros H. unfold no_clear. simpl.
  destruct (String.eqb_spec line "[NZB] NZBPR_PASSWORDDETECTOR_HASPASSWORD=") as [->|];
    [vm_compute in H; discriminate | reflexivity].
Qed.

(** X7.  Whenever one of the checks of [start_check] fails, the run ends
    inside [start_check]: [main] exits or fails where [start_check] does
    and no file is probed.  A password defined before by a scan script
    or by the user is one such case: a queue-script call that passes
    the checks before it prints one line and ends with the code of
    success. *)
Theorem failed_check_skips_detection (order : set_order) (h : host) (w : world) :
  (gates_pass h = false ->
   exists w' evs,
     trace w' = trace w ++ evs /\
     forallb no_probe evs = true /\
     ((exists code, start_check order h w = (Exit code, w')
                    /\ main order h w = (Exit code, w')) \/
      (exists e, start_check order h w = (Raise e, w')
                 /\ main order h w = (Raise e, w'))))
  /\
  (env_has h "NZBPR_*Unpack:Password" = true ->
   called_from_nzbget h = true -> known_event h = true ->
   env_is h "NZBPP_STATUS" "FAILURE/BAD" = false ->
   env_is h flag "yes" = false ->
   env_has h "NZBPP_DIRECTORY" = false ->
   main order h w =
     (Exit POSTPROCESS_SUCCESS,
      logged w [Print "[DETAIL] Password previously defined, skipping detection"])).
Proof.
  split.
  - intros G.
    destruct (emits_weaken _ _ _ no_detection_no_probe (emits_start_check order h) w)
      as (evs & T & Q).
    exists (snd (start_check order h w)), evs.
    split; [exact T|]. split; [exact Q|].
    unfold main.
    exact (bind_stops (start_check order h) _ w (start_check_blocked order h G)).
  - unfold called_from_nzbget. intros U C K S F D.
    apply andb_prop in C as [C1 C2].
    unfold main, start_check, bind. rewrite C1, C2, K, S, F, U, D. reflexivity.
Qed.

Lemma failed_check_skips_detection_witness :
  main listing_order
    (Scenario.a_host (("NZBPR_*Unpack:Password", "secret") :: Scenario.queue_settings)
       ["a.rar"] (fun _ => ProbeOutput EmptyString "wrong password" 3) None)
    Scenario.fresh
  = (Exit POSTPROCESS_SUCCESS,
     logged Scenario.fresh
       [Print "[DETAIL] Password previously defined, skipping detection"]).
Proof.
  exact (proj2 (failed_check_skips_detection listing_order
           (Scenario.a_host (("NZBPR_*Unpack:Password", "secret") :: Scenario.queue_settings)
              ["a.rar"] (fun _ => ProbeOutput EmptyString "wrong password" 3) None)
           Scenario.fresh)
         eq_refl eq_refl eq_refl eq_refl eq_refl eq_refl).
Defined.

Section Whole.

Variable order : set_order.
Variable h : host.

Lemma emits_no_clear_password_found (Prefix NzbName : string) :
  emits no_clear (password_found h Prefix NzbName).
Proof.
  unfold password_found, pause_nzb, py_int, value_or_raise, nzbget_editqueue,
    connection_info, env_item, print.
  repeat emits_step2.
Qed.

Lemma emits_no_clear_main : emits no_clear (main order h).
Proof.
  destruct (env_is h flag "yes") eqn:F.
  - unfold main. apply emits_bind_stops.
    + apply start_check_blocked. unfold gates_pass. rewrite F.
      cbn [negb]. now rewrite !andb_false_r.
    + exact (emits_weaken _ _ _ no_detection_no_clear (emits_start_check order h)).
  - unfold main, when. rewrite F. unfold env_plus, env_item, print.
    repeat first
      [ exact (emits_weaken _ _ _ no_detection_no_clear (emits_start_check order h))
      | exact (emits_weaken _ _ _ no_detection_no_clear (emits_clean_up order h))
      | exact (emits_weaken _ _ _ sort_event_no_clear (emits_sort_inner_files h))
      | exact (emits_weaken _ _ _ detect_event_no_clear
                 (emits_contains_password order h _ _))
      | apply emits_no_clear_password_found
      | emits_step2 ].
Qed.

End Whole.

(** ** The lines of standard output *)

Lemma split_not_empty (sep : ascii) (s : string) : split sep s <> [].
Proof.
  destruct s as [|c s]; cbn [split]; [discriminate|].
  destruct (Ascii.eqb c sep); [discriminate|].
  destruct (split sep s); discriminate.
Qed.

Lemma no_LF_append (a b : string) : no_LF (a +++ b) = no_LF a && no_LF b.
Proof.
  induction a as [|c a IH]; [reflexivity|].
  cbn [append no_LF]. rewrite IH. apply andb_assoc.
Qed.

Lemma split_no_LF (s : string) : no_LF s = true -> split LF s = [s].
Proof.
  induction s as [|c s IH]; [reflexivity|].
  cbn [no_LF split]. intros H. apply andb_prop in H as [Hc Hs].
  apply negb_true_iff in Hc. rewrite Hc, (IH Hs). reflexivity.
Qed.

(** A text printed ends its last line. *)
Lemma split_printed (a b : string) :
  split LF (a +++ NL +++ b) = split LF a ++ split LF b.
Proof.
  induction a as [|c a IH]; [reflexivity|].
  cbn [append split]. rewrite IH.
  destruct (Ascii.eqb c LF); [reflexivity|].
  destruct (split LF a) as [|l ls] eqn:E; [|reflexivity].
  now apply split_not_empty in E.
Qed.

(** Every line of standard output is a line of a text printed. *)
Lemma in_stdout_lines (evs : list event) (l : string) :
  In l (stdout_lines evs) ->
  l = EmptyString \/ exists text, In (Print text) evs /\ In l (split LF text).
Proof.
  unfold stdout_lines. induction evs as [|e evs IH]; cbn [stdout].
  - intros [<-|[]]. now left.
  - destruct e as [line| | | |];
      try (intros H; destruct (IH H) as [E|(text & Hin & Hl)];
           [now left | right; exists text; split; [now right | exact Hl]]).
    rewrite split_printed. intros H. apply in_app_or in H as [H|H].
    + right. exists line. split; [now left | exact H].
    + destruct (IH H) as [E|(text & Hin & Hl)];
        [now left | right; exists text; split; [now right | exact Hl]].
Qed.

(** When every text printed is one line, the lines of standard output
    are the texts printed. *)
Lemma stdout_lines_plain (evs : list event) (l : string) :
  forallb plain evs = true -> l <> EmptyString ->
  (In l (stdout_lines evs) <-> In (Print l) evs).
Proof.
  unfold stdout_lines. intros P N. induction evs as [|e evs IH]; cbn [stdout].
  - split; [intros [E|[]]; now symmetry in E | intros []].
  - cbn [forallb] in P. apply andb_prop in P as [Pe P]. specialize (IH P).
    destruct e as [line| | | |];
      try (rewrite IH; split; [now right | intros [E|H]; [discriminate | exact H]]).
    cbn [plain] in Pe. rewrite split_printed, (split_no_LF line Pe).
    cbn [app In]. rewrite IH. split.
    + intros [<-|H]; [now left | now right].
    + intros [E|H]; [injection E as <-; now left | now right].
Qed.

(** X8.  No run of the script takes the mark of a found password back,
    whatever the settings, the files and the answers of unrar and
    NZBGet: no [print] is given the line that would do it (the statement
    of [main] that prints it is never reached), and the line can stand
    on standard output only inside a text printed that holds a line
    feed, as a name or a path given to the script may. *)
Theorem mark_is_never_taken_back (order : set_order) (h : host) (w : world) :
  exists evs,
    trace (snd (run order h w)) = trace w ++ evs /\
    existsb clears_flag evs = false /\
    (In clear_line (stdout_lines evs) ->
     exists text, In (Print text) evs /\ no_LF text = false).
Proof.
  assert (E : emits no_clear (run order h)).
  { unfold run. apply emits_bind; [apply emits_no_clear_main | intros _; apply emits_exit]. }
  destruct (E w) as (evs & T & F). exists evs. split; [exact T|].
  clear T.
  assert (C : existsb clears_flag evs = false).
  { induction evs as [|e evs IH]; [reflexivity|].
    simpl in *. apply andb_prop in F as [Fe F]. unfold no_clear in Fe.
    apply negb_true_iff in Fe. rewrite Fe. now apply IH. }
  split; [exact C|].
  intros I. apply in_stdout_lines in I as [I|(text & Hin & Hl)]; [discriminate|].
  exists text. split; [exact Hin|].
  destruct (no_LF text) eqn:N; [exfalso | reflexivity].
  rewrite (split_no_LF text N) in Hl. destruct Hl as [Hl|[]]. subst text.
  assert (C' : existsb clears_flag evs = true).
  { apply existsb_exists. exists (Print clear_line). split; [exact Hin | reflexivity]. }
  congruence.
Qed.

Lemma exits_with_bind_stops {A B} (c : Z) (m : script A) (k : A -> script B) :
  stops m -> exits_with c m -> exits_with c (bind m k).
Proof.
  intros S E w code. specialize (S w). specialize (E w). unfold bind.
  destruct (m w) as [[a|c'|e] w1]; simpl in *; [contradiction | | discriminate].
  intros H. apply E. injection H as ->. reflexivity.
Qed.

Lemma keeps_store_bind_stops {A B} (m : script A) (k : A -> script B) :
  stops m -> keeps_store m -> keeps_store (bind m k).
Proof.
  intros S E w. specialize (S w). specialize (E w). unfold bind.
  destruct (m w) as [[a|c'|e] w1]; simpl in *; [contradiction | exact E | exact E].
Qed.

Section Added.

Variable order : set_order.
Variable h : host.
Hypothesis added : env_is h "NZBNA_EVENT" "NZB_ADDED" = true.

Lemma emits_no_probe_main_added : emits no_probe (main order h).
Proof.
  unfold main. rewrite added. cbn [orb]. cbv zeta.
  apply emits_bind;
    [exact (emits_weaken _ _ _ no_detection_no_probe (emits_start_check order h))
    | intros _].
  do 5 (apply emits_bind; [unfold env_item, env_plus; repeat emits_step2 | intros ?]).
  apply emits_bind_stops.
  - apply stops_bind_r; intros _. apply stops_exit.
  - unfold print.
    repeat first
      [ exact (emits_weaken _ _ _ sort_event_no_probe (emits_sort_inner_files h))
      | emits_step2 ].
Qed.

Lemma stops_main_added : stops (main order h).
Proof.
  unfold main. rewrite added. cbn [orb]. cbv zeta.
  do 6 (apply stops_bind_r; intros ?).
  apply stops_bind_l. apply stops_bind_r; intros _. apply stops_exit.
Qed.

Lemma exits_with_main_added :
  gates_pass h = true -> exits_with POSTPROCESS_NONE (main order h).
Proof.
  intros G. unfold main. rewrite added. cbn [orb]. cbv zeta.
  apply exits_with_bind;
    [intros w code; rewrite (start_check_passes order h w G); discriminate | intros _].
  do 5 (apply exits_with_bind; [unfold env_item, env_plus; repeat exits_step | intros ?]).
  apply exits_with_bind_stops.
  - apply stops_bind_r; intros _. apply stops_exit.
  - unfold print.
    repeat first [ apply exits_with_sort_inner_files | exits_step ].
Qed.

Lemma keeps_store_main_added :
  gates_pass h = true -> keeps_store (main order h).
Proof.
  intros G. unfold main. rewrite added. cbn [orb]. cbv zeta.
  apply keeps_store_bind;
    [intros w; now rewrite (start_check_passes order h w G) | intros _].
  do 5 (apply keeps_store_bind; [unfold env_item, env_plus; repeat keeps_step | intros ?]).
  apply keeps_store_bind_stops.
  - apply stops_bind_r; intros _. apply stops_exit.
  - unfold print.
    repeat first [ apply keeps_store_sort_inner_files | keeps_step ].
Qed.

End Added.

(** X9.  When a download is added to the queue the script sorts and
    stops: it probes no file and never goes on to detection.  When the
    checks of [start_check] pass it also leaves the temp folder alone,
    and if it exits it is with the code for no opinion. *)
Theorem added_job_is_only_sorted (order : set_order) (h : host) (w : world) :
  env_is h "NZBNA_EVENT" "NZB_ADDED" = true ->
  (exists evs, trace (snd (main order h w)) = trace w ++ evs
               /\ forallb no_probe evs = true) /\
  (forall a, fst (main order h w) <> Done a) /\
  (gates_pass h = true ->
   store (snd (main order h w)) = store w /\
   forall code, fst (main order h w) = Exit code -> code = POSTPROCESS_NONE).
Proof.
  intros A. split; [exact (emits_no_probe_main_added order h A w)|]. split.
  - intros a E. pose proof (stops_main_added order h A w) as S.
    rewrite E in S. exact S.
  - intros G. split.
    + exact (keeps_store_main_added order h A G w).
    + exact (exits_with_main_added order h A G w).
Qed.

(** ** The record of tested names, call after call *)

Lemma write_file_same (n content : string) (entries : list (string * string)) :
  lookup n entries = Some content -> write_file n content entries = entries.
Proof.
  induction entries as [|[k c] entries IH]; simpl; [discriminate|].
  destruct (String.eqb k n); intros H.
  - now injection H as ->.
  - now rewrite IH.
Qed.

Lemma write_file_twice (n c1 c2 : string) (entries : list (string * string)) :
  write_file n c2 (write_file n c1 entries) = write_file n c2 entries.
Proof.
  induction entries as [|[k c] entries IH]; simpl.
  - now rewrite String.eqb_refl.
  - destruct (String.eqb k n) eqn:E; simpl; rewrite E; [reflexivity | now rewrite IH].
Qed.

Lemma lookup_write_other (n m content : string) (entries : list (string * string)) :
  m <> n -> lookup m (write_file n content entries) = lookup m entries.
Proof.
  intros D. induction entries as [|[k c] entries IH]; simpl.
  - destruct (String.eqb_spec n m); [congruence | reflexivity].
  - destruct (String.eqb_spec k n) as [->|Hk]; simpl.
    + destruct (String.eqb_spec n m); [congruence | reflexivity].
    + destruct (String.eqb k m); [reflexivity | exact IH].
Qed.

(** X10.  [get_latest_file] on a directory that can be listed.  With a
    record in place it changes nothing and answers, each once, the
    listed names that are on no line of the record.  Without a record it
    answers the listing as it is and leaves an empty record behind,
    the files of other jobs being left as they were. *)
Theorem get_latest_file_answers (order : set_order) (h : host) (t : tmp_file)
  (dir_name : string) (listing : list string) (w : world) :
  listdir h dir_name = Some listing ->
  (forall content, record_of t w = Some content ->
     exists files,
       get_latest_file order h t dir_name w = (Done files, w) /\
       NoDup files /\
       forall f, In f files <-> In f listing /\ ~ In f (splitlines content))
  /\
  (record_of t w = None ->
     exists w',
       get_latest_file order h t dir_name w = (Done listing, w') /\
       record_of t w' = Some EmptyString /\
       forall other, name other <> name t -> record_of other w' = record_of other w).
Proof.
  intros L. split.
  - intros content R. unfold record_of in R.
    destruct w as [[entries|] tr]; simpl in R; [|discriminate].
    exists (list_of_set order (set_minus listing (splitlines content))).
    split; [|split].
    + unfold get_latest_file, bind, get_store. simpl. now rewrite R, L.
    + eapply Permutation_NoDup; [apply list_of_set_perm | apply set_minus_NoDup].
    + intros f. rewrite <- set_minus_iff.
      split; apply Permutation_in; [symmetry|]; apply list_of_set_perm.
  - intros R. unfold record_of in R.
    assert (G : get_latest_file order h t dir_name w = create_tmp_file h t dir_name w).
    { unfold get_latest_file, bind, get_store. simpl.
      destruct (store w) as [entries|]; [now rewrite R | reflexivity]. }
    rewrite G. unfold create_tmp_file, bind, get_store, set_store, print, emit, ret.
    destruct w as [[entries|] tr]; simpl in *; rewrite L.
    + eexists; split; [reflexivity|]. unfold record_of; simpl.
      split; [apply lookup_write_file|].
      intros other D. now apply lookup_write_other.
    + eexists; split; [reflexivity|]. unfold record_of; simpl.
      rewrite String.eqb_refl. split; [reflexivity|].
      intros other D. destruct (String.eqb_spec (name t) (name other)); congruence.
Qed.

Lemma get_latest_file_answers_witness :
  exists files,
    get_latest_file listing_order Scenario.first_locked
      {| folder := "/tmp/PasswordDetector"; name := "1" |} "/d" Scenario.four_stored
      = (Done files, Scenario.four_stored) /\
    NoDup files /\
    forall f, In f files <->
              In f ["a.part01.rar"; "a.part02.rar"] /\ ~ In f (splitlines ("a.rar" +++ NL)).
Proof.
  exact (proj1 (get_latest_file_answers listing_order Scenario.first_locked
                  {| folder := "/tmp/PasswordDetector"; name := "1" |} "/d"
                  ["a.part01.rar"; "a.part02.rar"] Scenario.four_stored eq_refl)
           ("a.rar" +++ NL) eq_refl).
Defined.

(** X11.  When the directory cannot be listed, [get_latest_file] fails
    with the error of [os.listdir], and the record of the job is empty
    afterwards whatever it held: the handler that is meant for a
    missing record rewrites it before it lists the directory again. *)
Theorem unlistable_directory_empties_record (order : set_order) (h : host)
  (t : tmp_file) (dir_name : string) (w : world) :
  listdir h dir_name = None ->
  exists w',
    get_latest_file order h t dir_name w = (Raise "OSError", w') /\
    record_of t w' = Some EmptyString.
Proof.
  intros L.
  assert (G : get_latest_file order h t dir_name w = create_tmp_file h t dir_name w).
  { unfold get_latest_file, bind, get_store. simpl.
    destruct (store w) as [entries|]; [|reflexivity].
    destruct (lookup (name t) entries); [now rewrite L | reflexivity]. }
  rewrite G. unfold create_tmp_file, bind, get_store, set_store, print, emit, ret, raise.
  destruct w as [[entries|] tr]; simpl; rewrite L.
  - eexists; split; [reflexivity|]. unfold record_of; simpl. apply lookup_write_file.
  - eexists; split; [reflexivity|]. unfold record_of; simpl.
    now rewrite String.eqb_refl.
Qed.

Lemma unlistable_directory_empties_record_witness :
  exists w',
    get_latest_file listing_order Scenario.first_locked
      {| folder := "/tmp/PasswordDetector"; name := "1" |} "/gone" Scenario.four_stored
      = (Raise "OSError", w') /\
    record_of {| folder := "/tmp/PasswordDetector"; name := "1" |} w' = Some EmptyString.
Proof.
  exact (unlistable_directory_empties_record listing_order Scenario.first_locked
           {| folder := "/tmp/PasswordDetector"; name := "1" |} "/gone"
           Scenario.four_stored eq_refl).
Defined.

(** X12.  [save_tested] appends: when the temp folder exists it adds the
    text at the end of the record of the job (of an empty one if there
    was none), prints nothing and leaves the other files alone, and two
    calls in a row do what one call with both texts does.  When the temp
    folder does not exist it fails and changes nothing. *)
Theorem save_tested_appends (t : tmp_file) (data more : string) (w : world) :
  (forall entries, store w = Some entries ->
     exists w',
       save_tested t data w = (Done tt, w') /\
       record_of t w' = Some (record_text (record_of t w) +++ data) /\
       trace w' = trace w /\
       (forall other, name other <> name t -> record_of other w' = record_of other w) /\
       bind (save_tested t data) (fun _ => save_tested t more) w
         = save_tested t (data +++ more) w)
  /\
  (store w = None -> save_tested t data w = (Raise "IOError", w)).
Proof.
  split.
  - intros entries S. unfold save_tested, bind, get_store, set_store, record_of.
    rewrite S. eexists. split; [reflexivity|]. simpl.
    split; [|split; [reflexivity|split]].
    + rewrite lookup_write_file. unfold record_text.
      destruct (lookup (name t) entries); reflexivity.
    + intros other D. now apply lookup_write_other.
    + rewrite lookup_write_file, write_file_twice, append_assoc. reflexivity.
  - intros S. unfold save_tested, bind, get_store. now rewrite S.
Qed.

Lemma save_tested_appends_witness :
  save_tested Scenario.the_tmp_file "a.rar" Scenario.fresh
    = (Raise "IOError", Scenario.fresh).
Proof.
  exact (proj2 (save_tested_appends Scenario.the_tmp_file "a.rar" EmptyString
                  Scenario.fresh) eq_refl).
Defined.

(** X13.  The record only grows.  Whatever a call of [contains_password]
    on a listed directory finds, the record of the job afterwards is the
    record before followed by more text (none when a password was
    found), and a record that ended in a line feed still does. *)
Theorem record_only_grows (order : set_order) (h : host) (t : tmp_file)
  (dir_name : string) (listing : list string) (w : world) :
  listdir h dir_name = Some listing ->
  exists found w' more,
    contains_password order h t dir_name w = (Done found, w') /\
    record_of t w' = Some (record_text (record_of t w) +++ more) /\
    (found = true -> more = EmptyString) /\
    (record_closed (record_text (record_of t w)) ->
     record_closed (record_text (record_of t w'))).
Proof.
  intros L.
  destruct (contains_password_run order h t dir_name listing L w)
    as (evs & w' & _ & [(b & f & a & _ & _ & _ & _ & R & C) | (_ & _ & R & C)]).
  - exists true, w', EmptyString. rewrite R, append_nil_r. simpl. auto.
  - exists false, w', (tested_data (untested order listing (record_of t w))).
    rewrite R. simpl. split; [exact C|]. split; [reflexivity|].
    split; [discriminate|]. apply tested_data_closed.
Qed.

Lemma record_only_grows_witness :
  exists found w' more,
    contains_password listing_order Scenario.tool_missing_once Scenario.the_tmp_file
      "/d" Scenario.fresh = (Done found, w') /\
    record_of Scenario.the_tmp_file w' = Some (EmptyString +++ more) /\
    (found = true -> more = EmptyString) /\
    (record_closed EmptyString ->
     record_closed (record_text (record_of Scenario.the_tmp_file w'))).
Proof.
  exact (record_only_grows listing_order Scenario.tool_missing_once
           Scenario.the_tmp_file "/d" ["a.rar"; "b.rar"] Scenario.fresh eq_refl).
Defined.

Lemma untested_incl (order : set_order) (listing : list string) (record : option string)
  (f : string) :
  In f (untested order listing record) ->
  In f listing /\ forall content, record = Some content -> ~ In f (splitlines content).
Proof.
  destruct record as [content|]; simpl; intros H.
  - apply (Permutation_in _ (Permutation_sym (list_of_set_perm order _))) in H.
    apply set_minus_iff in H as [H1 H2]. split; [exact H1|].
    intros c E. now injection E as <-.
  - split; [exact H | discriminate].
Qed.

Lemma untested_covers (order : set_order) (listing : list string) (record : option string)
  (f : string) :
  In f listing ->
  In f (splitlines (record_text record)) \/ In f (untested order listing record).
Proof.
  intros H. destruct record as [content|]; simpl; [|now right].
  destruct (in_dec string_dec f (splitlines content)) as [I|I]; [now left|].
  right. apply (Permutation_in _ (list_of_set_perm order _)).
  apply set_minus_iff. auto.
Qed.

(** X14.  A scan that found no password is not repeated.  When the names
    of the directory hold no line break and the record was closed, a
    second call of [contains_password] on the same listing launches
    nothing and changes nothing, whatever unrar would answer now: every
    name the first call went through, probed with or without success or
    skipped, counts as tested. *)
Theorem clean_scan_is_not_repeated (order : set_order) (h h' : host) (t : tmp_file)
  (dir_name : string) (listing : list string) (w w1 : world) :
  listdir h dir_name = Some listing ->
  listdir h' dir_name = Some listing ->
  (forall f, In f listing -> has_linebreak f = false) ->
  record_closed (record_text (record_of t w)) ->
  contains_password order h t dir_name w = (Done false, w1) ->
  contains_password order h' t dir_name w1 = (Done false, w1).
Proof.
  intros L L' B C H.
  destruct (contains_password_run order h t dir_name listing L w)
    as (evs & w' & _ & [(b & f & a & _ & _ & _ & _ & _ & E) | (_ & _ & R & E)]);
    rewrite E in H; [discriminate|].
  injection H as <-.
  set (old := record_text (record_of t w)) in *.
  set (visited := untested order listing (record_of t w)) in *.
  unfold record_of in R.
  destruct w' as [[entries1|] tr1]; simpl in R; [|discriminate].
  assert (A : set_minus listing (splitlines (old +++ tested_data visited)) = []).
  { apply set_minus_all. intros f Hf.
    rewrite splitlines_closed by exact C.
    rewrite splitlines_tested_data.
    - apply in_or_app. exact (untested_covers order listing (record_of t w) f Hf).
    - intros g Hg. apply B. now apply (untested_incl order listing (record_of t w)). }
  unfold contains_password, get_latest_file, bind, get_store. simpl.
  rewrite R, L', A.
  pose proof (list_of_set_perm order []) as P. apply Permutation_nil in P. rewrite P.
  cbn [ret scan_files]. unfold bind, save_tested, bind, get_store, set_store. simpl.
  rewrite R, append_nil_r. now rewrite (write_file_same _ _ _ R).
Qed.

Lemma clean_scan_is_not_repeated_witness :
  contains_password listing_order
    (Scenario.a_host Scenario.queue_settings ["a.rar"; "b.rar"]
       (fun _ => ProbeOutput EmptyString "wrong password" 3) None)
    Scenario.the_tmp_file "/d"
    {| store := Some [("7", tested_data ["a.rar"; "b.rar"])];
       trace := [Print "[DETAIL] Created folder /tmp/PasswordDetector";
                 Print "[DETAIL] Created temp file /tmp/PasswordDetector/7";
                 Probe "/d/a.rar";
                 Print "[ERROR] Failed a.rar: [Errno 2] No such file or directory";
                 Probe "/d/b.rar"] |}
  = (Done false,
     {| store := Some [("7", tested_data ["a.rar"; "b.rar"])];
        trace := [Print "[DETAIL] Created folder /tmp/PasswordDetector";
                  Print "[DETAIL] Created temp file /tmp/PasswordDetector/7";
                  Probe "/d/a.rar";
                  Print "[ERROR] Failed a.rar: [Errno 2] No such file or directory";
                  Probe "/d/b.rar"] |}).
Proof.
  apply (clean_scan_is_not_repeated listing_order Scenario.tool_missing_once
           (Scenario.a_host Scenario.queue_settings ["a.rar"; "b.rar"]
              (fun _ => ProbeOutput EmptyString "wrong password" 3) None)
           Scenario.the_tmp_file "/d" ["a.rar"; "b.rar"] Scenario.fresh).
  - reflexivity.
  - reflexivity.
  - simpl. intros f [<-|[<-|[]]]; reflexivity.
  - left. reflexivity.
  - vm_compute. reflexivity.
Defined.

(** X15.  A name on a line of the record is not probed again: in a call
    of [contains_password] unrar is launched only on files of the
    listing that are on no line of the record and have no [tmp] in
    their name. *)
Theorem recorded_file_is_not_probed (order : set_order) (h : host) (t : tmp_file)
  (dir_name : string) (listing : list string) (w : world) (path : string) :
  listdir h dir_name = Some listing ->
  exists found evs w',
    contains_password order h t dir_name w = (Done found, w') /\
    trace w' = trace w ++ evs /\
    (In (Probe path) evs ->
     exists file,
       path = path_of dir_name file /\ In file listing /\
       contains "tmp" file = false /\
       forall content, record_of t w = Some content -> ~ In file (splitlines content)).
Proof.
  intros L.
  assert (G : forall files,
    (forall f, In f files -> In f (untested order listing (record_of t w))) ->
    In path (map (path_of dir_name) (filter not_tmp files)) ->
    exists file,
      path = path_of dir_name file /\ In file listing /\
      contains "tmp" file = false /\
      forall content, record_of t w = Some content -> ~ In file (splitlines content)).
  { intros files I H. apply in_map_iff in H as (f & <- & F).
    apply filter_In in F as [F T]. unfold not_tmp in T. apply negb_true_iff in T.
    destruct (untested_incl order listing (record_of t w) f (I f F)) as [H1 H2].
    exists f. auto. }
  destruct (contains_password_run order h t dir_name listing L w)
    as (evs & w' & T & [(b & f & a & V & _ & _ & Pr & _ & C) | (_ & Pr & _ & C)]).
  - exists true, evs, w'. split; [exact C|]. split; [exact T|].
    rewrite in_probes_of, Pr. apply G.
    intros g Hg. rewrite V. apply in_app_or in Hg as [Hg|[<-|[]]];
      apply in_or_app; [now left | right; now left].
  - exists false, evs, w'. split; [exact C|]. split; [exact T|].
    rewrite in_probes_of, Pr. apply G. auto.
Qed.

Lemma recorded_file_is_not_probed_witness :
  exists found evs w',
    contains_password listing_order Scenario.first_locked Scenario.the_tmp_file "/d"
      Scenario.fresh = (Done found, w') /\
    trace w' = [] ++ evs /\
    (In (Probe "/d/a.part02.rar") evs ->
     exists file,
       "/d/a.part02.rar" = path_of "/d" file /\
       In file ["a.part01.rar"; "a.part02.rar"] /\
       contains "tmp" file = false /\
       forall content, record_of Scenario.the_tmp_file Scenario.fresh = Some content ->
                       ~ In file (splitlines content)).
Proof.
  exact (recorded_file_is_not_probed listing_order Scenario.first_locked
           Scenario.the_tmp_file "/d" ["a.part01.rar"; "a.part02.rar"]
           Scenario.fresh "/d/a.part02.rar" eq_refl).
Defined.

(** ** [clean_up]: what it removes and what it leaves *)

Lemma lookup_not_stored (n : string) (entries : list (string * string)) :
  ~ In n (map fst entries) -> lookup n entries = None.
Proof.
  induction entries as [|[k c] entries IH]; simpl; intros H; [reflexivity|].
  destruct (String.eqb_spec k n) as [->|D]; [exfalso; auto | apply IH; tauto].
Qed.

Lemma lookup_remove_file (n m : string) (entries : list (string * string)) :
  NoDup (map fst entries) ->
  lookup n (remove_file m entries) = if String.eqb n m then None else lookup n entries.
Proof.
  induction entries as [|[k c] entries IH]; simpl; intros N.
  - now destruct (String.eqb n m).
  - inversion N as [|? ? Hk N']; subst.
    destruct (String.eqb_spec k m) as [->|Hkm].
    + destruct (String.eqb_spec n m) as [->|Hnm].
      * now apply lookup_not_stored.
      * destruct (String.eqb_spec m n); [congruence | reflexivity].
    + simpl. destruct (String.eqb_spec k n) as [->|Hkn].
      * destruct (String.eqb_spec n m); [congruence | reflexivity].
      * now apply IH.
Qed.

Lemma remove_all_content (temp_folder : string) (old : list string) :
  forall (entries : list (string * string)) (tr : list event),
  NoDup (map fst entries) ->
  NoDup old ->
  incl old (map fst entries) ->
  exists entries',
    remove_all temp_folder old {| store := Some entries; trace := tr |} =
      (Done tt, {| store := Some entries';
                   trace := tr ++ removal_events temp_folder old |}) /\
    forall n, lookup n entries' = if mem n old then None else lookup n entries.
Proof.
  induction old as [|temp_id old IH]; intros entries tr N D I.
  - exists entries. simpl. rewrite app_nil_r. auto.
  - inversion D as [|? ? Hid D']; subst.
    destruct (remove_file_names temp_id entries N) as [N1 R1].
    destruct (IH (remove_file temp_id entries)
                 (tr ++ [Print ("[DETAIL] Removing temp file " +++ temp_folder +++ "/" +++ temp_id);
                         Remove (temp_folder +++ "/" +++ temp_id)]) N1 D')
      as (entries' & E & C).
    { intros f Hf. apply R1. split; [apply I; now right | intros ->; contradiction]. }
    exists entries'. split.
    + cbn [remove_all]. unfold bind, print, emit, get_store, set_store. simpl.
      assert (M : mem temp_id (map fst entries) = true)
        by (apply mem_iff, I; now left).
      rewrite M. simpl. rewrite <- !app_assoc in *. simpl in *. exact E.
    + intros n. rewrite C, lookup_remove_file by exact N.
      unfold mem. simpl. destruct (String.eqb n temp_id); simpl.
      * now destruct (existsb (String.eqb n) old).
      * reflexivity.
Qed.

Section Cleaning.

Variable order : set_order.
Variable h : host.

(** The question to NZBGet, as [clean_up] asks it *)
Lemma keeps_store_ask (n : nat) :
  keeps_store
    (if (1 <? n)%nat
     then data <- call_nzbget_direct h "listgroups?1=0" ;;
          value_or_raise (active_ids (splitlines data))
     else ret []).
Proof.
  unfold call_nzbget_direct, ensure_str, connection_info, env_item, value_or_raise.
  repeat keeps_step.
Qed.

Lemma clean_up_done (entries : list (string * string)) (tr : list event) (w' : world) :
  NoDup (map fst entries) ->
  clean_up order h {| store := Some entries; trace := tr |} = (Done tt, w') ->
  exists used entries',
    store w' = Some entries' /\
    forall n, lookup n entries' =
              if mem n (old_temp_files order (environ h "NZBPP_NZBID")
                          (map fst entries) used)
              then None else lookup n entries.
Proof.
  intros N H. unfold clean_up, env_plus in H.
  destruct (environ h "NZBOP_TEMPDIR") as [temp_dir|]; [|discriminate].
  unfold bind at 1 in H. cbn [ret] in H.
  unfold bind at 1 in H. cbn [get_store store] in H.
  unfold bind at 1 in H.
  pose proof (keeps_store_ask (List.length (map fst entries))
                {| store := Some entries; trace := tr |}) as K.
  match type of H with
  | (let (_, _) := ?m ?w in _) = _ => destruct (m w) as [[used|c|e] w1]
  end; try discriminate.
  simpl in K. destruct w1 as [s1 tr1]. simpl in K. subst s1.
  destruct (old_temp_files_spec order (environ h "NZBPP_NZBID") (map fst entries) used)
    as [ON OI].
  destruct (remove_all_content (temp_dir +++ "/PasswordDetector")
              (old_temp_files order (environ h "NZBPP_NZBID") (map fst entries) used)
              entries tr1 N ON) as (entries' & R & C).
  { intros f Hf. now apply OI in Hf. }
  rewrite R in H. injection H as <-.
  exists used, entries'. auto.
Qed.

End Cleaning.

(** X16.  [clean_up] only removes.  When it returns, every file left in
    the temp folder was there before with the same content, and the
    file of the current job is not among them. *)
Theorem clean_up_only_removes (order : set_order) (h : host)
  (entries : list (string * string)) (tr : list event) (w' : world) :
  NoDup (map fst entries) ->
  clean_up order h {| store := Some entries; trace := tr |} = (Done tt, w') ->
  (forall t content, record_of t w' = Some content ->
                     lookup (name t) entries = Some content) /\
  (forall t, environ h "NZBPP_NZBID" = Some (name t) -> record_of t w' = None).
Proof.
  intros N H.
  destruct (clean_up_done order h entries tr w' N H) as (used & entries' & S & C).
  destruct (old_temp_files_spec order (environ h "NZBPP_NZBID") (map fst entries) used)
    as [_ OI].
  unfold record_of. rewrite S. split.
  - intros t content. rewrite C.
    destruct (mem (name t) _); [discriminate | auto].
  - intros t E. rewrite C.
    destruct (mem (name t) (old_temp_files order (environ h "NZBPP_NZBID")
                              (map fst entries) used)) eqn:M; [reflexivity|].
    apply lookup_not_stored. intros I.
    assert (Hin : In (name t) (old_temp_files order (environ h "NZBPP_NZBID")
                                 (map fst entries) used))
      by (apply OI; split; [exact I | now right]).
    apply mem_iff in Hin. congruence.
Qed.

Lemma clean_up_only_removes_witness :
  (forall t content,
     record_of t {| store := Some [("2", EmptyString)];
                    trace := [HostGet "listgroups?1=0";
                              Print "[DETAIL] Removing temp file /tmp/PasswordDetector/3";
                              Remove "/tmp/PasswordDetector/3";
                              Print "[DETAIL] Removing temp file /tmp/PasswordDetector/4";
                              Remove "/tmp/PasswordDetector/4";
                              Print "[DETAIL] Removing temp file /tmp/PasswordDetector/1";
                              Remove "/tmp/PasswordDetector/1"] |} = Some content ->
     lookup (name t) Scenario.four_records = Some content) /\
  (forall t, environ (Scenario.two_active "1") "NZBPP_NZBID" = Some (name t) ->
     record_of t {| store := Some [("2", EmptyString)];
                    trace := [HostGet "listgroups?1=0";
                              Print "[DETAIL] Removing temp file /tmp/PasswordDetector/3";
                              Remove "/tmp/PasswordDetector/3";
                              Print "[DETAIL] Removing temp file /tmp/PasswordDetector/4";
                              Remove "/tmp/PasswordDetector/4";
                              Print "[DETAIL] Removing temp file /tmp/PasswordDetector/1";
                              Remove "/tmp/PasswordDetector/1"] |} = None).
Proof.
  apply (clean_up_only_removes listing_order (Scenario.two_active "1")
           Scenario.four_records []).
  - repeat constructor; simpl; intuition discriminate.
  - vm_compute. reflexivity.
Defined.

Lemma no_names_no_entries (entries : list (string * string)) :
  (forall f, ~ In f (map fst entries)) -> entries = [].
Proof.
  destruct entries as [|[k c] entries]; [reflexivity|].
  intros H. exfalso. apply (H k). now left.
Qed.

(** X17.  When NZBGet does not answer the question about its jobs (the
    request fails, or the answer names no job), [clean_up] takes it for
    an empty list: with more than one file in the temp folder it then
    removes them all, those of jobs still in the queue too. *)
Theorem unanswered_query_removes_all (order : set_order) (h : host)
  (entries : list (string * string)) (temp_dir data : string) (tr : list event) :
  environ h "NZBOP_TEMPDIR" = Some temp_dir ->
  connection_known h = true ->
  NoDup (map fst entries) ->
  (1 < List.length entries)%nat ->
  listgroups_text h = Some data ->
  active_ids (splitlines data) = Some [] ->
  exists evs,
    clean_up order h {| store := Some entries; trace := tr |} =
      (Done tt, {| store := Some []; trace := tr ++ evs |}) /\
    host_gets evs = 1 /\
    forall f, In f (map fst entries) ->
              In (Remove ((temp_dir +++ "/PasswordDetector") +++ "/" +++ f)) evs.
Proof.
  intros T C N L G A.
  set (folder := temp_dir +++ "/PasswordDetector").
  set (old := old_temp_files order (environ h "NZBPP_NZBID") (map fst entries) []).
  destruct (old_temp_files_spec order (environ h "NZBPP_NZBID") (map fst entries) [])
    as [ON OI].
  destruct (remove_all_run folder old entries (tr ++ [HostGet "listgroups?1=0"]) N ON)
    as (entries' & R & _ & K).
  { intros f Hf. now apply OI in Hf. }
  assert (E : entries' = []).
  { apply no_names_no_entries. intros f Hf. apply K in Hf as [Hf Hn].
    apply Hn. apply OI. split; [exact Hf | left; intros []]. }
  subst entries'.
  exists ([HostGet "listgroups?1=0"] ++ removal_events folder old).
  split; [|split].
  - unfold clean_up, env_plus, bind, get_store. rewrite T.
    unfold ret at 1. cbn beta iota. cbn [store].
    rewrite length_map. apply Nat.ltb_lt in L. rewrite L.
    rewrite (call_nzbget_direct_run h _ data _ C G).
    rewrite A. unfold value_or_raise, ret, logged.
    cbn [store trace]. fold folder old. rewrite R. now rewrite app_assoc.
  - rewrite host_gets_app, host_gets_removal_events. reflexivity.
  - intros f Hf. apply in_or_app. right. apply in_removal_events.
    apply OI. split; [exact Hf | left; intros []].
Qed.

Lemma unanswered_query_removes_all_witness :
  exists evs,
    clean_up listing_order
      (Scenario.a_host (Scenario.pp_settings "1") [] (fun _ => ProbeRaised EmptyString) None)
      Scenario.four_stored =
      (Done tt, {| store := Some []; trace := [] ++ evs |}) /\
    host_gets evs = 1 /\
    forall f, In f ["1"; "2"; "3"; "4"] ->
              In (Remove (("/tmp" +++ "/PasswordDetector") +++ "/" +++ f)) evs.
Proof.
  apply (unanswered_query_removes_all listing_order
           (Scenario.a_host (Scenario.pp_settings "1") []
              (fun _ => ProbeRaised EmptyString) None)
           Scenario.four_records "/tmp" EmptyString []).
  - reflexivity.
  - reflexivity.
  - repeat constructor; simpl; intuition discriminate.
  - simpl. lia.
  - reflexivity.
  - reflexivity.
Defined.

(** X18.  The ways [clean_up] gives up, none of which removes a file.
    Without the setting of the temp directory it fails at once; without
    a temp folder it does nothing; with more than one file there, a
    missing connection setting, an answer of NZBGet that does not
    decode or a job id in the answer that is no number makes it fail
    before the first removal. *)
Theorem clean_up_gives_up (order : set_order) (h : host) (w : world) :
  (environ h "NZBOP_TEMPDIR" = None -> clean_up order h w = (Raise "TypeError", w))
  /\
  (forall temp_dir, environ h "NZBOP_TEMPDIR" = Some temp_dir -> store w = None ->
     clean_up order h w = (Done tt, w))
  /\
  (forall temp_dir entries,
     environ h "NZBOP_TEMPDIR" = Some temp_dir -> store w = Some entries ->
     (1 < List.length entries)%nat ->
     connection_known h = false
     \/ listgroups_text h = None
     \/ (exists data, listgroups_text h = Some data
                      /\ active_ids (splitlines data) = None) ->
     exists e evs,
       clean_up order h w = (Raise e, logged w evs) /\
       forall temp_file, ~ In (Remove temp_file) evs).
Proof.
  split; [|split].
  - intros T. unfold clean_up, env_plus, bind. now rewrite T.
  - intros temp_dir T S. unfold clean_up, env_plus, bind, get_store. rewrite T.
    unfold ret at 1. cbn beta iota. now rewrite S.
  - intros temp_dir entries T S L F.
    assert (W : logged w [] = w) by (unfold logged; rewrite app_nil_r; now destruct w).
    unfold clean_up, env_plus, bind, get_store. rewrite T.
    unfold ret at 1. cbn beta iota. rewrite S.
    rewrite length_map. apply Nat.ltb_lt in L. rewrite L.
    destruct (connection_known h) eqn:C.
    + destruct F as [F|[F|(data & G & F)]]; [discriminate| |].
      * rewrite (call_nzbget_direct_undecodable h _ _ C F).
        eexists _, [HostGet "listgroups?1=0"]. split; [reflexivity|].
        intros temp_file [H|[]]. discriminate.
      * rewrite (call_nzbget_direct_run h _ data _ C G).
        rewrite F. unfold value_or_raise, raise.
        eexists _, [HostGet "listgroups?1=0"]. split; [reflexivity|].
        intros temp_file [H|[]]. discriminate.
    + clear F. unfold connection_known, env_has in C.
      unfold call_nzbget_direct, ensure_str, connection_info, env_item, bind, raise.
      destruct (environ h "NZBOP_CONTROLIP");
        [|eexists _, []; rewrite W; split; [reflexivity | intros ? []]].
      destruct (environ h "NZBOP_CONTROLPORT");
        [|eexists _, []; rewrite W; split; [reflexivity | intros ? []]].
      destruct (environ h "NZBOP_CONTROLUSERNAME");
        [|eexists _, []; rewrite W; split; [reflexivity | intros ? []]].
      destruct (environ h "NZBOP_CONTROLPASSWORD");
        [discriminate
        |eexists _, []; rewrite W; split; [reflexivity | intros ? []]].
Qed.

Lemma clean_up_gives_up_witness :
  exists e evs,
    clean_up listing_order
      (Scenario.a_host (Scenario.pp_settings "1") [] (fun _ => ProbeRaised EmptyString)
         (Some (DQ +++ "NZBID" +++ DQ +++ " : none," +++ NL)))
      Scenario.four_stored
    = (Raise e, logged Scenario.four_stored evs) /\
    forall temp_file, ~ In (Remove temp_file) evs.
Proof.
  apply (proj2 (proj2 (clean_up_gives_up listing_order
           (Scenario.a_host (Scenario.pp_settings "1") [] (fun _ => ProbeRaised EmptyString)
              (Some (DQ +++ "NZBID" +++ DQ +++ " : none," +++ NL)))
           Scenario.four_stored)) "/tmp" Scenario.four_records).
  - reflexivity.
  - reflexivity.
  - simpl. lia.
  - right. right. eexists. split; reflexivity.
Defined.

(** ** The default list of [check_passwordstrings] *)

(** X19.  With the list the script ships, [check_passwordstrings] answers
    [True] exactly when the output or the error text of unrar holds, in
    any case, one of five texts: a star, or one of four messages about
    passwords.  So any text with a star in it counts as a password. *)
Theorem default_markers_iff (outtext errtext : string) :
  check_passwordstrings outtext errtext = true <->
  exists m,
    In m ["*"; "wrong password"; "The specified password is incorrect";
          "encrypted headers"; "Incorrect password for"] /\
    (occurs_nocase m outtext \/ occurs_nocase m errtext).
Proof.
  unfold check_passwordstrings, check_passwordstrings_of.
  change (split "," PasswordStrings)
    with ["*"; "wrong password"; "The specified password is incorrect";
          "encrypted headers"; "Incorrect password for"].
  change (list_eqb _ [] || list_eqb _ [EmptyString]) with false. cbv iota.
  rewrite any_marker_iff. split.
  - intros (m & Hin & _ & Ho). exists m. split; [exact Hin|].
    simpl in Hin. decompose [or] Hin; subst; try contradiction; exact Ho.
  - intros (m & Hin & Ho). exists m. split; [exact Hin|].
    simpl in Hin. decompose [or] Hin; subst; try contradiction;
      (split; [discriminate | exact Ho]).
Qed.

(** ** Requests to NZBGet *)

(** X20.  [call_nzbget_direct] needs the four connection settings.  With
    them it sends one request.  It answers the text of the body, or the
    empty text when the request fails or the answer is not ok; when the
    body is no UTF-8 it fails with the error of the decoding, which
    [ensure_str] does outside the [try].  Without one of the settings it
    fails on the missing setting and sends nothing. *)
Theorem call_nzbget_direct_answers (h : host) (url_command : string) (w : world) :
  (connection_known h = true ->
   call_nzbget_direct h url_command w =
     (match jsonrpc h url_command with
      | Some (Text content) => Done content
      | Some Undecodable => Raise "UnicodeDecodeError"
      | None => Done EmptyString
      end,
      logged w [HostGet url_command]))
  /\
  (connection_known h = false ->
   exists key,
     environ h key = None /\
     call_nzbget_direct h url_command w = (Raise ("KeyError: " +++ key), w)).
Proof.
  split.
  { intros C. rewrite call_nzbget_direct_sends by exact C.
    destruct (jsonrpc h url_command) as [[content|]|]; reflexivity. }
  unfold connection_known, env_has. intros C.
  unfold call_nzbget_direct, ensure_str, connection_info, env_item, bind, raise.
  destruct (environ h "NZBOP_CONTROLIP") eqn:E1; [|eauto].
  destruct (environ h "NZBOP_CONTROLPORT") eqn:E2; [|eauto].
  destruct (environ h "NZBOP_CONTROLUSERNAME") eqn:E3; [|eauto].
  destruct (environ h "NZBOP_CONTROLPASSWORD") eqn:E4; [discriminate | eauto].
Qed.

Lemma call_nzbget_direct_answers_witness :
  call_nzbget_direct Scenario.garbled_answer "listgroups?1=0" Scenario.fresh =
    (Raise "UnicodeDecodeError", logged Scenario.fresh [HostGet "listgroups?1=0"]).
Proof.
  exact (proj1 (call_nzbget_direct_answers Scenario.garbled_answer "listgroups?1=0"
                  Scenario.fresh) eq_refl).
Defined.

(** X21.  The ways [sort_inner_files] ends without moving a file.
    Without the id of the download, or with one that is no number, it
    fails before it asks anything.  When the request for the files of
    the download fails it sees an empty listing and says that it found
    no rar-file. *)
Theorem sort_inner_files_gives_up (h : host) (w : world) :
  (environ h "NZBNA_NZBID" = None -> sort_inner_files h w = (Raise "TypeError", w))
  /\
  (forall v, environ h "NZBNA_NZBID" = Some v -> int_of_str v = None ->
     sort_inner_files h w = (Raise "ValueError", w))
  /\
  (forall v nzb_id,
     environ h "NZBNA_NZBID" = Some v -> int_of_str v = Some nzb_id ->
     connection_known h = true ->
     jsonrpc h ("listfiles?1=0&2=0&3=" +++ str_of_int nzb_id) = None ->
     sort_inner_files h w =
       (Done tt,
        logged w [HostGet ("listfiles?1=0&2=0&3=" +++ str_of_int nzb_id);
                  Print "[INFO] Skipping sorting since could not find any rar-files"])).
Proof.
  split; [|split].
  - intros E. unfold sort_inner_files, bind. now rewrite E.
  - intros v E I. unfold sort_inner_files, bind, py_int, value_or_raise.
    now rewrite E, I.
  - intros v nzb_id E I C J.
    unfold sort_inner_files. rewrite E. unfold py_int, value_or_raise. rewrite I.
    rewrite (bind_done _ _ w nzb_id w) by reflexivity.
    rewrite (bind_done _ _ w EmptyString
               (logged w [HostGet ("listfiles?1=0&2=0&3=" +++ str_of_int nzb_id)]))
      by (apply call_nzbget_direct_run; [exact C | now rewrite J]).
    unfold bind, print, emit, logged. simpl. now rewrite <- app_assoc.
Qed.

Lemma sort_inner_files_gives_up_witness :
  sort_inner_files Scenario.first_locked Scenario.fresh =
    (Done tt,
     logged Scenario.fresh
       [HostGet ("listfiles?1=0&2=0&3=" +++ str_of_int 7);
        Print "[INFO] Skipping sorting since could not find any rar-files"]).
Proof.
  exact (proj2 (proj2 (sort_inner_files_gives_up Scenario.first_locked Scenario.fresh))
           "7" 7%Z eq_refl eq_refl eq_refl eq_refl).
Defined.

Lemma sort_inner_files_run_witness :
  exists moved,
    In (5%Z, moved) [(2%Z, "a.part02.rar"); (5%Z, "a.part10.rar"); (9%Z, "a.r1")] /\
    sort_inner_files three_listed Scenario.fresh =
      (Done tt,
       logged Scenario.fresh
         [HostGet ("listfiles?1=0&2=0&3=" +++ str_of_int 7);
          Print ("[INFO] Moving last rar-file to the top: " +++ moved);
          EditQueue "FileMoveTop" [5%Z]]).
Proof.
  exact (sort_inner_files_run three_listed Scenario.fresh "7"
           (listfiles_answer 7 [(2%Z, "a.part02.rar"); (5%Z, "a.part10.rar"); (9%Z, "a.r1")])
           7%Z
           ([LineOther; LineOther; LineOther]
            ++ flat_map (fun p => [LineOther; LineID (fst p); LineOther; LineOther;
                                   LineFilename (snd p); LineOther; LineOther; LineOther])
                 [(2%Z, "a.part02.rar"); (5%Z, "a.part10.rar"); (9%Z, "a.r1")]
            ++ [LineOther; LineOther])
           [(2%Z, "a.part02.rar"); (5%Z, "a.part10.rar"); (9%Z, "a.r1")]
           eq_refl eq_refl eq_refl eq_refl eq_refl eq_refl (fun _ => eq_refl)).
Defined.

(** ** [unrar()] *)

Lemma endswith_exe_name (pf : platform) : endswith (lower (exe_name pf)) (exe_name pf) = true.
Proof. unfold exe_name. destruct (on_nt pf); reflexivity. Qed.

(** X22.  Whatever [unrar()] returns ends, once in lower case, with the
    name of the executable for the platform: it is the whole setting
    when that is a file with such a name, else the first word of the
    setting with such a name, else the bare name.  It fails when the
    setting is missing. *)
Theorem unrar_names_the_executable (pf : platform) (h : host) (w : world) :
  (forall path w', unrar pf h w = (Done path, w') ->
     w' = w /\ endswith (lower path) (exe_name pf) = true /\
     exists UnrarCmd,
       environ h "NZBOP_UNRARCMD" = Some UnrarCmd /\
       (path = UnrarCmd \/ path = exe_name pf \/
        exists args, shlex_split pf UnrarCmd = Some args /\ In path args))
  /\
  (environ h "NZBOP_UNRARCMD" = None ->
   unrar pf h w = (Raise "KeyError: NZBOP_UNRARCMD", w)).
Proof.
  split.
  - intros path w'. unfold unrar, env_item, bind.
    destruct (environ h "NZBOP_UNRARCMD") as [cmd|]; [|discriminate].
    cbn [ret].
    destruct (isfile pf cmd && endswith (lower cmd) (exe_name pf)) eqn:F.
    + intros H. injection H as <- <-. apply andb_prop in F as [_ F].
      split; [reflexivity|]. split; [exact F|]. exists cmd. auto.
    + unfold value_or_raise.
      destruct (shlex_split pf cmd) as [args|] eqn:S; [|discriminate].
      cbn [ret].
      destruct (find (fun arg => endswith (lower arg) (exe_name pf)) args) as [arg|] eqn:Fd.
      * intros H. injection H as <- <-. apply find_some in Fd as [I E].
        split; [reflexivity|]. split; [exact E|]. exists cmd. eauto 6.
      * intros H. injection H as <- <-.
        split; [reflexivity|]. split; [apply endswith_exe_name|]. exists cmd. auto.
  - intros E. unfold unrar, env_item, bind. now rewrite E.
Qed.

Lemma unrar_names_the_executable_witness :
  unrar {| on_nt := false; isfile := fun _ => false; shlex_split := fun _ => None |}
    Scenario.first_locked Scenario.fresh
  = (Raise "KeyError: NZBOP_UNRARCMD", Scenario.fresh).
Proof.
  exact (proj2 (unrar_names_the_executable
                  {| on_nt := false; isfile := fun _ => false; shlex_split := fun _ => None |}
                  Scenario.first_locked Scenario.fresh) eq_refl).
Defined.

(** ** After a password was found *)

Lemma eqb_neq_false (a b : string) : a <> b -> String.eqb a b = false.
Proof. intros H. now apply String.eqb_neq. Qed.

(** X23.  What the script does once [contains_password] answered [True].
    It always prints the warning and the line that marks the download.
    With the action Mark Bad it then prints the command that marks the
    download bad; with any action other than Pause and Mark Bad it does
    nothing more.  With the action Pause it asks NZBGet to pause the
    download, and when that call fails the script fails with it, the
    download being marked but not paused. *)
Theorem password_found_actions (h : host) (Prefix NzbName action : string) (w : world) :
  environ h "NZBPO_PASSACTION" = Some action ->
  let marked := logged w [Print ("[WARNING] Password found in " +++ NzbName);
                          Print flag_line] in
  (action <> "Pause" -> action <> "Mark Bad" ->
   password_found h Prefix NzbName w = (Done tt, marked))
  /\
  (action = "Mark Bad" ->
   password_found h Prefix NzbName w =
     (Done tt, logged marked [Print "[NZB] MARK=BAD";
                              Print ("[DETAIL] Marked bad " +++ NzbName)]))
  /\
  (action = "Pause" ->
   forall v id,
     environ h (Prefix +++ "NZBID") = Some v -> int_of_str v = Some id ->
     connection_known h = true ->
     password_found h Prefix NzbName w =
       match editqueue h "GroupPause" [id] with
       | Some e => (Raise e, logged marked [EditQueue "GroupPause" [id]])
       | None => (Done tt, logged marked [EditQueue "GroupPause" [id];
                                          Print ("[DETAIL] Paused " +++ NzbName)])
       end).
Proof.
  intros A marked. subst marked. unfold flag_line.
  split; [|split].
  - intros N1 N2. unfold password_found, bind, print, emit, env_item, logged.
    rewrite A. cbn [ret store trace].
    rewrite (eqb_neq_false _ _ N1), (eqb_neq_false _ _ N2).
    cbn [ret]. now rewrite <- app_assoc.
  - intros ->. unfold password_found, bind, print, emit, env_item, logged.
    rewrite A. cbn [ret store trace]. cbn. now rewrite <- !app_assoc.
  - intros -> v id E I C.
    unfold connection_known, env_has in C.
    unfold password_found, pause_nzb, py_int, value_or_raise, nzbget_editqueue,
      connection_info, bind, print, emit, env_item, logged.
    rewrite A. cbn [ret store trace]. cbn [String.eqb Ascii.eqb Bool.eqb].
    rewrite E, I.
    destruct (environ h "NZBOP_CONTROLIP"); [|discriminate].
    destruct (environ h "NZBOP_CONTROLPORT"); [|discriminate].
    destruct (environ h "NZBOP_CONTROLUSERNAME"); [|discriminate].
    destruct (environ h "NZBOP_CONTROLPASSWORD"); [|discriminate].
    cbn [ret store trace].
    destruct (editqueue h "GroupPause" [id]); cbn [ret raise store trace];
      rewrite <- !app_assoc; reflexivity.
Qed.

Lemma password_found_actions_witness :
  password_found Scenario.first_locked "NZBNA_" "job" Scenario.fresh =
    (Done tt,
     logged (logged Scenario.fresh [Print ("[WARNING] Password found in " +++ "job");
                                    Print flag_line])
       [EditQueue "GroupPause" [7%Z]; Print ("[DETAIL] Paused " +++ "job")]).
Proof.
  exact (proj2 (proj2 (password_found_actions Scenario.first_locked "NZBNA_" "job"
                         "Pause" Scenario.fresh eq_refl))
           eq_refl "7" 7%Z eq_refl eq_refl eq_refl).
Defined.

(** ** A queue-script run that reaches detection *)

Lemma detect_event_no_remove (e : event) : detect_event e = true -> no_remove e = true.
Proof. destruct e; simpl; auto; discriminate. Qed.

Lemma bind_trace_extends {A B} (P : event -> bool) (m : script A) (k : A -> script B)
  (w : world) :
  (forall a, emits P (k a)) ->
  exists evs, trace (snd (bind m k w)) = trace (snd (m w)) ++ evs
              /\ forallb P evs = true.
Proof.
  intros K. unfold bind. destruct (m w) as [[a|c|e] w1]; simpl.
  - apply K.
  - exists []. now rewrite app_nil_r.
  - exists []. now rewrite app_nil_r.
Qed.

Lemma emits_no_remove_password_found (h : host) (Prefix NzbName : string) :
  emits no_remove (password_found h Prefix NzbName).
Proof.
  unfold password_found, pause_nzb, py_int, value_or_raise, nzbget_editqueue,
    connection_info, env_item, print.
  repeat emits_step2.
Qed.

Lemma password_found_marks (h : host) (Prefix NzbName : string) (w : world) :
  exists evs,
    trace (snd (password_found h Prefix NzbName w)) = trace w ++ evs /\
    In (Print flag_line) evs /\ forallb no_remove evs = true.
Proof.
  unfold password_found.
  rewrite (bind_done _ _ w tt
             (logged w [Print ("[WARNING] Password found in " +++ NzbName)]))
    by reflexivity.
  rewrite (bind_done _ _ _ tt
             (logged (logged w [Print ("[WARNING] Password found in " +++ NzbName)])
                [Print flag_line]))
    by reflexivity.
  match goal with
  | |- exists _, trace (snd (?m ?w0)) = _ /\ _ /\ _ =>
      assert (R : emits no_remove m);
        [ unfold pause_nzb, py_int, value_or_raise, nzbget_editqueue,
            connection_info, env_item, print; repeat emits_step2
        | destruct (R w0) as (evs & T & F) ]
  end.
  exists ([Print ("[WARNING] Password found in " +++ NzbName); Print flag_line] ++ evs).
  split; [|split].
  - rewrite T. unfold logged. cbn [trace]. now rewrite <- !app_assoc.
  - right. now left.
  - exact F.
Qed.

Section QueueRun.

Variable order : set_order.
Variable h : host.
Variables Category Directory NzbName TempDir NzbId : string.
Variable listing : list string.

Hypothesis checks : gates_pass h = true.
Hypothesis queue : env_has h "NZBNA_EVENT" = true.
Hypothesis not_added : env_is h "NZBNA_EVENT" "NZB_ADDED" = false.
Hypothesis sorted : env_is h "NZBPR_FAKEDETECTOR_SORTED" "yes" = true.
Hypothesis category : environ h "NZBNA_CATEGORY" = Some Category.
Hypothesis directory : environ h "NZBNA_DIRECTORY" = Some Directory.
Hypothesis nzbname : environ h "NZBNA_NZBNAME" = Some NzbName.
Hypothesis tempdir : environ h "NZBOP_TEMPDIR" = Some TempDir.
Hypothesis nzbid : environ h "NZBNA_NZBID" = Some NzbId.
Hypothesis listed : listdir h Directory = Some listing.

Let t : tmp_file := {| folder := TempDir +++ "/PasswordDetector"; name := NzbId |}.

Let detecting (w : world) : world :=
  logged w [Print ("[DETAIL] Detecting password for " +++ NzbName)].

Lemma flag_not_set : env_is h flag "yes" = false.
Proof.
  unfold gates_pass in checks.
  repeat (apply andb_prop in checks as [checks ?]).
  repeat match goal with
         | H : negb _ = true |- _ => apply negb_true_iff in H
         end.
  assumption.
Qed.

Lemma main_queue_run (w : world) :
  main order h w =
    (found <- contains_password order h t Directory ;;
     (if found then password_found h "NZBNA_" NzbName else ret tt) ;;;
     print ("[DETAIL] Detecting completed for " +++ NzbName))
      (detecting w).
Proof.
  unfold main. rewrite (bind_done _ _ w tt w (start_check_passes order h w checks)).
  rewrite queue. cbv zeta. cbn [append].
  unfold env_item, env_plus. rewrite category, directory, nzbname, tempdir, nzbid.
  rewrite not_added, sorted, flag_not_set. cbn [negb]. rewrite andb_false_r.
  cbn [orb when].
  change (String.eqb "NZBNA_" "NZBPP_") with false. cbn [when].
  unfold bind, ret, print, emit, detecting, logged, t. cbn [store trace].
  destruct (contains_password _ _ _ _ _) as [[[|]|c|e] w1]; reflexivity.
Qed.

End QueueRun.

Lemma forallb_weaken (P Q : event -> bool) (evs : list event) :
  (forall e, P e = true -> Q e = true) -> forallb P evs = true -> forallb Q evs = true.
Proof. intros H. rewrite !forallb_forall. auto. Qed.

(** The [print] calls of a queue-script run that reaches detection:
    one of them is given the marking line exactly when one of the files
    [get_latest_file] answers is positive. *)
Lemma queue_run_events (order : set_order) (h : host)
  (Category Directory NzbName TempDir NzbId : string) (listing : list string)
  (w : world) :
  gates_pass h = true ->
  env_has h "NZBNA_EVENT" = true ->
  env_is h "NZBNA_EVENT" "NZB_ADDED" = false ->
  env_is h "NZBPR_FAKEDETECTOR_SORTED" "yes" = true ->
  environ h "NZBNA_CATEGORY" = Some Category ->
  environ h "NZBNA_DIRECTORY" = Some Directory ->
  environ h "NZBNA_NZBNAME" = Some NzbName ->
  environ h "NZBOP_TEMPDIR" = Some TempDir ->
  environ h "NZBNA_NZBID" = Some NzbId ->
  listdir h Directory = Some listing ->
  let t := {| folder := TempDir +++ "/PasswordDetector"; name := NzbId |} in
  exists evs,
    trace (snd (main order h w)) = trace w ++ evs /\
    (In (Print flag_line) evs <->
     exists f, In f (untested order listing (record_of t w))
               /\ probe_positive h Directory f = true) /\
    forallb no_remove evs = true.
Proof.
  intros G Q A S Ec Ed En Et Ei L t.
  rewrite (main_queue_run order h Category Directory NzbName TempDir NzbId
             G Q A S Ec Ed En Et Ei w).
  fold t.
  set (w0 := logged w [Print ("[DETAIL] Detecting password for " +++ NzbName)]).
  assert (R0 : record_of t w0 = record_of t w) by reflexivity.
  destruct (emits_contains_password order h t Directory w0) as (evs1 & T1 & D1).
  destruct (contains_password_run order h t Directory listing L w0)
    as (_ & w1 & _ & [(b & f & a & V & Pf & _ & _ & _ & C) | (Pall & _ & _ & C)]);
    rewrite R0 in *; rewrite C in T1; simpl in T1.
  - rewrite (bind_done _ _ w0 true w1 C).
    destruct (password_found_marks h "NZBNA_" NzbName w1) as (evs2 & T2 & I2 & F2).
    destruct (bind_trace_extends no_remove (password_found h "NZBNA_" NzbName)
                (fun _ => print ("[DETAIL] Detecting completed for " +++ NzbName)) w1)
      as (evs3 & T3 & F3).
    { intros _. unfold print. apply emits_emit. reflexivity. }
    exists ([Print ("[DETAIL] Detecting password for " +++ NzbName)]
            ++ evs1 ++ evs2 ++ evs3).
    split; [|split].
    + rewrite T3, T2, T1. unfold w0, logged. cbn [trace].
      now rewrite <- !app_assoc.
    + split.
      * intros _. exists f. split; [|exact Pf].
        rewrite V. apply in_or_app. right. now left.
      * intros _. apply in_or_app. right. apply in_or_app. right.
        apply in_or_app. now left.
    + rewrite !forallb_app. rewrite F2, F3.
      rewrite (forallb_weaken _ _ _ detect_event_no_remove D1). reflexivity.
  - rewrite (bind_done _ _ w0 false w1 C).
    exists ([Print ("[DETAIL] Detecting password for " +++ NzbName)]
            ++ evs1 ++ [Print ("[DETAIL] Detecting completed for " +++ NzbName)]).
    split; [|split].
    + unfold bind, ret, print, emit. cbn [snd trace]. rewrite T1.
      unfold w0, logged. cbn [trace]. now rewrite <- !app_assoc.
    + split.
      * intros I. exfalso.
        apply in_app_or in I as [[I|[]]|I]; [discriminate|].
        apply in_app_or in I as [I|[I|[]]]; [|discriminate].
        rewrite forallb_forall in D1. apply D1 in I. discriminate.
      * intros (g & Hg & Pg). rewrite (Pall g Hg) in Pg. discriminate.
    + rewrite !forallb_app.
      rewrite (forallb_weaken _ _ _ detect_event_no_remove D1). reflexivity.
Qed.

(** Under names that are one line, what the run prints is one line
    each. *)
Ltac plain_emit :=
  apply emits_emit; cbn [plain]; rewrite ?no_LF_append;
  repeat match goal with H : no_LF _ = true |- _ => rewrite H end;
  reflexivity.

Ltac plain_step :=
  first
    [ plain_emit
    | apply emits_bind; [|intros ?]
    | apply emits_ret
    | apply emits_raise
    | apply emits_exit
    | apply emits_get_store
    | apply emits_set_store
    | match goal with
      | |- emits _ (match ?x with _ => _ end) => destruct x
      end ].

Lemma plain_scan_files (h : host) (t : tmp_file) (dir_name : string)
  (files : list string) :
  (forall path, plain_error (unrar_list h path) = true) ->
  forallb no_LF files = true ->
  forall tested, emits plain (scan_files h t dir_name files tested).
Proof.
  intros He. induction files as [|file files IH]; intros Hf tested; cbn [scan_files].
  - unfold save_tested. repeat plain_step.
  - cbn [forallb] in Hf. apply andb_prop in Hf as [Hfile Hf].
    destruct (negb (contains "tmp" file)); [|now apply IH].
    apply emits_bind; [apply emits_emit; reflexivity | intros _].
    specialize (He (dir_name +++ "/" +++ file)).
    destruct (unrar_list h (dir_name +++ "/" +++ file)) as [e|out err code].
    + cbn [plain_error] in He. unfold print.
      apply emits_bind; [plain_emit | intros _; now apply IH].
    + destruct (check_passwordstrings out err); [apply emits_ret | now apply IH].
Qed.

Lemma plain_get_latest_file (order : set_order) (h : host) (t : tmp_file)
  (dir_name : string) :
  no_LF (folder t) = true -> no_LF (name t) = true ->
  emits plain (get_latest_file order h t dir_name).
Proof.
  intros Hf Hn.
  unfold get_latest_file, create_tmp_file, print, tmp_file_name.
  repeat plain_step.
Qed.

Lemma plain_contains_password (order : set_order) (h : host) (t : tmp_file)
  (dir_name : string) (listing : list string) :
  listdir h dir_name = Some listing ->
  no_LF (folder t) = true -> no_LF (name t) = true ->
  forallb no_LF listing = true ->
  (forall path, plain_error (unrar_list h path) = true) ->
  emits plain (contains_password order h t dir_name).
Proof.
  intros L Hf Hn Hl He w.
  destruct (plain_get_latest_file order h t dir_name Hf Hn w) as (evs0 & T0 & P0).
  destruct (get_latest_file_run order h t dir_name listing L w)
    as (evs0' & entries & _ & _ & _ & G).
  unfold contains_password, bind. rewrite G in *. cbn [snd] in T0.
  assert (Hv : forallb no_LF (untested order listing (record_of t w)) = true).
  { apply forallb_forall. intros f Hin. apply untested_incl in Hin as [Hin _].
    rewrite forallb_forall in Hl. now apply Hl. }
  destruct (plain_scan_files h t dir_name _ He Hv EmptyString
              {| store := Some entries; trace := trace w ++ evs0' |})
    as (evs1 & T1 & P1).
  exists (evs0 ++ evs1). split.
  - rewrite T1, T0. symmetry. apply app_assoc.
  - now rewrite forallb_app, P0, P1.
Qed.

Lemma plain_password_found (h : host) (Prefix NzbName : string) :
  no_LF NzbName = true -> emits plain (password_found h Prefix NzbName).
Proof.
  intros Hn.
  unfold password_found, pause_nzb, py_int, value_or_raise, nzbget_editqueue,
    connection_info, env_item, print.
  repeat plain_step.
Qed.

(** X24.  A queue-script run that reaches detection (the checks pass, the
    event is not the adding of the download, the inner files are
    sorted), for a download whose name, id, temp directory, file names
    and launch errors hold no line feed: the line that marks the
    download as protected stands on standard output exactly when one of
    the files [get_latest_file] answers is positive; and the run removes
    no temp file, whatever it finds. *)
Theorem queue_run_marks_positive (order : set_order) (h : host)
  (Category Directory NzbName TempDir NzbId : string) (listing : list string)
  (w : world) :
  gates_pass h = true ->
  env_has h "NZBNA_EVENT" = true ->
  env_is h "NZBNA_EVENT" "NZB_ADDED" = false ->
  env_is h "NZBPR_FAKEDETECTOR_SORTED" "yes" = true ->
  environ h "NZBNA_CATEGORY" = Some Category ->
  environ h "NZBNA_DIRECTORY" = Some Directory ->
  environ h "NZBNA_NZBNAME" = Some NzbName ->
  environ h "NZBOP_TEMPDIR" = Some TempDir ->
  environ h "NZBNA_NZBID" = Some NzbId ->
  listdir h Directory = Some listing ->
  no_LF NzbName = true -> no_LF TempDir = true -> no_LF NzbId = true ->
  forallb no_LF listing = true ->
  (forall path, plain_error (unrar_list h path) = true) ->
  let t := {| folder := TempDir +++ "/PasswordDetector"; name := NzbId |} in
  exists evs,
    trace (snd (main order h w)) = trace w ++ evs /\
    (In flag_line (stdout_lines evs) <->
     exists f, In f (untested order listing (record_of t w))
               /\ probe_positive h Directory f = true) /\
    forallb no_remove evs = true.
Proof.
  intros G Q A S Ec Ed En Et Ei L Hname Htemp Hid Hl He t.
  destruct (queue_run_events order h Category Directory NzbName TempDir NzbId listing w
              G Q A S Ec Ed En Et Ei L) as (evs & T & M & R).
  exists evs. split; [exact T|]. split; [|exact R].
  fold t in M. rewrite <- M.
  apply stdout_lines_plain; [|discriminate].
  assert (P : exists evs', trace (snd (main order h w)) = trace w ++ evs'
                           /\ forallb plain evs' = true).
  { rewrite (main_queue_run order h Category Directory NzbName TempDir NzbId
               G Q A S Ec Ed En Et Ei w).
    fold t.
    set (w0 := logged w [Print ("[DETAIL] Detecting password for " +++ NzbName)]).
    assert (E : emits plain
                  (found <- contains_password order h t Directory ;;
                   (if found then password_found h "NZBNA_" NzbName else ret tt) ;;;
                   print ("[DETAIL] Detecting completed for " +++ NzbName))).
    { apply emits_bind.
      - apply (plain_contains_password order h t Directory listing L); auto.
        unfold t. cbn [folder]. rewrite no_LF_append, Htemp. reflexivity.
      - intros found. apply emits_bind.
        + destruct found; [now apply plain_password_found | apply emits_ret].
        + intros _. unfold print. plain_emit. }
    destruct (E w0) as (evs1 & T1 & P1).
    exists (Print ("[DETAIL] Detecting password for " +++ NzbName) :: evs1). split.
    - rewrite T1. unfold w0, logged. cbn [trace]. now rewrite <- app_assoc.
    - cbn [forallb plain]. rewrite no_LF_append, Hname, P1. reflexivity. }
  destruct P as (evs' & T' & P). rewrite T in T'. apply app_inv_head in T'.
  now subst evs'.
Qed.

Lemma queue_run_marks_positive_witness :
  exists evs,
    trace (snd (main listing_order Scenario.tmp_then_locked Scenario.fresh)) = [] ++ evs /\
    (In flag_line (stdout_lines evs) <->
     exists f, In f ["x.tmp"; "a.rar"]
               /\ probe_positive Scenario.tmp_then_locked "/d" f = true) /\
    forallb no_remove evs = true.
Proof.
  exact (queue_run_marks_positive listing_order Scenario.tmp_then_locked
           "tv" "/d" "job" "/tmp" "7" ["x.tmp"; "a.rar"] Scenario.fresh
           eq_refl eq_refl eq_refl eq_refl eq_refl eq_refl eq_refl eq_refl eq_refl
           eq_refl eq_refl eq_refl eq_refl eq_refl (fun _ => eq_refl)).
Defined.

Lemma added_job_is_only_sorted_witness :
  (exists evs,
     trace (snd (main listing_order
                   (Scenario.a_host
                      (("NZBNA_EVENT", "NZB_ADDED") :: ("NZBPR_FAKEDETECTOR_SORTED", "no")
                       :: Scenario.queue_settings)
                      ["a.rar"] (fun _ => ProbeOutput EmptyString "wrong password" 3)
                      (Some (listing_text [(1%Z, "a.r00"); (2%Z, "b.r01")])))
                   Scenario.fresh)) = [] ++ evs
     /\ forallb no_probe evs = true) /\
  (forall a,
     fst (main listing_order
            (Scenario.a_host
               (("NZBNA_EVENT", "NZB_ADDED") :: ("NZBPR_FAKEDETECTOR_SORTED", "no")
                :: Scenario.queue_settings)
               ["a.rar"] (fun _ => ProbeOutput EmptyString "wrong password" 3)
               (Some (listing_text [(1%Z, "a.r00"); (2%Z, "b.r01")])))
            Scenario.fresh) <> Done a).
Proof.
  split;
    apply (added_job_is_only_sorted listing_order
             (Scenario.a_host
                (("NZBNA_EVENT", "NZB_ADDED") :: ("NZBPR_FAKEDETECTOR_SORTED", "no")
                 :: Scenario.queue_settings)
                ["a.rar"] (fun _ => ProbeOutput EmptyString "wrong password" 3)
                (Some (listing_text [(1%Z, "a.r00"); (2%Z, "b.r01")])))
             Scenario.fresh eq_refl).
Defined.

(** ** What each part of the script leaves alone *)

Lemma exits_with_contains_password (order : set_order) (h : host) (c : Z)
  (t : tmp_file) (dir_name : string) :
  exits_with c (contains_password order h t dir_name).
Proof.
  unfold contains_password, get_latest_file, create_tmp_file, print.
  repeat first [apply exits_with_scan_files | exits_step].
Qed.

Lemma never_exits {A} (m : script A) :
  (forall c, exits_with c m) -> forall w code, fst (m w) <> Exit code.
Proof.
  intros H w code E.
  pose proof (H 0%Z w code E). pose proof (H 1%Z w code E). lia.
Qed.

(** X25.  Each of the three working parts keeps to its own side.
    [contains_password] launches unrar and prints, but never talks to
    NZBGet and removes no file; [sort_inner_files] asks NZBGet for the
    files and moves one, but launches nothing and leaves the temp folder
    as it is; [clean_up] asks NZBGet for the jobs and removes temp
    files, but launches nothing and changes nothing in the queue.  None
    of them ends the process: they return or fail. *)
Theorem parts_keep_to_their_side (order : set_order) (h : host) (t : tmp_file)
  (dir_name : string) (w : world) :
  (exists evs, trace (snd (contains_password order h t dir_name w)) = trace w ++ evs
               /\ forallb detect_event evs = true)
  /\
  (exists evs, trace (snd (sort_inner_files h w)) = trace w ++ evs
               /\ forallb sort_event evs = true)
  /\
  store (snd (sort_inner_files h w)) = store w
  /\
  (exists evs, trace (snd (clean_up order h w)) = trace w ++ evs
               /\ forallb clean_event evs = true)
  /\
  (forall code,
     fst (contains_password order h t dir_name w) <> Exit code /\
     fst (sort_inner_files h w) <> Exit code /\
     fst (clean_up order h w) <> Exit code).
Proof.
  split; [exact (emits_contains_password order h t dir_name w)|].
  split; [exact (emits_sort_inner_files h w)|].
  split; [exact (keeps_store_sort_inner_files h w)|].
  split; [exact (emits_clean_event_clean_up order h w)|].
  intros code. repeat split.
  - apply never_exits. intros c. apply exits_with_contains_password.
  - apply never_exits. intros c. apply exits_with_sort_inner_files.
  - apply never_exits. intros c. apply exits_with_clean_up.
Qed.
